(** * Pipeline orchestration engine of the AI SEO orchestrator

    A shallow embedding of the run controller, the [App] component
    ([updateStage], [addLog], [resetPipeline], [handleCancelAnalysis],
    [handleNewAnalysis], [handleSubmit]; in the sources it is the second
    document of [src/vite.config.ts]), and of the stage catalogue of
    [src/types/pipeline.ts].

    React state is a record [Store]; every [setX] call of the source is an
    update of that record, applied in the order the calls are made.  The
    asynchronous [handleSubmit] is cut at its [await]s: each piece between
    two awaits is one function, and a [Run] remembers the values captured by
    the closure and the await it is suspended at.  What the collaborators do
    (resolve, reject, call back) arrives as events, and so does what the
    user does.  The collaborators themselves ([crawlSitemap], the AI
    services, [cacheService]) are outside the model: only their outcomes
    are. *)

From Stdlib Require Import ZArith QArith List String Ascii Bool Lia Arith.
From Stdlib Require Import DecimalString Lqa.
Import ListNotations.

Local Open Scope Z_scope.

(** ** JavaScript string helpers used by the orchestrator *)

Module JS.

(** [String.prototype.toLowerCase], on the ASCII letters. *)
Definition lower_ascii (c : ascii) : ascii :=
  let n := nat_of_ascii c in
  if (Nat.leb 65 n && Nat.leb n 90)%bool then ascii_of_nat (n + 32) else c.

Fixpoint toLowerCase (s : string) : string :=
  match s with
  | EmptyString => EmptyString
  | String c r => String (lower_ascii c) (toLowerCase r)
  end.

(** [String.prototype.includes]. *)
Fixpoint includes (s needle : string) : bool :=
  if String.prefix needle s then true
  else match s with
       | EmptyString => false
       | String _ r => includes r needle
       end.

(** [s.split('\n')]: the pieces between line feeds; the accumulator is
    the piece being read. *)
Fixpoint split_lines_aux (acc : string) (s : string) : list string :=
  match s with
  | EmptyString => [acc]
  | String c r =>
      if Ascii.eqb c "010"%char
      then acc :: split_lines_aux EmptyString r
      else split_lines_aux (acc ++ String c EmptyString)%string r
  end.

Definition split_lines (s : string) : list string :=
  split_lines_aux EmptyString s.

(** White space removed by [String.prototype.trim], on ASCII text. *)
Definition is_space (c : ascii) : bool :=
  let n := nat_of_ascii c in
  (Nat.eqb n 32 || (Nat.leb 9 n && Nat.leb n 13))%bool.

Fixpoint trim_start (s : string) : string :=
  match s with
  | EmptyString => EmptyString
  | String c r => if is_space c then trim_start r else s
  end.

Fixpoint rev_string (acc s : string) : string :=
  match s with
  | EmptyString => acc
  | String c r => rev_string (String c acc) r
  end.

Definition trim (s : string) : string :=
  rev_string EmptyString
    (trim_start (rev_string EmptyString (trim_start s))).

(** [Boolean(s)] for a string: the empty string is the only falsy one. *)
Definition truthy (s : string) : bool :=
  match s with EmptyString => false | _ => true end.

(** Decimal rendering of a length inside a template literal. *)
Definition show_nat (n : nat) : string :=
  NilZero.string_of_uint (Nat.to_uint n).

End JS.

(** ** JavaScript numbers

    A number is a binary64 value.  The orchestrator divides and multiplies
    whole numbers below [2^53]; the model keeps the value of a number as
    the rational it is, and rounds the result of each operation to the
    nearest binary64 value, ties to even.  The exponent is not bounded:
    the values computed here are far from overflow and underflow. *)

Module Double.

(** The integer nearest to [n / d], ties to even ([d] positive). *)
Definition round_half_even (n d : Z) : Z :=
  let q := n / d in
  match 2 * (n mod d) ?= d with
  | Lt => q
  | Gt => q + 1
  | Eq => if Z.even q then q else q + 1
  end.

(** [2^k] for [k >= 0], and 1 otherwise. *)
Definition p2 (k : Z) : Z := 2 ^ Z.max 0 k.

(** The exponent [e] with [2^e <= n / d < 2^(e+1)], for positive [n] and
    [d]. *)
Definition binade (n d : Z) : Z :=
  let e := Z.log2 n - Z.log2 d in
  if d * p2 e <=? n * p2 (- e) then e else e - 1.

(** The binary64 value nearest to [n / d]: a mantissa of 53 bits times a
    power of two. *)
Definition round_pos (n d : Z) : Q :=
  let s := binade n d - 52 in
  let m := round_half_even (n * p2 (- s)) (d * p2 s) in
  Qmake (m * p2 s) (Z.to_pos (p2 (- s))).

(** The binary64 value nearest to a rational. *)
Definition round (x : Q) : Q :=
  match Qnum x with
  | Z0 => 0%Q
  | Zpos n => round_pos (Zpos n) (Zpos (Qden x))
  | Zneg n => Qopp (round_pos (Zpos n) (Zpos (Qden x)))
  end.

(** [x / y] and [x * y] on numbers. *)
Definition div (x y : Q) : Q := round (x / y).
Definition mul (x y : Q) : Q := round (x * y).

End Double.

(** ** Data model ([types/pipeline.ts]) *)

Inductive PipelineStageStatus :=
| StPending | StRunning | StComplete | StError | StSkipped.

Definition status_eqb (a b : PipelineStageStatus) : bool :=
  match a, b with
  | StPending, StPending | StRunning, StRunning | StComplete, StComplete
  | StError, StError | StSkipped, StSkipped => true
  | _, _ => false
  end.

(** Payloads produced by the collaborators.  The orchestrator never looks
    inside them; they are carried as opaque text. *)
Definition SitewideAnalysis := string.
Definition SeoAnalysisResult := string.
Definition ExecutiveSummary := string.
Definition DailyActionPlan := string.
Definition GroundingSource := string.
Definition AiConfig := string.

(** [progress] is a JavaScript number: the model keeps the rational value
    of the double. *)
Record PipelineStage := mkStage {
  stage_id : string;
  stage_name : string;
  description : string;
  status : PipelineStageStatus;
  progress : Q;
  itemsProcessed : option Z;
  totalItems : option Z;
  currentTask : option string;
  startTime : option Z;
  endTime : option Z
}.

(** [Partial<PipelineStage>] as the call sites of [updateStage] build it: a
    field is [Some] exactly when the object literal has the key. *)
Record StageUpdates := mkUpd {
  u_status : option PipelineStageStatus;
  u_progress : option Q;
  u_itemsProcessed : option Z;
  u_totalItems : option Z;
  u_currentTask : option string;
  u_startTime : option Z;
  u_endTime : option Z
}.

Inductive LogType := LInfo | LSuccess | LWarning | LError | LAi.

Record ActivityLogEntry := mkLog {
  timestamp : Z;
  message : string;
  entry_type : LogType;
  stage : option string
}.

Record PartialResults := mkPR {
  pr_sitewideAnalysis : option SitewideAnalysis;
  pr_seoAnalysis : option SeoAnalysisResult;
  pr_executiveSummary : option ExecutiveSummary;
  pr_actionPlan : option (list DailyActionPlan);
  pr_urlsDiscovered : option nat;
  pr_urlsAnalyzed : option nat
}.

Inductive PRField :=
| FSitewideAnalysis | FSeoAnalysis | FExecutiveSummary
| FActionPlan | FUrlsDiscovered | FUrlsAnalyzed.

Definition PRField_eqb (a b : PRField) : bool :=
  match a, b with
  | FSitewideAnalysis, FSitewideAnalysis | FSeoAnalysis, FSeoAnalysis
  | FExecutiveSummary, FExecutiveSummary | FActionPlan, FActionPlan
  | FUrlsDiscovered, FUrlsDiscovered | FUrlsAnalyzed, FUrlsAnalyzed => true
  | _, _ => false
  end.

(** The stage catalogue, [PIPELINE_STAGE_DEFINITIONS]. *)
Definition PIPELINE_STAGE_DEFINITIONS : list (string * string * string) :=
  [ ("crawl", "Sitemap Discovery",
     "Crawling sitemaps in parallel to extract all page URLs");
    ("rank", "URL Prioritization",
     "Scoring and ranking URLs by strategic SEO value");
    ("competitor", "Competitor Intelligence",
     "Analyzing competitor content gaps and strategies");
    ("technical", "Technical Health Scan",
     "Auditing site architecture, speed, and crawlability");
    ("content", "Content Analysis",
     "Evaluating on-page SEO factors and content quality");
    ("actionplan", "Action Plan Generation",
     "Creating prioritized implementation roadmap");
    ("summary", "Executive Synthesis",
     "Generating 80/20 executive summary with top priorities") ]%string.

(** [{ ...s, status: 'pending', progress: 0 }] for a catalogue entry. *)
Definition pending_stage (d : string * string * string) : PipelineStage :=
  let '(i, n, de) := d in
  mkStage i n de StPending 0 None None None None None.

Definition initial_stages : list PipelineStage :=
  map pending_stage PIPELINE_STAGE_DEFINITIONS.

Definition stage_ids : list string :=
  map (fun d => fst (fst d)) PIPELINE_STAGE_DEFINITIONS.

(** ** Records of the application ([types], as [App.tsx] uses them) *)

Record CrawlProgress := mkCrawlProgress {
  count : Z;
  total : Z;
  currentSitemap : option string
}.

Record CachedAnalysis := mkCached {
  sitewide : SitewideAnalysis;
  seo : SeoAnalysisResult
}.

Record WizardSubmitData := mkWizard {
  w_sitemapUrl : string;
  w_url : string;
  w_competitorSitemaps : string;
  w_analysisType : string;
  w_targetLocation : string
}.

(** [id] and [date] are both renderings of the instant read by
    [new Date()]; the model keeps the instant. *)
Record HistoricalAnalysis := mkHistory {
  ha_id : Z;
  ha_date : Z;
  ha_sitemapUrl : string;
  ha_competitorSitemaps : list string;
  ha_sitewideAnalysis : SitewideAnalysis;
  ha_analysis : SeoAnalysisResult;
  ha_sources : list GroundingSource;
  ha_analysisType : string;
  ha_location : string;
  ha_actionPlan : list DailyActionPlan;
  ha_executiveSummary : ExecutiveSummary
}.

Inductive AppState := Idle | Loading | Results | AppError | ConfigureAi.
Inductive LoadingPhase := Crawling | Analyzing.

Definition MAX_URLS_FOR_ANALYSIS : nat := 100.

(** What a [localStorage] key may hold when it is read back with
    [JSON.parse]. *)
Inductive Item (A : Type) :=
| Missing
| Value (a : A)
| Garbage.
Arguments Missing {A}.
Arguments Value {A} a.
Arguments Garbage {A}.

(** ** The state of the [App] component

    One field per [useState] cell the orchestrator touches, the
    [abortControllerRef] ([None] is [null], [Some b] a controller whose
    signal is aborted iff [b]), the two [localStorage] keys, and two
    history variables: [clock] counts the readings of the system clock made
    so far, and [partialResultsWrites] lists the fields assigned through
    [setPartialResults] since the accumulator was last emptied. *)
Record Store := mkStore {
  error_ : option string;
  analysisHistory : list HistoricalAnalysis;
  selectedAnalysisId : option Z;
  appState : AppState;
  loadingPhase : LoadingPhase;
  crawlProgress : option CrawlProgress;
  pipelineStages : list PipelineStage;
  activityLog : list ActivityLogEntry;
  partialResults : PartialResults;
  analysisStartTime : Z;
  aiConfig : option AiConfig;
  isCancelling : bool;
  abortController : option bool;
  storedHistory : Item (list HistoricalAnalysis);
  storedConfig : Item AiConfig;
  clock : nat;
  partialResultsWrites : list PRField
}.

Definition set_error (v : option string) (s : Store) : Store :=
  mkStore v (analysisHistory s) (selectedAnalysisId s) (appState s)
    (loadingPhase s) (crawlProgress s) (pipelineStages s) (activityLog s)
    (partialResults s) (analysisStartTime s) (aiConfig s) (isCancelling s)
    (abortController s) (storedHistory s) (storedConfig s) (clock s)
    (partialResultsWrites s).

Definition set_analysisHistory (v : list HistoricalAnalysis) (s : Store) : Store :=
  mkStore (error_ s) v (selectedAnalysisId s) (appState s) (loadingPhase s)
    (crawlProgress s) (pipelineStages s) (activityLog s) (partialResults s)
    (analysisStartTime s) (aiConfig s) (isCancelling s) (abortController s)
    (storedHistory s) (storedConfig s) (clock s) (partialResultsWrites s).

Definition set_selectedAnalysisId (v : option Z) (s : Store) : Store :=
  mkStore (error_ s) (analysisHistory s) v (appState s) (loadingPhase s)
    (crawlProgress s) (pipelineStages s) (activityLog s) (partialResults s)
    (analysisStartTime s) (aiConfig s) (isCancelling s) (abortController s)
    (storedHistory s) (storedConfig s) (clock s) (partialResultsWrites s).

Definition set_appState (v : AppState) (s : Store) : Store :=
  mkStore (error_ s) (analysisHistory s) (selectedAnalysisId s) v
    (loadingPhase s) (crawlProgress s) (pipelineStages s) (activityLog s)
    (partialResults s) (analysisStartTime s) (aiConfig s) (isCancelling s)
    (abortController s) (storedHistory s) (storedConfig s) (clock s)
    (partialResultsWrites s).

Definition set_loadingPhase (v : LoadingPhase) (s : Store) : Store :=
  mkStore (error_ s) (analysisHistory s) (selectedAnalysisId s) (appState s)
    v (crawlProgress s) (pipelineStages s) (activityLog s) (partialResults
    s) (analysisStartTime s) (aiConfig s) (isCancelling s) (abortController
    s) (storedHistory s) (storedConfig s) (clock s) (partialResultsWrites s).

Definition set_crawlProgress (v : option CrawlProgress) (s : Store) : Store :=
  mkStore (error_ s) (analysisHistory s) (selectedAnalysisId s) (appState s)
    (loadingPhase s) v (pipelineStages s) (activityLog s) (partialResults s)
    (analysisStartTime s) (aiConfig s) (isCancelling s) (abortController s)
    (storedHistory s) (storedConfig s) (clock s) (partialResultsWrites s).

Definition set_pipelineStages (v : list PipelineStage) (s : Store) : Store :=
  mkStore (error_ s) (analysisHistory s) (selectedAnalysisId s) (appState s)
    (loadingPhase s) (crawlProgress s) v (activityLog s) (partialResults s)
    (analysisStartTime s) (aiConfig s) (isCancelling s) (abortController s)
    (storedHistory s) (storedConfig s) (clock s) (partialResultsWrites s).

Definition set_activityLog (v : list ActivityLogEntry) (s : Store) : Store :=
  mkStore (error_ s) (analysisHistory s) (selectedAnalysisId s) (appState s)
    (loadingPhase s) (crawlProgress s) (pipelineStages s) v (partialResults
    s) (analysisStartTime s) (aiConfig s) (isCancelling s) (abortController
    s) (storedHistory s) (storedConfig s) (clock s) (partialResultsWrites s).

Definition set_partialResults (v : PartialResults) (s : Store) : Store :=
  mkStore (error_ s) (analysisHistory s) (selectedAnalysisId s) (appState s)
    (loadingPhase s) (crawlProgress s) (pipelineStages s) (activityLog s) v
    (analysisStartTime s) (aiConfig s) (isCancelling s) (abortController s)
    (storedHistory s) (storedConfig s) (clock s) (partialResultsWrites s).

Definition set_analysisStartTime (v : Z) (s : Store) : Store :=
  mkStore (error_ s) (analysisHistory s) (selectedAnalysisId s) (appState s)
    (loadingPhase s) (crawlProgress s) (pipelineStages s) (activityLog s)
    (partialResults s) v (aiConfig s) (isCancelling s) (abortController s)
    (storedHistory s) (storedConfig s) (clock s) (partialResultsWrites s).

Definition set_aiConfig (v : option AiConfig) (s : Store) : Store :=
  mkStore (error_ s) (analysisHistory s) (selectedAnalysisId s) (appState s)
    (loadingPhase s) (crawlProgress s) (pipelineStages s) (activityLog s)
    (partialResults s) (analysisStartTime s) v (isCancelling s)
    (abortController s) (storedHistory s) (storedConfig s) (clock s)
    (partialResultsWrites s).

Definition set_isCancelling (v : bool) (s : Store) : Store :=
  mkStore (error_ s) (analysisHistory s) (selectedAnalysisId s) (appState s)
    (loadingPhase s) (crawlProgress s) (pipelineStages s) (activityLog s)
    (partialResults s) (analysisStartTime s) (aiConfig s) v (abortController
    s) (storedHistory s) (storedConfig s) (clock s) (partialResultsWrites s).

Definition set_abortController (v : option bool) (s : Store) : Store :=
  mkStore (error_ s) (analysisHistory s) (selectedAnalysisId s) (appState s)
    (loadingPhase s) (crawlProgress s) (pipelineStages s) (activityLog s)
    (partialResults s) (analysisStartTime s) (aiConfig s) (isCancelling s) v
    (storedHistory s) (storedConfig s) (clock s) (partialResultsWrites s).

Definition set_storedHistory (v : Item (list HistoricalAnalysis)) (s : Store) : Store :=
  mkStore (error_ s) (analysisHistory s) (selectedAnalysisId s) (appState s)
    (loadingPhase s) (crawlProgress s) (pipelineStages s) (activityLog s)
    (partialResults s) (analysisStartTime s) (aiConfig s) (isCancelling s)
    (abortController s) v (storedConfig s) (clock s) (partialResultsWrites
    s).

Definition set_storedConfig (v : Item AiConfig) (s : Store) : Store :=
  mkStore (error_ s) (analysisHistory s) (selectedAnalysisId s) (appState s)
    (loadingPhase s) (crawlProgress s) (pipelineStages s) (activityLog s)
    (partialResults s) (analysisStartTime s) (aiConfig s) (isCancelling s)
    (abortController s) (storedHistory s) v (clock s) (partialResultsWrites
    s).

Definition set_clock (v : nat) (s : Store) : Store :=
  mkStore (error_ s) (analysisHistory s) (selectedAnalysisId s) (appState s)
    (loadingPhase s) (crawlProgress s) (pipelineStages s) (activityLog s)
    (partialResults s) (analysisStartTime s) (aiConfig s) (isCancelling s)
    (abortController s) (storedHistory s) (storedConfig s) v
    (partialResultsWrites s).

Definition set_partialResultsWrites (v : list PRField) (s : Store) : Store :=
  mkStore (error_ s) (analysisHistory s) (selectedAnalysisId s) (appState s)
    (loadingPhase s) (crawlProgress s) (pipelineStages s) (activityLog s)
    (partialResults s) (analysisStartTime s) (aiConfig s) (isCancelling s)
    (abortController s) (storedHistory s) (storedConfig s) (clock s) v.

(** The platform around the component: the system clock (the value of the
    [n]-th reading made by [Date.now()] or [new Date()]), the URL parser
    behind [new URL(s).toString()], and [rankUrls] of [utils/seoScoring]. *)
Record Env := mkEnv {
  now : nat -> Z;
  parseURL : string -> option string;
  rankUrls : list string -> list string
}.

(** A value thrown or a rejection reason: an [Error] with its message, or
    anything else. *)
Inductive Thrown :=
| ErrorObj (msg : string)
| OtherValue.

(** The [await] a run of [handleSubmit] is suspended at, with the local
    variables later pieces use, or [Returned] once the function has
    returned ([ok] tells a normal return from one through [catch]; [last]
    is the await it had reached). *)
Inductive Phase :=
| PhCrawl | PhCacheGet | PhHitPlan | PhHitSummary
| PhFanout | PhCacheSet | PhPlan | PhSummary.

Inductive Pc :=
| AwaitCrawl
| AwaitCacheGet (urlsFromSitemap : list string)
| AwaitHitPlan (cachedAnalysis : CachedAnalysis)
| AwaitHitSummary (cachedAnalysis : CachedAnalysis)
    (actionPlan : list DailyActionPlan)
| AwaitFanout (audit : option SitewideAnalysis)
    (pages : option (SeoAnalysisResult * list GroundingSource))
| AwaitCacheSet (sitewideAnalysis : SitewideAnalysis)
    (analysis : SeoAnalysisResult) (sources : list GroundingSource)
| AwaitPlan (sitewideAnalysis : SitewideAnalysis)
    (analysis : SeoAnalysisResult) (sources : list GroundingSource)
| AwaitSummary (sitewideAnalysis : SitewideAnalysis)
    (analysis : SeoAnalysisResult) (sources : list GroundingSource)
    (actionPlan : list DailyActionPlan)
| Returned (last : Phase) (ok : bool).

Definition phase_of (p : Pc) : Phase :=
  match p with
  | AwaitCrawl => PhCrawl
  | AwaitCacheGet _ => PhCacheGet
  | AwaitHitPlan _ => PhHitPlan
  | AwaitHitSummary _ _ => PhHitSummary
  | AwaitFanout _ _ => PhFanout
  | AwaitCacheSet _ _ _ => PhCacheSet
  | AwaitPlan _ _ _ => PhPlan
  | AwaitSummary _ _ _ _ => PhSummary
  | Returned last _ => last
  end.

(** One invocation of [handleSubmit]: the values its closure captured from
    the render it was created in, its local constants, and where it is. *)
Record Run := mkRun {
  c_aiConfig : AiConfig;
  c_analysisHistory : list HistoricalAnalysis;
  c_isCancelling : bool;
  r_data : WizardSubmitData;
  r_competitorUrls : list string;
  pc : Pc
}.

Definition at_pc (p : Pc) (r : Run) : Run :=
  mkRun (c_aiConfig r) (c_analysisHistory r) (c_isCancelling r)
    (r_data r) (r_competitorUrls r) p.

(** What a collaborator of a run does next: call one of the progress
    callbacks handed to it, or settle the promise the run awaits.
    [SummaryResolved] also tells whether the [localStorage.setItem] of the
    piece it resumes succeeds. *)
Inductive RunEvent :=
| CrawlProgressCb (p : CrawlProgress)
| AuditProgressCb (msg : string)
| SeoProgressCb (msg : string)
| PlanProgressCb (msg : string)
| CrawlResolved (allPageUrls : list string)
| CacheGetResolved (cachedAnalysis : option CachedAnalysis)
| AuditResolved (sitewideAnalysis : SitewideAnalysis)
| SeoResolved (analysis : SeoAnalysisResult) (sources : list GroundingSource)
| CacheSetResolved
| PlanResolved (actionPlan : list DailyActionPlan)
| SummaryResolved (executiveSummary : ExecutiveSummary) (storageOk : bool)
| Rejected (e : Thrown).

Inductive Event :=
| EvSubmit (data : WizardSubmitData)
| EvCancel
| EvNewAnalysis
| EvClearHistory
| EvConfigure (config : AiConfig) (storageOk : bool)
| EvAiSettings
| EvRun (i : nat) (e : RunEvent).

Record App := mkApp {
  store : Store;
  runs : list Run
}.

(** ** The pipeline state store *)

(** [{ ...s, ...updates }]. *)
Definition merge_updates (s : PipelineStage) (u : StageUpdates)
  : PipelineStage :=
  mkStage (stage_id s) (stage_name s) (description s)
    (match u_status u with Some v => v | None => status s end)
    (match u_progress u with Some v => v | None => progress s end)
    (match u_itemsProcessed u with Some v => Some v
     | None => itemsProcessed s end)
    (match u_totalItems u with Some v => Some v | None => totalItems s end)
    (match u_currentTask u with Some v => Some v | None => currentTask s end)
    (match u_startTime u with Some v => Some v | None => startTime s end)
    (match u_endTime u with Some v => Some v | None => endTime s end).

(** [updateStage]:
    [prev.map(s => s.id === stageId ? {...s, ...updates} : s)]. *)
Definition updateStage (stageId : string) (updates : StageUpdates)
    (s : Store) : Store :=
  set_pipelineStages
    (map (fun st => if String.eqb (stage_id st) stageId
                    then merge_updates st updates else st)
         (pipelineStages s)) s.

(** [prev.map(s => s.status === 'running' ? {...s, status: 'error'} : s)],
    the updater used by the [catch] of [handleSubmit] and by
    [handleCancelAnalysis]. *)
Definition fail_running (st : PipelineStage) : PipelineStage :=
  if status_eqb (status st) StRunning
  then mkStage (stage_id st) (stage_name st) (description st) StError
         (progress st) (itemsProcessed st) (totalItems st) (currentTask st)
         (startTime st) (endTime st)
  else st.

Definition markRunningAsError (s : Store) : Store :=
  set_pipelineStages (map fail_running (pipelineStages s)) s.

(** The keys of an object literal of type [PartialResults]. *)
Definition has {A} (o : option A) : bool :=
  match o with Some _ => true | None => false end.

Definition pr_keys (o : PartialResults) : list PRField :=
  (if has (pr_sitewideAnalysis o) then [FSitewideAnalysis] else []) ++
  (if has (pr_seoAnalysis o) then [FSeoAnalysis] else []) ++
  (if has (pr_executiveSummary o) then [FExecutiveSummary] else []) ++
  (if has (pr_actionPlan o) then [FActionPlan] else []) ++
  (if has (pr_urlsDiscovered o) then [FUrlsDiscovered] else []) ++
  (if has (pr_urlsAnalyzed o) then [FUrlsAnalyzed] else []).

Definition or_else {A} (a b : option A) : option A :=
  match a with Some _ => a | None => b end.

(** [{ ...prev, ...o }]. *)
Definition pr_spread (prev o : PartialResults) : PartialResults :=
  mkPR (or_else (pr_sitewideAnalysis o) (pr_sitewideAnalysis prev))
       (or_else (pr_seoAnalysis o) (pr_seoAnalysis prev))
       (or_else (pr_executiveSummary o) (pr_executiveSummary prev))
       (or_else (pr_actionPlan o) (pr_actionPlan prev))
       (or_else (pr_urlsDiscovered o) (pr_urlsDiscovered prev))
       (or_else (pr_urlsAnalyzed o) (pr_urlsAnalyzed prev)).

Definition pr_empty : PartialResults := mkPR None None None None None None.

(** [setPartialResults(prev => ({ ...prev, ...o }))]. *)
Definition mergePartialResults (o : PartialResults) (s : Store) : Store :=
  set_partialResultsWrites (partialResultsWrites s ++ pr_keys o)
    (set_partialResults (pr_spread (partialResults s) o) s).

(** [setPartialResults(o)]: the accumulator is replaced.  Replacing it by
    [{}] empties it and starts the record of assignments afresh. *)
Definition setPartialResults (o : PartialResults) (s : Store) : Store :=
  set_partialResultsWrites
    (match pr_keys o with
     | [] => []
     | ks => partialResultsWrites s ++ ks
     end)
    (set_partialResults o s).

Section Orchestrator.

Variable env : Env.

(** [Date.now()], [new Date()]: the next reading of the clock. *)
Definition dateNow (s : Store) : Z * Store :=
  (now env (clock s), set_clock (S (clock s)) s).

(** [updateStage(id, u)] where the literal [u] contains [Date.now()]. *)
Definition updateStageNow (stageId : string) (u : Z -> StageUpdates)
    (s : Store) : Store :=
  let (t, s) := dateNow s in updateStage stageId (u t) s.

(** [addLog]: appends.  The source reads the time stamp inside the state
    updater, when React applies it; the model reads it at the call.  The
    times of stages are read at the call in both, so the order in which
    they are read is the same. *)
Definition addLog (msg : string) (ty : LogType) (stg : option string)
    (s : Store) : Store :=
  let (t, s) := dateNow s in
  set_activityLog (activityLog s ++ [mkLog t msg ty stg]) s.

(** [resetPipeline]. *)
Definition resetPipeline (s : Store) : Store :=
  let s := set_pipelineStages initial_stages s in
  let s := set_activityLog [] s in
  let s := setPartialResults pr_empty s in
  let (t, s) := dateNow s in
  set_analysisStartTime t s.

(** The object literals passed to [updateStage]. *)
Definition upd_running (task : string) (t : Z) : StageUpdates :=
  mkUpd (Some StRunning) None None None (Some task) (Some t) None.

Definition upd_complete (t : Z) : StageUpdates :=
  mkUpd (Some StComplete) (Some 100%Q) None None None None (Some t).

Definition upd_task (msg : string) : StageUpdates :=
  mkUpd None None None None (Some msg) None None.

Definition upd_crawl_progress (percent : Q) (p : CrawlProgress)
  : StageUpdates :=
  mkUpd None (Some percent) (Some (count p)) (Some (total p))
    (Some ("Processing " ++
           match currentSitemap p with
           | Some n => if JS.truthy n then n else "sitemap"
           | None => "sitemap"
           end ++ "...")%string)
    None None.

(** [handleNewAnalysis]; the [aiConfig] of its closure is the one of the
    render it is called from. *)
Definition handleNewAnalysis (s : Store) : Store :=
  let cfg := aiConfig s in
  let s := set_selectedAnalysisId None s in
  let s := set_appState (if has cfg then Idle else ConfigureAi) s in
  let s := set_error None s in
  resetPipeline s.

(** [handleAiConfigChange]; the [setItem] may throw, which is caught. *)
Definition handleAiConfigChange (config : AiConfig) (storageOk : bool)
    (s : Store) : Store :=
  let s := set_aiConfig (Some config) s in
  let s := if storageOk then set_storedConfig (Value config) s else s in
  set_appState Idle s.

(** [handleAiSettingsChange]. *)
Definition handleAiSettingsChange (s : Store) : Store :=
  let s := set_aiConfig None s in
  let s := set_storedConfig Missing s in
  set_appState ConfigureAi s.

(** The [onClear] handler of the history panel. *)
Definition handleClearHistory (s : Store) : Store :=
  let s := set_analysisHistory [] s in
  let s := set_selectedAnalysisId None s in
  let s := set_storedHistory Missing s in
  handleNewAnalysis s.

(** [handleCancelAnalysis]. *)
Definition handleCancelAnalysis (s : Store) : Store :=
  let s := set_isCancelling true s in
  let s := match abortController s with
           | Some _ => set_abortController (Some true) s
           | None => s
           end in
  let s := addLog "Analysis cancelled by user" LWarning None s in
  let s := markRunningAsError s in
  let s := set_appState Idle s in
  let s := set_isCancelling false s in
  resetPipeline s.

(** *** [handleSubmit], one definition per piece between two awaits *)

(** The [catch] block.  [isCancelling] is the value captured by the
    closure of this invocation. *)
Definition catch_handler (r : Run) (e : Thrown) (s : Store) : Store :=
  if c_isCancelling r then s
  else
    let errorMessage :=
      match e with
      | ErrorObj m => m
      | OtherValue => "An unexpected error occurred."%string
      end in
    let s := set_error (Some errorMessage) s in
    let s := addLog ("Analysis failed: " ++ errorMessage)%string
               LError None s in
    let s := markRunningAsError s in
    set_appState AppError s.

Definition failed (r : Run) : Run :=
  at_pc (Returned (phase_of (pc r)) false) r.

Definition EMPTY_CRAWL_MESSAGE : string :=
  "Crawl complete, but no URLs were found. Your sitemap might be empty or in a format that could not be parsed.".

(** From the call to the first await ([crawlSitemap]).  No run is
    created when a check fails. *)
Definition handleSubmit (data : WizardSubmitData) (s : Store)
  : Store * option Run :=
  if negb (JS.truthy (w_sitemapUrl data)) then
    let s := set_error (Some "Please enter your sitemap.xml URL."%string) s in
    (set_appState AppError s, None)
  else
    match aiConfig s with
    | None =>
        let s := set_error
                   (Some "AI Provider is not configured."%string) s in
        (set_appState ConfigureAi s, None)
    | Some cfg =>
        match parseURL env (w_sitemapUrl data) with
        | None =>
            let s := set_error
              (Some "Please enter a valid sitemap URL (e.g., https://example.com/sitemap.xml)."%string) s in
            (set_appState AppError s, None)
        | Some initialSitemapUrl =>
            let r := mkRun cfg (analysisHistory s) (isCancelling s) data
                       (filter JS.truthy
                          (map JS.trim
                             (JS.split_lines (w_competitorSitemaps data))))
                       AwaitCrawl in
            let s := set_abortController (Some false) s in
            let s := set_appState Loading s in
            let s := set_loadingPhase Crawling s in
            let s := set_error None s in
            let s := set_selectedAnalysisId None s in
            let s := set_crawlProgress None s in
            let s := resetPipeline s in
            let (t, s) := dateNow s in
            let s := set_analysisStartTime t s in
            let s := addLog "Starting sitemap discovery..." LInfo
                       (Some "crawl"%string) s in
            let s := updateStageNow "crawl"
                       (upd_running "Initializing parallel crawler...") s in
            (s, Some r)
        end
    end.

(** The progress callback given to [crawlSitemap], as run by
    [requestAnimationFrame]. *)
Definition on_crawl_progress (p : CrawlProgress) (s : Store) : Store :=
  let s := set_crawlProgress (Some p) s in
  let progressPercent :=
    if Z.ltb 0 (total p)
    then Double.mul (Double.div (inject_Z (count p)) (inject_Z (total p)))
           100
    else 0%Q in
  updateStage "crawl" (upd_crawl_progress progressPercent p) s.

(** The progress callback given to [generateSitewideAudit]. *)
Definition on_audit_progress (msg : string) (s : Store) : Store :=
  if JS.includes (JS.toLowerCase msg) "competitor" then
    let s := updateStage "competitor" (upd_task msg) s in
    addLog msg LAi (Some "competitor"%string) s
  else
    let s := updateStage "technical" (upd_task msg) s in
    addLog msg LAi (Some "technical"%string) s.

(** The progress callback given to [generateSeoAnalysis]. *)
Definition on_seo_progress (msg : string) (s : Store) : Store :=
  let s := updateStage "content" (upd_task msg) s in
  addLog msg LAi (Some "content"%string) s.

(** The progress callback given to [createActionPlan] (both paths). *)
Definition on_plan_progress (msg : string) (s : Store) : Store :=
  let s := updateStage "actionplan" (upd_task msg) s in
  addLog msg LAi (Some "actionplan"%string) s.

(** After [crawlSitemap] resolved with the set [allPageUrls], up to the
    await of [cacheService.getAnalysis]. *)
Definition after_crawl (r : Run) (allPageUrls : list string) (s : Store)
  : Store * Run :=
  let s := updateStageNow "crawl" upd_complete s in
  let s := addLog ("Discovered " ++ JS.show_nat (List.length allPageUrls)
                   ++ " URLs")%string LSuccess (Some "crawl"%string) s in
  let s := mergePartialResults
             (mkPR None None None None (Some (List.length allPageUrls)) None)
             s in
  let urlsFromSitemap := allPageUrls in
  if Nat.eqb (List.length urlsFromSitemap) 0 then
    (catch_handler r (ErrorObj EMPTY_CRAWL_MESSAGE) s, failed r)
  else
    let s := set_loadingPhase Analyzing s in
    let s := set_crawlProgress None s in
    let s := addLog "Checking for cached analysis..." LInfo None s in
    (s, at_pc (AwaitCacheGet urlsFromSitemap) r).

(** Cache hit: up to the await of [createActionPlan]. *)
Definition after_cache_hit (r : Run) (urlsFromSitemap : list string)
    (cachedAnalysis : CachedAnalysis) (s : Store) : Store * Run :=
  let s := addLog "Cache hit! Using cached analysis..." LSuccess None s in
  let s := fold_left (fun s stageId => updateStageNow stageId upd_complete s)
             ["rank"; "competitor"; "technical"; "content"]%string s in
  let s := setPartialResults
             (mkPR (Some (sitewide cachedAnalysis))
                   (Some (seo cachedAnalysis)) None None
                   (Some (List.length urlsFromSitemap)) None) s in
  let s := addLog "Generating fresh action plan from cache..." LAi
             (Some "actionplan"%string) s in
  let s := updateStageNow "actionplan"
             (upd_running "Creating implementation roadmap...") s in
  (s, at_pc (AwaitHitPlan cachedAnalysis) r).

(** Cache miss: ranking, then the three stages are started and the two
    analyzers are called; up to the await of [Promise.all]. *)
Definition after_cache_miss (r : Run) (urlsFromSitemap : list string)
    (s : Store) : Store * Run :=
  let s := addLog "No valid cache found, running full analysis..."
             LInfo None s in
  let s := addLog "Prioritizing URLs by SEO value..." LInfo
             (Some "rank"%string) s in
  let s := updateStageNow "rank" (upd_running "Scoring URL importance...")
             s in
  let rankedUrls := rankUrls env urlsFromSitemap in
  let inputUrls := firstn MAX_URLS_FOR_ANALYSIS rankedUrls in
  let s := updateStageNow "rank" upd_complete s in
  let s := addLog ("Ranked " ++ JS.show_nat (List.length rankedUrls)
                   ++ " URLs, analyzing top "
                   ++ JS.show_nat (List.length inputUrls))%string
             LSuccess (Some "rank"%string) s in
  let s := mergePartialResults
             (mkPR None None None None None (Some (List.length inputUrls))) s in
  let s := addLog "Starting parallel AI analysis engines..." LAi None s in
  let s := updateStageNow "competitor"
             (upd_running "Analyzing competitor sitemaps...") s in
  let s := updateStageNow "technical"
             (upd_running "Auditing technical health...") s in
  let s := updateStageNow "content"
             (upd_running "Evaluating content quality...") s in
  (s, at_pc (AwaitFanout None None) r).

(** After [Promise.all] resolved, up to the await of
    [cacheService.setAnalysis]. *)
Definition after_fanout (r : Run) (sitewideAnalysis : SitewideAnalysis)
    (analysis : SeoAnalysisResult) (sources : list GroundingSource)
    (s : Store) : Store * Run :=
  let s := updateStageNow "competitor" upd_complete s in
  let s := updateStageNow "technical" upd_complete s in
  let s := updateStageNow "content" upd_complete s in
  let s := addLog "Sitewide audit complete" LSuccess
             (Some "technical"%string) s in
  let s := addLog "Content analysis complete" LSuccess
             (Some "content"%string) s in
  let s := mergePartialResults
             (mkPR (Some sitewideAnalysis) (Some analysis)
                   None None None None) s in
  let s := addLog "Caching analysis for future use..." LInfo None s in
  (s, at_pc (AwaitCacheSet sitewideAnalysis analysis sources) r).

(** After [cacheService.setAnalysis] resolved, up to the await of
    [createActionPlan]. *)
Definition after_cache_set (r : Run) (sitewideAnalysis : SitewideAnalysis)
    (analysis : SeoAnalysisResult) (sources : list GroundingSource)
    (s : Store) : Store * Run :=
  let s := addLog "Generating implementation roadmap..." LAi
             (Some "actionplan"%string) s in
  let s := updateStageNow "actionplan"
             (upd_running "Creating daily action items...") s in
  (s, at_pc (AwaitPlan sitewideAnalysis analysis sources) r).

(** After [createActionPlan] resolved (cache miss), up to the await of
    [generateExecutiveSummary]. *)
Definition after_plan (r : Run) (sitewideAnalysis : SitewideAnalysis)
    (analysis : SeoAnalysisResult) (sources : list GroundingSource)
    (actionPlan : list DailyActionPlan) (s : Store) : Store * Run :=
  let s := updateStageNow "actionplan" upd_complete s in
  let s := addLog "Action plan generated successfully" LSuccess
             (Some "actionplan"%string) s in
  let s := mergePartialResults
             (mkPR None None None (Some actionPlan) None None) s in
  let s := addLog "Synthesizing executive summary..." LAi
             (Some "summary"%string) s in
  let s := updateStageNow "summary"
             (upd_running "Generating 80/20 analysis...") s in
  (s, at_pc (AwaitSummary sitewideAnalysis analysis sources actionPlan) r).

(** The history recorder, as both paths of [handleSubmit] inline it:
    [[newAnalysis, ...analysisHistory].slice(0, 10)] with the
    [analysisHistory] of the closure, then the guarded [setItem]. *)
Definition record_history (r : Run) (newAnalysis : HistoricalAnalysis)
    (storageOk : bool) (s : Store) : Store :=
  let updatedHistory := firstn 10 (newAnalysis :: c_analysisHistory r) in
  let s := set_analysisHistory updatedHistory s in
  if storageOk then set_storedHistory (Value updatedHistory) s else s.

(** After [generateExecutiveSummary] resolved (cache miss), to the end. *)
Definition after_summary (r : Run) (sitewideAnalysis : SitewideAnalysis)
    (analysis : SeoAnalysisResult) (sources : list GroundingSource)
    (actionPlan : list DailyActionPlan)
    (executiveSummary : ExecutiveSummary) (storageOk : bool) (s : Store)
  : Store * Run :=
  let s := updateStageNow "summary" upd_complete s in
  let s := addLog "Executive summary complete" LSuccess
             (Some "summary"%string) s in
  let s := mergePartialResults
             (mkPR None None (Some executiveSummary) None None None) s in
  let s := addLog "Analysis complete! Building final report..."
             LSuccess None s in
  let (i, s) := dateNow s in
  let (d, s) := dateNow s in
  let newAnalysis :=
    mkHistory i d (w_url (r_data r)) (r_competitorUrls r)
      sitewideAnalysis analysis sources
      (w_analysisType (r_data r)) (w_targetLocation (r_data r))
      actionPlan executiveSummary in
  let s := record_history r newAnalysis storageOk s in
  let s := set_selectedAnalysisId (Some (ha_id newAnalysis)) s in
  let s := set_appState Results s in
  (s, at_pc (Returned PhSummary true) r).

(** After [createActionPlan] resolved (cache hit). *)
Definition after_hit_plan (r : Run) (cachedAnalysis : CachedAnalysis)
    (actionPlan : list DailyActionPlan) (s : Store) : Store * Run :=
  let s := updateStageNow "actionplan" upd_complete s in
  let s := addLog "Action plan generated" LSuccess
             (Some "actionplan"%string) s in
  let s := mergePartialResults
             (mkPR None None None (Some actionPlan) None None) s in
  let s := addLog "Synthesizing executive summary..." LAi
             (Some "summary"%string) s in
  let s := updateStageNow "summary"
             (upd_running "Creating 80/20 analysis...") s in
  (s, at_pc (AwaitHitSummary cachedAnalysis actionPlan) r).

(** After [generateExecutiveSummary] resolved (cache hit), to the
    [return]. *)
Definition after_hit_summary (r : Run) (cachedAnalysis : CachedAnalysis)
    (actionPlan : list DailyActionPlan)
    (executiveSummary : ExecutiveSummary) (storageOk : bool) (s : Store)
  : Store * Run :=
  let s := updateStageNow "summary" upd_complete s in
  let s := addLog "Executive summary complete" LSuccess
             (Some "summary"%string) s in
  let s := mergePartialResults
             (mkPR None None (Some executiveSummary) None None None) s in
  let (i, s) := dateNow s in
  let (d, s) := dateNow s in
  let newAnalysis :=
    mkHistory i d (w_url (r_data r)) (r_competitorUrls r)
      (sitewide cachedAnalysis) (seo cachedAnalysis) []
      (w_analysisType (r_data r)) (w_targetLocation (r_data r))
      actionPlan executiveSummary in
  let s := record_history r newAnalysis storageOk s in
  let s := set_selectedAnalysisId (Some (ha_id newAnalysis)) s in
  let s := set_appState Results s in
  (s, at_pc (Returned PhHitSummary true) r).

(** *** The collaborators drive the run *)

(** Has the run called the two analyzers / the action-plan synthesizer?
    Their callbacks exist from then on. *)
Definition fanout_issued (p : Phase) : bool :=
  match p with
  | PhFanout | PhCacheSet | PhPlan | PhSummary => true
  | _ => false
  end.

Definition plan_issued (p : Phase) : bool :=
  match p with
  | PhHitPlan | PhHitSummary | PhPlan | PhSummary => true
  | _ => false
  end.

(** One event of a run.  A settlement that does not match the await the
    run is suspended at is not an event of that run and is ignored.
    [Promise.all] resolves with the second of its two promises and
    rejects with the first rejection. *)
Definition resume (r : Run) (e : RunEvent) (s : Store) : Store * Run :=
  match e, pc r with
  | CrawlProgressCb p, _ => (on_crawl_progress p s, r)
  | AuditProgressCb msg, p =>
      if fanout_issued (phase_of p) then (on_audit_progress msg s, r)
      else (s, r)
  | SeoProgressCb msg, p =>
      if fanout_issued (phase_of p) then (on_seo_progress msg s, r)
      else (s, r)
  | PlanProgressCb msg, p =>
      if plan_issued (phase_of p) then (on_plan_progress msg s, r)
      else (s, r)
  | CrawlResolved urls, AwaitCrawl => after_crawl r urls s
  | CacheGetResolved (Some c), AwaitCacheGet urls =>
      after_cache_hit r urls c s
  | CacheGetResolved None, AwaitCacheGet urls => after_cache_miss r urls s
  | AuditResolved sw, AwaitFanout None (Some (an, src)) =>
      after_fanout r sw an src s
  | AuditResolved sw, AwaitFanout None None =>
      (s, at_pc (AwaitFanout (Some sw) None) r)
  | SeoResolved an src, AwaitFanout (Some sw) None =>
      after_fanout r sw an src s
  | SeoResolved an src, AwaitFanout None None =>
      (s, at_pc (AwaitFanout None (Some (an, src))) r)
  | CacheSetResolved, AwaitCacheSet sw an src =>
      after_cache_set r sw an src s
  | PlanResolved plan, AwaitPlan sw an src => after_plan r sw an src plan s
  | PlanResolved plan, AwaitHitPlan c => after_hit_plan r c plan s
  | SummaryResolved sum ok, AwaitSummary sw an src plan =>
      after_summary r sw an src plan sum ok s
  | SummaryResolved sum ok, AwaitHitSummary c plan =>
      after_hit_summary r c plan sum ok s
  | Rejected _, Returned _ _ => (s, r)
  | Rejected e, _ => (catch_handler r e s, failed r)
  | _, _ => (s, r)
  end.

Fixpoint set_nth {A} (i : nat) (x : A) (l : list A) : list A :=
  match l, i with
  | [], _ => []
  | _ :: t, O => x :: t
  | h :: t, S j => h :: set_nth j x t
  end.

(** One step of the application: a user action or an event of the
    [i]-th invocation of [handleSubmit].  The render that React makes
    after it is not part of the step; where that render changes the state
    ([renderContent], in the ['results'] state without a record or a
    configuration) it does what [EvNewAnalysis] does. *)
Definition step (a : App) (e : Event) : App :=
  match e with
  | EvSubmit data =>
      match handleSubmit data (store a) with
      | (s, Some r) => mkApp s (runs a ++ [r])
      | (s, None) => mkApp s (runs a)
      end
  | EvCancel => mkApp (handleCancelAnalysis (store a)) (runs a)
  | EvNewAnalysis => mkApp (handleNewAnalysis (store a)) (runs a)
  | EvClearHistory => mkApp (handleClearHistory (store a)) (runs a)
  | EvConfigure c ok => mkApp (handleAiConfigChange c ok (store a)) (runs a)
  | EvAiSettings => mkApp (handleAiSettingsChange (store a)) (runs a)
  | EvRun i ev =>
      match nth_error (runs a) i with
      | Some r =>
          let (s, r') := resume r ev (store a) in
          mkApp s (set_nth i r' (runs a))
      | None => a
      end
  end.

Definition exec (a : App) (evs : list Event) : App :=
  fold_left step evs a.

(** The component when it is first rendered, over the given
    [localStorage] contents. *)
Definition initial_store (h : Item (list HistoricalAnalysis))
    (c : Item AiConfig) : Store :=
  mkStore None [] None Idle Crawling None initial_stages [] pr_empty
    (now env 0) None false None h c 1 [].

(** The mount effect. *)
Definition mountEffect (s : Store) : Store :=
  let forget_storage (s : Store) :=
    let s := set_storedHistory Missing s in
    let s := set_storedConfig Missing s in
    set_appState ConfigureAi s in
  match storedConfig s with
  | Garbage => forget_storage s
  | c =>
      let s := match c with
               | Value cfg => set_aiConfig (Some cfg) s
               | _ => set_appState ConfigureAi s
               end in
      match storedHistory s with
      | Garbage => forget_storage s
      | Missing => s
      | Value history =>
          let s := set_analysisHistory history s in
          match history, c with
          | h0 :: _, Value _ =>
              let s := set_selectedAnalysisId (Some (ha_id h0)) s in
              set_appState Results s
          | _, _ => s
          end
      end
  end.

Definition mount (h : Item (list HistoricalAnalysis)) (c : Item AiConfig)
  : App :=
  mkApp (mountEffect (initial_store h c)) [].

Definition reachable (a : App) : Prop :=
  exists h c evs, a = exec (mount h c) evs.

End Orchestrator.

(** ** Observations on the store and the properties under study *)

(** The stage with a given id, as [find] would return it. *)
Definition find_stage (stageId : string) (s : Store) : option PipelineStage :=
  find (fun st => String.eqb (stage_id st) stageId) (pipelineStages s).

Definition stage_status (stageId : string) (s : Store)
  : option PipelineStageStatus :=
  option_map status (find_stage stageId s).

(** A property of stages that may depend on how many clock readings have
    been made holds of every stage of the store. *)
Definition stages_satisfy (P : nat -> PipelineStage -> Prop) (s : Store)
  : Prop :=
  Forall (P (clock s)) (pipelineStages s).

(** The system clock never goes back. *)
Definition monotone_clock (env : Env) : Prop :=
  forall i j : nat, (i <= j)%nat -> now env i <= now env j.

(** The timing invariant of a stage as the data model words it. *)
Definition stage_timing_claim (st : PipelineStage) : Prop :=
  (status st = StRunning -> startTime st <> None) /\
  (status st = StComplete \/ status st = StError ->
   exists e, endTime st = Some e /\
             forall b, startTime st = Some b -> b <= e).

(** The timing invariant the orchestrator maintains: a stage that is
    running or in error has a start time; a complete stage has an end time,
    not before its start time when it has one. *)
Definition stage_timing (st : PipelineStage) : Prop :=
  (status st = StRunning \/ status st = StError -> startTime st <> None) /\
  (status st = StComplete ->
   exists e, endTime st = Some e /\
             forall b, startTime st = Some b -> b <= e).

(** [stage_timing], together with the bound that makes it inductive: the
    times a stage carries were read from the clock before its [n]-th
    reading. *)
Definition stage_timed (env : Env) (n : nat) (st : PipelineStage) : Prop :=
  stage_timing st /\
  (forall t, startTime st = Some t -> t <= now env n) /\
  (forall t, endTime st = Some t -> t <= now env n).

Definition not_skipped (n : nat) (st : PipelineStage) : Prop :=
  status st <> StSkipped.

(** A concrete platform and a concrete submission, for the examples. *)
Definition env0 : Env :=
  mkEnv (fun n => Z.of_nat n) (fun u => Some u) (fun urls => urls).

Definition d0 : WizardSubmitData :=
  mkWizard "https://example.com/sitemap.xml" "https://example.com" ""
    "global" "".

Definition app0 : App := mount env0 Missing (Value "cfg"%string).

(** A run whose crawl promise rejects. *)
Definition crawl_rejected_trace : list Event :=
  [EvSubmit d0; EvRun 0 (Rejected (ErrorObj "network down"))].

Definition crawl_rejected_app : App := exec env0 app0 crawl_rejected_trace.

(** Its crawl stage. *)
Definition crawl_rejected_stage : PipelineStage :=
  hd (pending_stage (""%string, ""%string, ""%string))
     (pipelineStages (store crawl_rejected_app)).

(** What the rendering layer is shown of a run: stages, log and partial
    results. *)
Definition observable (s : Store)
  : list PipelineStage * list ActivityLogEntry * PartialResults :=
  (pipelineStages s, activityLog s, partialResults s).

(** Stale-result rejection as the specification words it: once
    [handleCancelAnalysis] has completed, no event of a run that was
    started before changes what is observable. *)
Definition stale_results_dropped (env : Env) : Prop :=
  forall a i e,
    reachable env a ->
    let c := step env a EvCancel in
    observable (store (step env c (EvRun i e))) = observable (store c).

(** The progress rule as the specification words it: the percentage when
    the total is positive, the current value kept otherwise. *)
Definition progress_retained_claim : Prop :=
  forall s p st,
    find_stage "crawl" s = Some st ->
    exists st',
      find_stage "crawl" (on_crawl_progress p s) = Some st' /\
      (0 < total p ->
       (progress st' == 100 * inject_Z (count p) / inject_Z (total p))%Q) /\
      (total p <= 0 -> progress st' = progress st).

(** A crawl that has reported one sitemap of two. *)
Definition halfway_app : App :=
  exec env0 app0
    [EvSubmit d0; EvRun 0 (CrawlProgressCb (mkCrawlProgress 1 2 None))].

(** A full analysis whose cache write rejects. *)
Definition cache_write_rejected_trace : list Event :=
  [EvSubmit d0;
   EvRun 0 (CrawlResolved
              ["https://example.com/a"; "https://example.com/b"]%string);
   EvRun 0 (CacheGetResolved None);
   EvRun 0 (AuditResolved "sitewide"%string);
   EvRun 0 (SeoResolved "pages"%string ["source"%string]);
   EvRun 0 (Rejected (ErrorObj "QuotaExceededError"))].

(** A run served from the cache, up to the await of the summary. *)
Definition cache_hit_trace : list Event :=
  [EvSubmit d0;
   EvRun 0 (CrawlResolved ["https://example.com/a"]%string);
   EvRun 0 (CacheGetResolved
              (Some (mkCached "sitewide"%string "pages"%string)));
   EvRun 0 (PlanResolved ["day 1"%string])].

Definition cache_hit_app : App := exec env0 app0 cache_hit_trace.

Definition cache_hit_run : Run :=
  mkRun "cfg"%string [] false d0 []
    (AwaitHitSummary (mkCached "sitewide"%string "pages"%string)
       ["day 1"%string]).

(** A submitted run, still crawling. *)
Definition crawling_app : App := exec env0 app0 [EvSubmit d0].

Definition crawling_run : Run := mkRun "cfg"%string [] false d0 [] AwaitCrawl.

(** ** One run at a time *)

Section RunLevel.

Variable env : Env.

(** The events [evs] of one run, applied in order to the store and to the
    run. *)
Fixpoint run_exec (r : Run) (s : Store) (evs : list RunEvent)
  : Store * Run :=
  match evs with
  | [] => (s, r)
  | e :: rest => let (s', r') := resume env r e s in run_exec r' s' rest
  end.

(** The submission [d] made in [a] starts the run [r]. *)
Definition starts_run (a : App) (d : WizardSubmitData) (r : Run) : Prop :=
  snd (handleSubmit env d (store a)) = Some r.

(** Submitting [d] in [a], then the events [evs] of the run this starts and
    nothing else. *)
Definition single_run (a : App) (d : WizardSubmitData) (evs : list RunEvent)
  : App :=
  exec env (step env a (EvSubmit d))
    (map (EvRun (List.length (runs a))) evs).

(** The run started by the last submission made in [a]. *)
Definition new_run (a a' : App) : option Run :=
  nth_error (runs a') (List.length (runs a)).

End RunLevel.

(** The stages of the store by id and status, in the order of the list. *)
Definition view_of (l : list PipelineStage)
  : list (string * PipelineStageStatus) :=
  map (fun st => (stage_id st, status st)) l.

Definition view (s : Store) : list (string * PipelineStageStatus) :=
  view_of (pipelineStages s).

Definition crawling_view : list (string * PipelineStageStatus) :=
  [("crawl", StRunning); ("rank", StPending); ("competitor", StPending);
   ("technical", StPending); ("content", StPending);
   ("actionplan", StPending); ("summary", StPending)]%string.

Definition crawled_view : list (string * PipelineStageStatus) :=
  [("crawl", StComplete); ("rank", StPending); ("competitor", StPending);
   ("technical", StPending); ("content", StPending);
   ("actionplan", StPending); ("summary", StPending)]%string.

(** How [updateStage] and the failure updater show in the view. *)
Definition upd_view (stageId : string) (o : option PipelineStageStatus)
    (x : string * PipelineStageStatus) : string * PipelineStageStatus :=
  (fst x, if String.eqb (fst x) stageId
          then match o with Some v => v | None => snd x end
          else snd x).

Definition fail_view (x : string * PipelineStageStatus)
  : string * PipelineStageStatus :=
  (fst x, if status_eqb (snd x) StRunning then StError else snd x).









(** The events of a complete analysis without cache. *)
Definition full_run_events : list RunEvent :=
  [CrawlProgressCb (mkCrawlProgress 1 2 None);
   CrawlResolved ["https://example.com/a"; "https://example.com/b"]%string;
   CacheGetResolved None;
   AuditProgressCb "Scanning competitor sitemaps"%string;
   SeoResolved "pages"%string ["source"%string];
   SeoProgressCb "late"%string;
   AuditResolved "sitewide"%string;
   CacheSetResolved;
   PlanProgressCb "drafting"%string;
   PlanResolved ["day 1"%string];
   SummaryResolved "summary"%string true].

(** ** Sessions of successive runs *)

Section Sessions.

Variable env : Env.

(** A run as the user and the collaborators script it: what is submitted,
    and the events of the run it starts. *)
Definition Script : Type := WizardSubmitData * list RunEvent.

(** The user asks for a new analysis and submits; the run proceeds alone. *)
Definition run_script (a : App) (sc : Script) : App :=
  single_run env (step env a EvNewAnalysis) (fst sc) (snd sc).

(** The run started in [a] has returned normally in [a']. *)
Definition succeeded (a a' : App) : bool :=
  match new_run a a' with
  | Some r => match pc r with Returned _ true => true | _ => false end
  | None => false
  end.

Fixpoint session (a : App) (scs : list Script) : App :=
  match scs with
  | [] => a
  | sc :: rest => session (run_script a sc) rest
  end.

Fixpoint all_succeeded (a : App) (scs : list Script) : bool :=
  match scs with
  | [] => true
  | sc :: rest =>
      succeeded a (run_script a sc) && all_succeeded (run_script a sc) rest
  end.

End Sessions.

(** Every [localStorage.setItem] of the script succeeds. *)
Definition storage_ok (sc : Script) : bool :=
  forallb (fun e => match e with
                    | SummaryResolved _ ok => ok
                    | _ => true
                    end) (snd sc).

(** What a run has done to the history, by where the run is: nothing
    until it returns normally, and then the new record in front of the
    history it captured, cut to ten. *)
Definition history_inv (d : WizardSubmitData) (h0 : list HistoricalAnalysis)
    (r : Run) (s : Store) : Prop :=
  r_data r = d /\ c_analysisHistory r = h0 /\
  match pc r with
  | Returned _ true =>
      exists record,
        analysisHistory s = firstn 10 (record :: h0) /\
        ha_sitemapUrl record = w_url d
  | _ => analysisHistory s = h0
  end.

Definition stored_inv (r : Run) (s : Store) : Prop :=
  match pc r with
  | Returned _ true => storedHistory s = Value (analysisHistory s)
  | _ => True
  end.

(** The events of an analysis served from the cache. *)
Definition cached_run_events : list RunEvent :=
  [CrawlResolved ["https://example.com/a"; "https://example.com/b"]%string;
   CacheGetResolved (Some (mkCached "sitewide"%string "pages"%string));
   PlanResolved ["day 1"%string];
   SummaryResolved "summary"%string true].

(** Eleven analyses in a row: cached ones after the first. *)
Definition eleven_scripts : list Script :=
  (d0, full_run_events) :: repeat (d0, cached_run_events) 10.

(** ** Assignments to the partial results *)

(** The assignments a run makes, in order, without and with a cache hit. *)
Definition miss_writes : list PRField :=
  [FUrlsDiscovered; FUrlsAnalyzed; FSitewideAnalysis; FSeoAnalysis;
   FActionPlan; FExecutiveSummary].

Definition hit_writes : list PRField :=
  [FUrlsDiscovered; FSitewideAnalysis; FSeoAnalysis; FUrlsDiscovered;
   FActionPlan; FExecutiveSummary].

(** The assignments made so far, by where the run is. *)
Definition writes_ok (p : Pc) (w : list PRField) : Prop :=
  match p with
  | AwaitCrawl => w = []
  | AwaitCacheGet _ => w = firstn 1 miss_writes
  | AwaitHitPlan _ => w = firstn 4 hit_writes
  | AwaitHitSummary _ _ => w = firstn 5 hit_writes
  | AwaitFanout _ _ => w = firstn 2 miss_writes
  | AwaitCacheSet _ _ _ | AwaitPlan _ _ _ => w = firstn 4 miss_writes
  | AwaitSummary _ _ _ _ => w = firstn 5 miss_writes
  | Returned _ _ =>
      (exists k, w = firstn k miss_writes) \/
      (exists k, w = firstn k hit_writes)
  end.

Definition count_writes (f : PRField) (w : list PRField) : nat :=
  List.length (filter (PRField_eqb f) w).

Definition write_bound (f : PRField) : nat :=
  match f with FUrlsDiscovered => 2 | _ => 1 end.

(** "Set at most once", as the data model words it: within a run no field
    is assigned twice. *)
Definition set_once_claim (env : Env) : Prop :=
  forall a d r evs,
    starts_run env a d r ->
    NoDup (partialResultsWrites (store (single_run env a d evs))).

(** A populated field keeps its value. *)
Definition keeps {A : Type} (before after : option A) : Prop :=
  forall v, before = Some v -> after = Some v.

Definition pr_kept (p q : PartialResults) : Prop :=
  keeps (pr_sitewideAnalysis p) (pr_sitewideAnalysis q) /\
  keeps (pr_seoAnalysis p) (pr_seoAnalysis q) /\
  keeps (pr_executiveSummary p) (pr_executiveSummary q) /\
  keeps (pr_actionPlan p) (pr_actionPlan q) /\
  keeps (pr_urlsDiscovered p) (pr_urlsDiscovered q) /\
  keeps (pr_urlsAnalyzed p) (pr_urlsAnalyzed q).

(** What the accumulator holds, by where the run is: the fields the
    coming pieces will assign are still unset. *)
Definition pr_shape (p : Pc) (x : PartialResults) : Prop :=
  match p with
  | AwaitCrawl => x = pr_empty
  | AwaitCacheGet urls =>
      x = mkPR None None None None (Some (List.length urls)) None
  | AwaitFanout _ _ =>
      pr_sitewideAnalysis x = None /\ pr_seoAnalysis x = None /\
      pr_actionPlan x = None /\ pr_executiveSummary x = None
  | AwaitHitPlan _ | AwaitCacheSet _ _ _ | AwaitPlan _ _ _ =>
      pr_actionPlan x = None /\ pr_executiveSummary x = None
  | AwaitHitSummary _ _ | AwaitSummary _ _ _ _ => pr_executiveSummary x = None
  | Returned _ _ => True
  end.

(** The run awaits [generateExecutiveSummary], on either path. *)
Definition awaits_summary (p : Pc) : bool :=
  match p with
  | AwaitSummary _ _ _ _ | AwaitHitSummary _ _ => true
  | _ => false
  end.

(** ** How the stage list changes *)

(** What the catalogue fixes of a stage. *)
Definition stage_key (st : PipelineStage) : string * string * string :=
  (stage_id st, stage_name st, description st).

(** The object literals the orchestrator passes to [updateStage], with the
    stage ids it passes them for: any stage may be started or completed,
    the task text alone is set on the four stages that have a progress
    callback, and the crawl stage alone receives progress figures. *)
Inductive stage_update : string -> StageUpdates -> Prop :=
| su_running id task t : stage_update id (upd_running task t)
| su_complete id t : stage_update id (upd_complete t)
| su_task id msg :
    In id ["competitor"; "technical"; "content"; "actionplan"]%string ->
    stage_update id (upd_task msg)
| su_progress q p : stage_update "crawl" (upd_crawl_progress q p).

(** [evolves l l']: the stage list [l'] comes from [l] by the updaters of
    the orchestrator: [updateStage] with one of the literals above, the
    failure updater, and the reset to the catalogue. *)
Inductive evolves (l : list PipelineStage) : list PipelineStage -> Prop :=
| ev_refl : evolves l l
| ev_update id u x :
    evolves l x -> stage_update id u ->
    evolves l (map (fun st => if String.eqb (stage_id st) id
                              then merge_updates st u else st) x)
| ev_fail x : evolves l x -> evolves l (map fail_running x)
| ev_reset : evolves l initial_stages.

(** A stage as [resetPipeline] makes it, or as the updaters leave a stage
    that is not the crawl stage: no item counters, progress 0 or 100, no
    times while it is pending, progress 100 once it is complete. *)
Definition stage_fields_ok (st : PipelineStage) : Prop :=
  (status st = StPending -> startTime st = None /\ endTime st = None) /\
  (stage_id st <> "crawl"%string ->
   itemsProcessed st = None /\ totalItems st = None /\
   (progress st = 0%Q \/ progress st = 100%Q) /\
   (status st = StPending -> progress st = 0%Q) /\
   (status st = StComplete -> progress st = 100%Q)).

(** Stage id, status and the two times: what the progress callbacks must
    leave alone. *)
Definition stage_timeline (st : PipelineStage)
  : string * PipelineStageStatus * option Z * option Z :=
  (stage_id st, status st, startTime st, endTime st).

Definition is_callback (e : RunEvent) : bool :=
  match e with
  | CrawlProgressCb _ | AuditProgressCb _ | SeoProgressCb _
  | PlanProgressCb _ => true
  | _ => false
  end.

Definition is_run_event (e : Event) : bool :=
  match e with EvRun _ _ => true | _ => false end.

(** The message the [catch] of [handleSubmit] reports for a rejection. *)
Definition error_message (e : Thrown) : string :=
  match e with
  | ErrorObj m => m
  | OtherValue => "An unexpected error occurred."%string
  end.

Definition is_returned (p : Pc) : bool :=
  match p with Returned _ _ => true | _ => false end.

(** ** Stage statuses along a run *)

(** The statuses the stages have while a run that proceeds alone is
    suspended at an await. *)
Definition expected_view (ph : Phase) : list (string * PipelineStageStatus) :=
  match ph with
  | PhCrawl => crawling_view
  | PhCacheGet => crawled_view
  | PhFanout =>
      [("crawl", StComplete); ("rank", StComplete);
       ("competitor", StRunning); ("technical", StRunning);
       ("content", StRunning); ("actionplan", StPending);
       ("summary", StPending)]%string
  | PhCacheSet =>
      [("crawl", StComplete); ("rank", StComplete);
       ("competitor", StComplete); ("technical", StComplete);
       ("content", StComplete); ("actionplan", StPending);
       ("summary", StPending)]%string
  | PhPlan | PhHitPlan =>
      [("crawl", StComplete); ("rank", StComplete);
       ("competitor", StComplete); ("technical", StComplete);
       ("content", StComplete); ("actionplan", StRunning);
       ("summary", StPending)]%string
  | PhSummary | PhHitSummary =>
      [("crawl", StComplete); ("rank", StComplete);
       ("competitor", StComplete); ("technical", StComplete);
       ("content", StComplete); ("actionplan", StComplete);
       ("summary", StRunning)]%string
  end.

Definition complete_view : list (string * PipelineStageStatus) :=
  map (fun i => (i, StComplete)) stage_ids.

(** The statuses by where the run is: those of the await it is suspended
    at; all complete once it has returned normally; and once it has failed,
    those of the await it failed at with every running stage in error (a
    crawl that found no URL fails with the crawl stage complete). *)
Definition run_view (p : Pc) (v : list (string * PipelineStageStatus))
  : Prop :=
  match p with
  | Returned _ true => v = complete_view
  | Returned PhCrawl false =>
      v = map fail_view crawling_view \/ v = crawled_view
  | Returned ph false => v = map fail_view (expected_view ph)
  | _ => v = expected_view (phase_of p)
  end.

(** ** The pipeline view ([components/AnalysisPipelineView.tsx]) *)

Module PipelineView.

(** A whole number inside a template literal. *)
Definition show_Z (z : Z) : string := NilZero.string_of_int (Z.to_int z).

(** [formatDuration]; [ms] is a difference of clock readings, a whole
    number of milliseconds.  [Math.floor] rounds down and [%] truncates,
    as [Z.div] and [Z.rem] do; below [2^53] the doubles of the code are
    these whole numbers (the quotient of a whole number by 1000 or by 60
    is at least a thousandth from the next whole number, more than the
    rounding of a double below [2^44] can bridge). *)
Definition formatDuration (ms : Z) : string :=
  let seconds := ms / 1000 in
  if seconds <? 60 then (show_Z seconds ++ "s")%string
  else
    let minutes := seconds / 60 in
    let remainingSeconds := Z.rem seconds 60 in
    (show_Z minutes ++ "m " ++ show_Z remainingSeconds ++ "s")%string.

(** [stages.filter(s => s.status === 'complete').length]. *)
Definition completedCount (stages : list PipelineStage) : nat :=
  List.length (filter (fun s => status_eqb (status s) StComplete) stages).

(** [stages.find(s => s.status === 'running')]. *)
Definition runningStage (stages : list PipelineStage)
  : option PipelineStage :=
  find (fun s => status_eqb (status s) StRunning) stages.

(** Truthiness of a number: [0] is falsy. *)
Definition truthy_number (z : Z) : bool := negb (z =? 0).

(** The effect of [StageCard]: the value it passes to [setElapsedTime]
    when the clock reads [dateNow] ([None] when it makes no call and the
    value shown stays what it was).  A running stage is timed from its
    start to now, a complete stage from its start to its end. *)
Definition elapsedTime (dateNow : Z) (stage : PipelineStage) : option Z :=
  match status stage, startTime stage, endTime stage with
  | StRunning, Some b, _ =>
      if truthy_number b then Some (dateNow - b) else None
  | StComplete, Some b, Some e =>
      if (truthy_number b && truthy_number e)%bool then Some (e - b)
      else None
  | _, _, _ => None
  end.

(** The value the interval of [AnalysisPipelineView] passes to
    [setTotalElapsed] when the clock reads [dateNow]. *)
Definition totalElapsed (dateNow startTime : Z) : Z := dateNow - startTime.

End PipelineView.

(** The position of the first running stage in a view. *)
Fixpoint first_running (v : list (string * PipelineStageStatus))
  : option nat :=
  match v with
  | [] => None
  | x :: t => if status_eqb (snd x) StRunning then Some O
              else option_map S (first_running t)
  end.

Definition count_complete (v : list (string * PipelineStageStatus)) : nat :=
  List.length (filter (fun x => status_eqb (snd x) StComplete) v).

(** ** The history and the record on display ([App.tsx]) *)

(** [analysisToDisplay]; an id is the instant it renders, never empty. *)
Definition analysisToDisplay (s : Store) : option HistoricalAnalysis :=
  match selectedAnalysisId s with
  | None => None
  | Some i => find (fun h => Z.eqb (ha_id h) i) (analysisHistory s)
  end.

(** [Partial<HistoricalAnalysis>]: a field is [Some] exactly when the
    object has the key. *)
Record HistoryUpdates := mkHU {
  hu_id : option Z;
  hu_date : option Z;
  hu_sitemapUrl : option string;
  hu_competitorSitemaps : option (list string);
  hu_sitewideAnalysis : option SitewideAnalysis;
  hu_analysis : option SeoAnalysisResult;
  hu_sources : option (list GroundingSource);
  hu_analysisType : option string;
  hu_location : option string;
  hu_actionPlan : option (list DailyActionPlan);
  hu_executiveSummary : option ExecutiveSummary
}.

Definition pick {A} (o : option A) (a : A) : A :=
  match o with Some v => v | None => a end.

(** [{ ...h, ...updatedAnalysis }]. *)
Definition merge_history (h : HistoricalAnalysis) (u : HistoryUpdates)
  : HistoricalAnalysis :=
  mkHistory (pick (hu_id u) (ha_id h)) (pick (hu_date u) (ha_date h))
    (pick (hu_sitemapUrl u) (ha_sitemapUrl h))
    (pick (hu_competitorSitemaps u) (ha_competitorSitemaps h))
    (pick (hu_sitewideAnalysis u) (ha_sitewideAnalysis h))
    (pick (hu_analysis u) (ha_analysis h))
    (pick (hu_sources u) (ha_sources h))
    (pick (hu_analysisType u) (ha_analysisType h))
    (pick (hu_location u) (ha_location h))
    (pick (hu_actionPlan u) (ha_actionPlan h))
    (pick (hu_executiveSummary u) (ha_executiveSummary h)).

(** [updateAnalysisInHistory]; the [setItem] inside the updater may
    throw, which is caught. *)
Definition updateAnalysisInHistory (id : Z) (updatedAnalysis : HistoryUpdates)
    (storageOk : bool) (s : Store) : Store :=
  let updated :=
    map (fun h => if Z.eqb (ha_id h) id
                  then merge_history h updatedAnalysis else h)
        (analysisHistory s) in
  let s := if storageOk then set_storedHistory (Value updated) s else s in
  set_analysisHistory updated s.

(** The [onSelect] handler of the history panel. *)
Definition onSelect (id : Z) (s : Store) : Store :=
  if has (aiConfig s) then
    let s := set_selectedAnalysisId (Some id) s in
    let s := set_appState Results s in
    set_error None s
  else set_appState ConfigureAi s.

(** The action plan as [handleToggleTaskComplete] reads it: days with
    their action items, of which it uses [id] and [completed]; what else
    a day or an item holds is carried along. *)
Record ActionItem := mkAction {
  action_id : string;
  completed : bool;
  action_rest : string
}.

Record PlanDay := mkDay {
  actions : list ActionItem;
  day_rest : string
}.

(** [newActionPlan] of [handleToggleTaskComplete]. *)
Definition newActionPlan (actionItemId : string) (actionPlan : list PlanDay)
  : list PlanDay :=
  map (fun day =>
         mkDay (map (fun action =>
                       if String.eqb (action_id action) actionItemId
                       then mkAction (action_id action)
                              (negb (completed action)) (action_rest action)
                       else action)
                    (actions day))
               (day_rest day))
      actionPlan.

(** At most ten records, for what a storage key holds. *)
Definition at_most_ten (h : Item (list HistoricalAnalysis)) : Prop :=
  match h with
  | Value l => (List.length l <= 10)%nat
  | _ => True
  end.

Definition history_bounded (s : Store) : Prop :=
  (List.length (analysisHistory s) <= 10)%nat /\
  at_most_ten (storedHistory s).

(** The analysis batch is bounded. *)
Definition analyzed_bounded (x : PartialResults) : Prop :=
  forall n, pr_urlsAnalyzed x = Some n -> (n <= MAX_URLS_FOR_ANALYSIS)%nat.

(** A history of two records and a plan of two days, for the examples. *)
Definition two_records : list HistoricalAnalysis :=
  [mkHistory 2 2 "https://example.com" [] "sitewide" "pages" []
     "global" "here" ["day 1"; "day 2"] "summary";
   mkHistory 1 1 "https://example.org" [] "sitewide" "pages" []
     "local" "there" [] "summary"]%string.

Definition two_days : list PlanDay :=
  [mkDay [mkAction "a1" false "fix titles"; mkAction "a2" true "add links"]
     "day 1";
   mkDay [mkAction "a3" false "write content"] "day 2"]%string.

(** ** Stages served from the cache *)

(** The stages a cache hit completes without running them. *)
Definition served_from_cache (stageId : string) : bool :=
  existsb (String.eqb stageId)
    ["rank"; "competitor"; "technical"; "content"]%string.

(** The awaits before the cache decision and on the cache-hit path. *)
Definition on_hit_path (ph : Phase) : bool :=
  match ph with
  | PhCrawl | PhCacheGet | PhHitPlan | PhHitSummary => true
  | _ => false
  end.

Definition no_start (st : PipelineStage) : Prop :=
  served_from_cache (stage_id st) = true -> startTime st = None.

Definition hit_inv (ph : Phase) (s : Store) : Prop :=
  on_hit_path ph = true -> Forall no_start (pipelineStages s).

(** ** Time stamps of the activity log *)

Fixpoint nondecreasing (l : list Z) : Prop :=
  match l with
  | a :: t => (match t with b :: _ => a <= b | [] => True end) /\
              nondecreasing t
  | [] => True
  end.

(** The time stamps of the log never decrease along it, and none is later
    than the [n]-th reading of the clock. *)
Definition log_ordered (env : Env) (n : nat) (log : list ActivityLogEntry)
  : Prop :=
  nondecreasing (map timestamp log) /\
  Forall (fun e => timestamp e <= now env n) log.

(** ** Partial results and the record *)

(** What the accumulator holds of the results a run has received, by
    where the run is; once the run has returned normally, it holds the
    four results of the record the run has made. *)
Definition results_agree (p : Pc) (s : Store) : Prop :=
  let x := partialResults s in
  match p with
  | AwaitCrawl => True
  | AwaitCacheGet urls => pr_urlsDiscovered x = Some (List.length urls)
  | AwaitFanout _ _ => pr_urlsDiscovered x <> None
  | AwaitHitPlan c =>
      pr_urlsDiscovered x <> None /\
      pr_sitewideAnalysis x = Some (sitewide c) /\
      pr_seoAnalysis x = Some (seo c)
  | AwaitHitSummary c plan =>
      pr_urlsDiscovered x <> None /\
      pr_sitewideAnalysis x = Some (sitewide c) /\
      pr_seoAnalysis x = Some (seo c) /\
      pr_actionPlan x = Some plan
  | AwaitCacheSet sw an _ | AwaitPlan sw an _ =>
      pr_urlsDiscovered x <> None /\
      pr_sitewideAnalysis x = Some sw /\ pr_seoAnalysis x = Some an
  | AwaitSummary sw an _ plan =>
      pr_urlsDiscovered x <> None /\
      pr_sitewideAnalysis x = Some sw /\ pr_seoAnalysis x = Some an /\
      pr_actionPlan x = Some plan
  | Returned _ true =>
      exists record,
        hd_error (analysisHistory s) = Some record /\
        pr_urlsDiscovered x <> None /\
        pr_sitewideAnalysis x = Some (ha_sitewideAnalysis record) /\
        pr_seoAnalysis x = Some (ha_analysis record) /\
        pr_actionPlan x = Some (ha_actionPlan record) /\
        pr_executiveSummary x = Some (ha_executiveSummary record)
  | Returned _ false => True
  end.

(** ** Rendering

    [renderContent] changes the state in one case: in the ['results'] state
    with no record to display or no configuration it calls
    [handleNewAnalysis] before it shows the wizard.  React renders after
    every handler and after every piece of a run. *)
Definition renderContent (env : Env) (s : Store) : Store :=
  match appState s with
  | Results =>
      if (has (analysisToDisplay s) && has (aiConfig s))%bool then s
      else handleNewAnalysis env s
  | _ => s
  end.

Definition rendered (env : Env) (a : App) : App :=
  mkApp (renderContent env (store a)) (runs a).

(** A step of the application and the render that follows it. *)
Definition step_rendered (env : Env) (a : App) (e : Event) : App :=
  rendered env (step env a e).

Definition exec_rendered (env : Env) (a : App) (evs : list Event) : App :=
  fold_left (step_rendered env) evs a.

(** The state shows a record whenever it shows results, and a
    configuration is set: the render is at rest. *)
Definition displayable (s : Store) : Prop :=
  aiConfig s <> None /\
  (appState s = Results -> analysisToDisplay s <> None).

(** ** The history while a run is in flight *)

(** A second submission, for another site. *)
Definition d1 : WizardSubmitData :=
  mkWizard "https://example.org/sitemap.xml" "https://example.org"
    EmptyString "global" EmptyString.

(** The events of a run served from the cache, up to the await of the
    summary. *)
Definition cached_run_prefix : list RunEvent :=
  [CrawlResolved ["https://example.com/a"; "https://example.com/b"]%string;
   CacheGetResolved (Some (mkCached "sitewide"%string "pages"%string));
   PlanResolved ["day 1"%string]].

(** A session that starts with two records in the history: the user
    starts an analysis and, while the action plan is being made, clears
    the history; the run is now about to receive its summary. *)
Definition cleared_during_run : App :=
  exec env0 (mount env0 (Value two_records) (Value "cfg"%string))
    [EvNewAnalysis; EvSubmit d0;
     EvRun 0 (CrawlResolved
                ["https://example.com/a"; "https://example.com/b"]%string);
     EvRun 0 (CacheGetResolved
                (Some (mkCached "sitewide"%string "pages"%string)));
     EvClearHistory;
     EvRun 0 (PlanResolved ["day 1"%string])].

(** Two runs in flight: the first is cancelled, which does not stop it,
    and a second one is submitted and finishes first. *)
Definition second_finished_first : App :=
  exec env0 app0
    ([EvSubmit d0; EvCancel; EvSubmit d1]
     ++ map (EvRun 1) cached_run_events
     ++ map (EvRun 0) cached_run_prefix).

(** * Proofs *)

(** ** Lists of runs *)

Lemma nth_error_set_nth {A} (l : list A) i x y :
  nth_error l i = Some y -> nth_error (set_nth i x l) i = Some x.
Proof.
  revert i; induction l as [|h t IH]; intros [|i] H; simpl in *;
    try discriminate; auto.
Qed.

Lemma set_nth_same {A} (l : list A) i x :
  nth_error l i = Some x -> set_nth i x l = l.
Proof.
  revert i; induction l as [|h t IH]; intros [|i] H; simpl in *;
    try discriminate; try reflexivity.
  - congruence.
  - f_equal; auto.
Qed.

Lemma set_nth_twice {A} (l : list A) i x y :
  set_nth i y (set_nth i x l) = set_nth i y l.
Proof.
  revert i; induction l as [|h t IH]; intros [|i]; simpl; try reflexivity.
  f_equal; auto.
Qed.

Lemma nth_error_last {A} (l : list A) x :
  nth_error (l ++ [x]) (List.length l) = Some x.
Proof. induction l; simpl; auto. Qed.

(** ** A proof rule for stage invariants

    A property of stages that is kept by each of the updates the
    orchestrator ever applies to a stage holds in every reachable state. *)

Section StageRule.

Variable env : Env.
Variable P : nat -> PipelineStage -> Prop.

Hypothesis P_tick : forall n st, P n st -> P (S n) st.
Hypothesis P_pending : forall n d, P n (pending_stage d).
Hypothesis P_running : forall n st task,
    P n st -> P (S n) (merge_updates st (upd_running task (now env n))).
Hypothesis P_complete : forall n st,
    P n st -> P (S n) (merge_updates st (upd_complete (now env n))).
Hypothesis P_task : forall n st msg,
    P n st -> P n (merge_updates st (upd_task msg)).
Hypothesis P_progress : forall n st q p,
    P n st -> P n (merge_updates st (upd_crawl_progress q p)).
Hypothesis P_fail : forall n st, P n st -> P n (fail_running st).

Lemma ok_frame s s' :
  stages_satisfy P s ->
  clock s' = clock s ->
  pipelineStages s' = pipelineStages s ->
  stages_satisfy P s'.
Proof. unfold stages_satisfy; intros H -> ->; exact H. Qed.

Lemma ok_tick s :
  stages_satisfy P s ->
  stages_satisfy P (set_clock (S (clock s)) s).
Proof.
  unfold stages_satisfy; cbn. intros H.
  eapply Forall_impl; [|exact H]. intros; now apply P_tick.
Qed.

Lemma ok_addLog m ty sg s :
  stages_satisfy P s ->
  stages_satisfy P (addLog env m ty sg s).
Proof.
  intros H. apply (ok_frame (set_clock (S (clock s)) s));
    [now apply ok_tick | reflexivity | reflexivity].
Qed.

Lemma ok_updateStage id u s :
  (forall st, P (clock s) st -> P (clock s) (merge_updates st u)) ->
  stages_satisfy P s -> stages_satisfy P (updateStage id u s).
Proof.
  unfold stages_satisfy, updateStage; cbn. intros Hu H.
  apply Forall_map. eapply Forall_impl; [|exact H]. cbn; intros st Hst.
  destruct (String.eqb (stage_id st) id); auto.
Qed.

Lemma ok_updateStageNow id u s :
  (forall st, P (clock s) st ->
              P (S (clock s)) (merge_updates st (u (now env (clock s))))) ->
  stages_satisfy P s -> stages_satisfy P (updateStageNow env id u s).
Proof.
  unfold stages_satisfy, updateStageNow, updateStage; cbn. intros Hu H.
  apply Forall_map. eapply Forall_impl; [|exact H]. cbn; intros st Hst.
  destruct (String.eqb (stage_id st) id); auto.
Qed.

Lemma ok_running id task s :
  stages_satisfy P s ->
  stages_satisfy P (updateStageNow env id (upd_running task) s).
Proof. intros; apply ok_updateStageNow; auto. Qed.

Lemma ok_complete id s :
  stages_satisfy P s ->
  stages_satisfy P (updateStageNow env id upd_complete s).
Proof. intros; apply ok_updateStageNow; auto. Qed.

Lemma ok_task id msg s :
  stages_satisfy P s ->
  stages_satisfy P (updateStage id (upd_task msg) s).
Proof. intros; apply ok_updateStage; auto. Qed.

Lemma ok_markRunningAsError s :
  stages_satisfy P s ->
  stages_satisfy P (markRunningAsError s).
Proof.
  unfold stages_satisfy, markRunningAsError; cbn. intros H.
  apply Forall_map. eapply Forall_impl; [|exact H]. auto.
Qed.

Lemma ok_initial n : Forall (P n) initial_stages.
Proof. unfold initial_stages. apply Forall_map, Forall_forall. auto. Qed.

Lemma ok_resetPipeline s : stages_satisfy P (resetPipeline env s).
Proof. unfold stages_satisfy; cbn. apply ok_initial. Qed.

Lemma ok_set_error v s :
  stages_satisfy P s -> stages_satisfy P (set_error v s).
Proof. exact (fun H => H). Qed.

Lemma ok_set_analysisHistory v s :
  stages_satisfy P s -> stages_satisfy P (set_analysisHistory v s).
Proof. exact (fun H => H). Qed.

Lemma ok_set_selectedAnalysisId v s :
  stages_satisfy P s -> stages_satisfy P (set_selectedAnalysisId v s).
Proof. exact (fun H => H). Qed.

Lemma ok_set_appState v s :
  stages_satisfy P s -> stages_satisfy P (set_appState v s).
Proof. exact (fun H => H). Qed.

Lemma ok_set_loadingPhase v s :
  stages_satisfy P s -> stages_satisfy P (set_loadingPhase v s).
Proof. exact (fun H => H). Qed.

Lemma ok_set_crawlProgress v s :
  stages_satisfy P s -> stages_satisfy P (set_crawlProgress v s).
Proof. exact (fun H => H). Qed.

Lemma ok_set_activityLog v s :
  stages_satisfy P s -> stages_satisfy P (set_activityLog v s).
Proof. exact (fun H => H). Qed.

Lemma ok_set_partialResults v s :
  stages_satisfy P s -> stages_satisfy P (set_partialResults v s).
Proof. exact (fun H => H). Qed.

Lemma ok_set_analysisStartTime v s :
  stages_satisfy P s -> stages_satisfy P (set_analysisStartTime v s).
Proof. exact (fun H => H). Qed.

Lemma ok_set_aiConfig v s :
  stages_satisfy P s -> stages_satisfy P (set_aiConfig v s).
Proof. exact (fun H => H). Qed.

Lemma ok_set_isCancelling v s :
  stages_satisfy P s -> stages_satisfy P (set_isCancelling v s).
Proof. exact (fun H => H). Qed.

Lemma ok_set_abortController v s :
  stages_satisfy P s -> stages_satisfy P (set_abortController v s).
Proof. exact (fun H => H). Qed.

Lemma ok_set_storedHistory v s :
  stages_satisfy P s -> stages_satisfy P (set_storedHistory v s).
Proof. exact (fun H => H). Qed.

Lemma ok_set_storedConfig v s :
  stages_satisfy P s -> stages_satisfy P (set_storedConfig v s).
Proof. exact (fun H => H). Qed.

Lemma ok_set_partialResultsWrites v s :
  stages_satisfy P s -> stages_satisfy P (set_partialResultsWrites v s).
Proof. exact (fun H => H). Qed.

Lemma ok_mergePartialResults o s :
  stages_satisfy P s -> stages_satisfy P (mergePartialResults o s).
Proof. exact (fun H => H). Qed.

Lemma ok_setPartialResults o s :
  stages_satisfy P s -> stages_satisfy P (setPartialResults o s).
Proof. exact (fun H => H). Qed.

Lemma ok_record_history r h b s :
  stages_satisfy P s -> stages_satisfy P (record_history r h b s).
Proof. destruct b; exact (fun H => H). Qed.

(** One backward step through a piece of a handler; the cases are told
    apart by the head of the store expression. *)
Ltac ok_step :=
  lazymatch goal with
  | |- stages_satisfy _ (resetPipeline _ _) => apply ok_resetPipeline
  | |- stages_satisfy _ (addLog _ _ _ _ _) => apply ok_addLog
  | |- stages_satisfy _ (updateStageNow _ _ (upd_running _) _) =>
      apply ok_running
  | |- stages_satisfy _ (updateStageNow _ _ upd_complete _) =>
      apply ok_complete
  | |- stages_satisfy _ (updateStage _ (upd_task _) _) => apply ok_task
  | |- stages_satisfy _ (updateStage _ (upd_crawl_progress _ _) _) =>
      apply ok_updateStage; [intros; apply P_progress; assumption|]
  | |- stages_satisfy _ (markRunningAsError _) =>
      apply ok_markRunningAsError
  | |- stages_satisfy _ (set_clock (S (clock _)) _) => apply ok_tick
  | |- stages_satisfy _ (mergePartialResults _ _) =>
      apply ok_mergePartialResults
  | |- stages_satisfy _ (setPartialResults _ _) =>
      apply ok_setPartialResults
  | |- stages_satisfy _ (record_history _ _ _ _) =>
      apply ok_record_history
  | |- stages_satisfy _ (set_error _ _) =>
      apply ok_set_error
  | |- stages_satisfy _ (set_analysisHistory _ _) =>
      apply ok_set_analysisHistory
  | |- stages_satisfy _ (set_selectedAnalysisId _ _) =>
      apply ok_set_selectedAnalysisId
  | |- stages_satisfy _ (set_appState _ _) =>
      apply ok_set_appState
  | |- stages_satisfy _ (set_loadingPhase _ _) =>
      apply ok_set_loadingPhase
  | |- stages_satisfy _ (set_crawlProgress _ _) =>
      apply ok_set_crawlProgress
  | |- stages_satisfy _ (set_activityLog _ _) =>
      apply ok_set_activityLog
  | |- stages_satisfy _ (set_partialResults _ _) =>
      apply ok_set_partialResults
  | |- stages_satisfy _ (set_analysisStartTime _ _) =>
      apply ok_set_analysisStartTime
  | |- stages_satisfy _ (set_aiConfig _ _) =>
      apply ok_set_aiConfig
  | |- stages_satisfy _ (set_isCancelling _ _) =>
      apply ok_set_isCancelling
  | |- stages_satisfy _ (set_abortController _ _) =>
      apply ok_set_abortController
  | |- stages_satisfy _ (set_storedHistory _ _) =>
      apply ok_set_storedHistory
  | |- stages_satisfy _ (set_storedConfig _ _) =>
      apply ok_set_storedConfig
  | |- stages_satisfy _ (set_partialResultsWrites _ _) =>
      apply ok_set_partialResultsWrites
  | |- stages_satisfy _ (store ?a) => is_var a; assumption
  | |- stages_satisfy _ ?s => is_var s; assumption
  end.

Ltac ok_chain := repeat ok_step.

Lemma ok_catch_handler r e s :
  stages_satisfy P s ->
  stages_satisfy P (catch_handler env r e s).
Proof.
  intros H. unfold catch_handler. destruct (c_isCancelling r); [exact H|].
  cbv zeta. ok_chain.
Qed.

Lemma ok_handleNewAnalysis s : stages_satisfy P (handleNewAnalysis env s).
Proof. unfold handleNewAnalysis. cbv zeta. ok_chain. Qed.

Lemma ok_handleCancelAnalysis s : stages_satisfy P (handleCancelAnalysis env s).
Proof. unfold handleCancelAnalysis. cbv zeta. ok_chain. Qed.

Lemma ok_handleSubmit d s :
  stages_satisfy P s ->
  stages_satisfy P (fst (handleSubmit env d s)).
Proof.
  intros H. unfold handleSubmit.
  destruct (negb _); [cbn [fst]; ok_chain|].
  destruct (aiConfig s); [|cbn [fst]; ok_chain].
  destruct (parseURL env _); [|cbn [fst]; ok_chain].
  cbv zeta. unfold dateNow at 1. cbn [fst]. ok_chain.
Qed.

Ltac ok_block := cbv zeta; unfold dateNow; cbv beta iota zeta; cbn [fst];
                 ok_chain.

Lemma ok_on_crawl_progress p s :
  stages_satisfy P s -> stages_satisfy P (on_crawl_progress p s).
Proof. intros H. unfold on_crawl_progress. ok_block. Qed.

Lemma ok_on_audit_progress m s :
  stages_satisfy P s -> stages_satisfy P (on_audit_progress env m s).
Proof.
  intros H. unfold on_audit_progress.
  destruct (JS.includes _ _); ok_block.
Qed.

Lemma ok_on_seo_progress m s :
  stages_satisfy P s -> stages_satisfy P (on_seo_progress env m s).
Proof. intros H. unfold on_seo_progress. ok_block. Qed.

Lemma ok_on_plan_progress m s :
  stages_satisfy P s -> stages_satisfy P (on_plan_progress env m s).
Proof. intros H. unfold on_plan_progress. ok_block. Qed.

Lemma ok_after_crawl r urls s :
  stages_satisfy P s -> stages_satisfy P (fst (after_crawl env r urls s)).
Proof.
  intros H. unfold after_crawl. destruct (Nat.eqb _ _).
  - cbv zeta; cbn [fst]. apply ok_catch_handler. ok_chain.
  - ok_block.
Qed.

Lemma ok_after_cache_hit r urls c s :
  stages_satisfy P s ->
  stages_satisfy P (fst (after_cache_hit env r urls c s)).
Proof. intros H. unfold after_cache_hit. cbn [fold_left]. ok_block. Qed.

Lemma ok_after_cache_miss r urls s :
  stages_satisfy P s ->
  stages_satisfy P (fst (after_cache_miss env r urls s)).
Proof. intros H. unfold after_cache_miss. ok_block. Qed.

Lemma ok_after_fanout r sw an src s :
  stages_satisfy P s ->
  stages_satisfy P (fst (after_fanout env r sw an src s)).
Proof. intros H. unfold after_fanout. ok_block. Qed.

Lemma ok_after_cache_set r sw an src s :
  stages_satisfy P s ->
  stages_satisfy P (fst (after_cache_set env r sw an src s)).
Proof. intros H. unfold after_cache_set. ok_block. Qed.

Lemma ok_after_plan r sw an src plan s :
  stages_satisfy P s ->
  stages_satisfy P (fst (after_plan env r sw an src plan s)).
Proof. intros H. unfold after_plan. ok_block. Qed.

Lemma ok_after_summary r sw an src plan sum b s :
  stages_satisfy P s ->
  stages_satisfy P (fst (after_summary env r sw an src plan sum b s)).
Proof. intros H. unfold after_summary. ok_block. Qed.

Lemma ok_after_hit_plan r c plan s :
  stages_satisfy P s ->
  stages_satisfy P (fst (after_hit_plan env r c plan s)).
Proof. intros H. unfold after_hit_plan. ok_block. Qed.

Lemma ok_after_hit_summary r c plan sum b s :
  stages_satisfy P s ->
  stages_satisfy P (fst (after_hit_summary env r c plan sum b s)).
Proof. intros H. unfold after_hit_summary. ok_block. Qed.

Lemma ok_resume r e s :
  stages_satisfy P s -> stages_satisfy P (fst (resume env r e s)).
Proof.
  intros H. unfold resume.
  destruct e as [p|m|m|m|urls|[c|]|sw|an src| |plan|sum b|e];
    destruct (pc r) as [|urls'|c'|c' plan'|[sw'|] [[an' src']|]
                       |sw' an' src'|sw' an' src'|sw' an' src' plan'
                       |last b'];
    cbn [phase_of fanout_issued plan_issued fst];
    try exact H;
    try (destruct (fanout_issued last); cbn [fst]);
    try (destruct (plan_issued last); cbn [fst]);
    try exact H;
    lazymatch goal with
    | |- stages_satisfy _ (on_crawl_progress _ _) =>
        apply ok_on_crawl_progress
    | |- stages_satisfy _ (on_audit_progress _ _ _) =>
        apply ok_on_audit_progress
    | |- stages_satisfy _ (on_seo_progress _ _ _) =>
        apply ok_on_seo_progress
    | |- stages_satisfy _ (on_plan_progress _ _ _) =>
        apply ok_on_plan_progress
    | |- stages_satisfy _ (catch_handler _ _ _ _) => apply ok_catch_handler
    | |- stages_satisfy _ (fst (after_crawl _ _ _ _)) =>
        apply ok_after_crawl
    | |- stages_satisfy _ (fst (after_cache_hit _ _ _ _ _)) =>
        apply ok_after_cache_hit
    | |- stages_satisfy _ (fst (after_cache_miss _ _ _ _)) =>
        apply ok_after_cache_miss
    | |- stages_satisfy _ (fst (after_fanout _ _ _ _ _ _)) =>
        apply ok_after_fanout
    | |- stages_satisfy _ (fst (after_cache_set _ _ _ _ _ _)) =>
        apply ok_after_cache_set
    | |- stages_satisfy _ (fst (after_plan _ _ _ _ _ _ _)) =>
        apply ok_after_plan
    | |- stages_satisfy _ (fst (after_summary _ _ _ _ _ _ _ _ _)) =>
        apply ok_after_summary
    | |- stages_satisfy _ (fst (after_hit_plan _ _ _ _ _)) =>
        apply ok_after_hit_plan
    | |- stages_satisfy _ (fst (after_hit_summary _ _ _ _ _ _ _)) =>
        apply ok_after_hit_summary
    end;
    exact H.
Qed.

Lemma ok_step_app a e :
  stages_satisfy P (store a) -> stages_satisfy P (store (step env a e)).
Proof.
  intros H. destruct e as [d| | | |c b| |i ev]; cbn [step].
  - pose proof (ok_handleSubmit d _ H) as H'.
    destruct (handleSubmit env d (store a)) as [s [r|]]; exact H'.
  - apply ok_handleCancelAnalysis.
  - apply ok_handleNewAnalysis.
  - apply ok_handleNewAnalysis.
  - cbn [store]. unfold handleAiConfigChange. destruct b; ok_block.
  - cbn [store]. unfold handleAiSettingsChange. ok_block.
  - destruct (nth_error (runs a) i) as [r|]; [|exact H].
    pose proof (ok_resume r ev _ H) as H'.
    destruct (resume env r ev (store a)); exact H'.
Qed.

Lemma ok_exec evs : forall a,
  stages_satisfy P (store a) -> stages_satisfy P (store (exec env a evs)).
Proof.
  induction evs as [|e evs IH]; intros a H; [exact H|].
  apply IH, ok_step_app, H.
Qed.

Lemma ok_mountEffect s :
  stages_satisfy P s -> stages_satisfy P (mountEffect s).
Proof.
  intros H. unfold mountEffect.
  destruct (storedConfig s) as [|cfg|]; cbv zeta;
    repeat match goal with
           | |- context [match storedHistory ?x with _ => _ end] =>
               destruct (storedHistory x) as [|[|h0 hs]|]
           end;
    ok_chain.
Qed.

Lemma ok_mount h c : stages_satisfy P (store (mount env h c)).
Proof. apply ok_mountEffect, ok_initial. Qed.

(** The rule itself. *)
Lemma stage_rule a :
  reachable env a -> stages_satisfy P (store a).
Proof. intros (h & c & evs & ->). apply ok_exec, ok_mount. Qed.

End StageRule.

(** ** Stage invariants *)

Lemma not_skipped_fail n st :
  not_skipped n st ->
  not_skipped n (fail_running st).
Proof.
  unfold not_skipped, fail_running.
  destruct (status_eqb (status st) StRunning); cbn; congruence.
Qed.

Lemma status_eqb_eq a b : status_eqb a b = true -> a = b.
Proof. destruct a, b; cbn; congruence. Qed.

Section Timing.

Variable env : Env.
Hypothesis mono : monotone_clock env.

Lemma timed_tick n st : stage_timed env n st -> stage_timed env (S n) st.
Proof.
  intros (T & Hs & He). split; [exact T|].
  assert (now env n <= now env (S n)) by (apply mono; lia).
  split; intros t Ht; [specialize (Hs t Ht) | specialize (He t Ht)]; lia.
Qed.

Lemma timed_pending n d : stage_timed env n (pending_stage d).
Proof.
  destruct d as [[i nm] de]. repeat split; cbn; try discriminate.
  intros [|]; discriminate.
Qed.

Lemma timed_running n st task :
  stage_timed env n st ->
  stage_timed env (S n) (merge_updates st (upd_running task (now env n))).
Proof.
  intros (T & Hs & He).
  assert (now env n <= now env (S n)) by (apply mono; lia).
  repeat split; cbn.
  - discriminate.
  - discriminate.
  - intros t [= <-]. assumption.
  - intros t Ht. specialize (He t Ht). lia.
Qed.

Lemma timed_complete n st :
  stage_timed env n st ->
  stage_timed env (S n) (merge_updates st (upd_complete (now env n))).
Proof.
  intros (T & Hs & He).
  assert (now env n <= now env (S n)) by (apply mono; lia).
  repeat split; cbn.
  - intros [|]; discriminate.
  - intros _. exists (now env n). split; [reflexivity|]. exact Hs.
  - intros t Ht. specialize (Hs t Ht). lia.
  - intros t [= <-]. assumption.
Qed.

Lemma timed_quiet n st u :
  u_status u = None -> u_startTime u = None -> u_endTime u = None ->
  stage_timed env n st -> stage_timed env n (merge_updates st u).
Proof.
  intros E1 E2 E3 H. unfold stage_timed, stage_timing, merge_updates.
  cbn. rewrite E1, E2, E3. exact H.
Qed.

Lemma timed_fail n st :
  stage_timed env n st -> stage_timed env n (fail_running st).
Proof.
  intros H. unfold fail_running.
  destruct (status_eqb (status st) StRunning) eqn:E; [|exact H].
  apply status_eqb_eq in E. destruct H as ((Tr & Tc) & Hs & He).
  repeat split; cbn; try assumption.
  - intros _. apply Tr. left; exact E.
  - discriminate.
Qed.

Lemma reachable_timed a :
  reachable env a -> stages_satisfy (stage_timed env) (store a).
Proof.
  apply stage_rule.
  - apply timed_tick.
  - apply timed_pending.
  - apply timed_running.
  - apply timed_complete.
  - intros; apply timed_quiet; auto.
  - intros; apply timed_quiet; auto.
  - apply timed_fail.
Qed.

End Timing.

(** C2, as stated, fails: when the crawl promise rejects, the [catch] of
    [handleSubmit] marks the running crawl stage [error] and sets no
    [endTime]. *)
Lemma C2_error_stage_has_no_endTime :
  ~ (forall a st, reachable env0 a -> In st (pipelineStages (store a)) ->
                  stage_timing_claim st).
Proof.
  intros H.
  destruct (H crawl_rejected_app crawl_rejected_stage) as [_ H2].
  - exists Missing, (Value "cfg"%string), crawl_rejected_trace. reflexivity.
  - vm_compute. left. reflexivity.
  - destruct H2 as (e & He & _); [right; reflexivity|].
    vm_compute in He. discriminate He.
Qed.

(** C2, amended: with a clock that never goes back, in every reachable
    state each stage that is [running] or [error] has a [startTime], and
    each stage that is [complete] has an [endTime], at or after its
    [startTime] when it has one.  (Stages put in [error] by the failure
    handler get no [endTime]; the four stages completed on a cache hit get
    no [startTime].) *)
Theorem C2_stage_timing_invariant (env : Env) (a : App) (st : PipelineStage) :
  monotone_clock env ->
  reachable env a ->
  In st (pipelineStages (store a)) ->
  stage_timing st.
Proof.
  intros mono Hr Hin.
  pose proof (reachable_timed env mono a Hr) as H.
  unfold stages_satisfy in H. rewrite Forall_forall in H.
  exact (proj1 (H st Hin)).
Qed.

Lemma C2_stage_timing_invariant_witness : stage_timing crawl_rejected_stage.
Proof.
  apply (C2_stage_timing_invariant env0 crawl_rejected_app).
  - intros i j H; cbn; lia.
  - exists Missing, (Value "cfg"%string), crawl_rejected_trace. reflexivity.
  - vm_compute. left. reflexivity.
Defined.

(** C9: no operation of the orchestrator assigns ['skipped']; in every
    reachable state every stage has a status other than ['skipped'], that
    is, one of pending, running, complete, error. *)
Theorem C9_no_stage_is_ever_skipped (env : Env) (a : App) (st : PipelineStage) :
  reachable env a ->
  In st (pipelineStages (store a)) ->
  status st <> StSkipped /\
  (status st = StPending \/ status st = StRunning \/
   status st = StComplete \/ status st = StError).
Proof.
  intros Hr Hin.
  assert (H : stages_satisfy not_skipped (store a)).
  { apply (stage_rule env); unfold not_skipped; cbn; auto; try discriminate.
    - intros n [[i nm] de]; cbn; discriminate.
    - apply not_skipped_fail. }
  unfold stages_satisfy in H. rewrite Forall_forall in H.
  specialize (H st Hin). unfold not_skipped in H.
  split; [exact H|]. destruct (status st); auto. congruence.
Qed.

Lemma C9_no_stage_is_ever_skipped_witness :
  status crawl_rejected_stage <> StSkipped /\
  (status crawl_rejected_stage = StPending \/
   status crawl_rejected_stage = StRunning \/
   status crawl_rejected_stage = StComplete \/
   status crawl_rejected_stage = StError).
Proof.
  apply (C9_no_stage_is_ever_skipped env0 crawl_rejected_app).
  - exists Missing, (Value "cfg"%string), crawl_rejected_trace. reflexivity.
  - vm_compute. left. reflexivity.
Defined.

(** ** Looking stages up *)

Lemma find_map_id (g : PipelineStage -> PipelineStage) id l :
  (forall st, stage_id (g st) = stage_id st) ->
  find (fun st => String.eqb (stage_id st) id) (map g l)
  = option_map g (find (fun st => String.eqb (stage_id st) id) l).
Proof.
  intros Hg. induction l as [|a l IH]; simpl; [reflexivity|].
  rewrite Hg. destruct (String.eqb (stage_id a) id); [reflexivity|exact IH].
Qed.

Lemma find_stage_updateStage id id' u s :
  find_stage id (updateStage id' u s)
  = option_map (fun st => if String.eqb id id' then merge_updates st u
                          else st)
      (find_stage id s).
Proof.
  unfold find_stage, updateStage. cbn [pipelineStages set_pipelineStages].
  induction (pipelineStages s) as [|a l IH]; simpl; [reflexivity|].
  destruct (String.eqb (stage_id a) id') eqn:E1; cbn [merge_updates stage_id];
    destruct (String.eqb (stage_id a) id) eqn:E2; try exact IH;
    apply String.eqb_eq in E2; subst id; rewrite E1; reflexivity.
Qed.

Lemma view_of_updated id u l :
  view_of (map (fun st => if String.eqb (stage_id st) id
                          then merge_updates st u else st) l)
  = map (upd_view id (u_status u)) (view_of l).
Proof.
  unfold view_of. rewrite !map_map. apply map_ext. intros st.
  unfold upd_view. cbn [fst snd].
  destruct (String.eqb (stage_id st) id); reflexivity.
Qed.

Lemma view_of_failed l :
  view_of (map fail_running l) = map fail_view (view_of l).
Proof.
  unfold view_of. rewrite !map_map. apply map_ext. intros st.
  unfold fail_view, fail_running. cbn [fst snd].
  destruct (status_eqb (status st) StRunning); reflexivity.
Qed.


(** ** Symbolic evaluation of a handler

    On a store given by its fields, a piece of a handler is evaluated down
    to the stage list and the clock it leaves, which are expressions over
    those fields. *)

Lemma find_map_upd id id' u l :
  find (fun st => String.eqb (stage_id st) id)
       (map (fun st => if String.eqb (stage_id st) id'
                       then merge_updates st u else st) l)
  = option_map (fun st => if String.eqb id id' then merge_updates st u
                          else st)
      (find (fun st => String.eqb (stage_id st) id) l).
Proof.
  induction l as [|a l IH]; simpl; [reflexivity|].
  destruct (String.eqb (stage_id a) id') eqn:E1; cbn [merge_updates stage_id];
    destruct (String.eqb (stage_id a) id) eqn:E2; try exact IH;
    apply String.eqb_eq in E2; subst id; rewrite E1; reflexivity.
Qed.

Lemma find_map_fail id l :
  find (fun st => String.eqb (stage_id st) id) (map fail_running l)
  = option_map fail_running (find (fun st => String.eqb (stage_id st) id) l).
Proof.
  apply find_map_id. intros st. unfold fail_running.
  destruct (status_eqb _ _); reflexivity.
Qed.



Ltac eval_store :=
  lazy beta iota zeta delta
    [after_crawl after_cache_hit after_cache_miss after_fanout
     after_cache_set after_plan after_summary after_hit_plan
     after_hit_summary catch_handler on_crawl_progress on_audit_progress
     on_seo_progress on_plan_progress record_history handleSubmit
     handleCancelAnalysis handleNewAnalysis
     updateStage updateStageNow addLog markRunningAsError resetPipeline
     mergePartialResults setPartialResults dateNow fold_left
     set_error set_analysisHistory set_selectedAnalysisId set_appState
     set_loadingPhase set_crawlProgress set_pipelineStages set_activityLog
     set_partialResults set_analysisStartTime set_aiConfig set_isCancelling
     set_abortController set_storedHistory set_storedConfig set_clock
     set_partialResultsWrites
     error_ analysisHistory selectedAnalysisId appState loadingPhase
     crawlProgress pipelineStages activityLog partialResults
     analysisStartTime aiConfig isCancelling abortController storedHistory
     storedConfig clock partialResultsWrites fst snd].



(** ** Rounding to binary64 *)

Module DoubleFacts.
Import Double.

Lemma p2_pos k : 0 < p2 k.
Proof. unfold p2. apply Z.pow_pos_nonneg; lia. Qed.

Lemma p2_nonneg_arg k : 0 <= k -> p2 k = 2 ^ k.
Proof. intros H. unfold p2. rewrite Z.max_r by lia. reflexivity. Qed.

Lemma p2_neg_arg k : k <= 0 -> p2 k = 1.
Proof. intros H. unfold p2. rewrite Z.max_l by lia. reflexivity. Qed.

(** [p2 k / p2 (- k)] is [2 ^ k], for [k] of either sign. *)
Lemma p2_shift k j :
  0 <= j ->
  p2 (k + j) * p2 (- k) = 2 ^ j * (p2 k * p2 (- (k + j))).
Proof.
  intros Hj.
  destruct (Z_le_gt_dec 0 k) as [Hk|Hk].
  - rewrite (p2_nonneg_arg (k + j)), (p2_nonneg_arg k) by lia.
    rewrite (p2_neg_arg (- k)), (p2_neg_arg (- (k + j))) by lia.
    rewrite Z.pow_add_r by lia. ring.
  - destruct (Z_le_gt_dec 0 (k + j)) as [Hkj|Hkj].
    + rewrite (p2_nonneg_arg (k + j)), (p2_neg_arg k) by lia.
      rewrite (p2_nonneg_arg (- k)), (p2_neg_arg (- (k + j))) by lia.
      rewrite <- Z.pow_add_r by lia. replace (k + j + - k) with j by lia.
      ring.
    + rewrite (p2_neg_arg (k + j)), (p2_neg_arg k) by lia.
      rewrite (p2_nonneg_arg (- k)), (p2_nonneg_arg (- (k + j))) by lia.
      rewrite !Z.mul_1_l, <- Z.pow_add_r by lia. f_equal. lia.
Qed.

Lemma round_half_even_bounds n d :
  0 < d ->
  2 * n - d <= 2 * (round_half_even n d * d) <= 2 * n + d.
Proof.
  intros Hd. unfold round_half_even.
  pose proof (Z.div_mod n d ltac:(lia)) as E.
  pose proof (Z.mod_pos_bound n d Hd) as B.
  destruct (Z.compare_spec (2 * (n mod d)) d) as [C|C|C];
    [destruct (Z.even (n / d))| |]; nia.
Qed.

Lemma round_half_even_le n d k :
  0 < d -> n <= k * d -> round_half_even n d <= k.
Proof.
  intros Hd H. unfold round_half_even.
  pose proof (Z.div_mod n d ltac:(lia)) as E.
  pose proof (Z.mod_pos_bound n d Hd) as B.
  assert (Hq : n / d <= k) by nia.
  destruct (Z.compare_spec (2 * (n mod d)) d) as [C|C|C];
    [destruct (Z.even (n / d))| |]; try lia;
    (assert (n / d <> k) by nia; lia).
Qed.

Lemma round_half_even_ge n d k :
  0 < d -> k * d <= n -> k <= round_half_even n d.
Proof.
  intros Hd H. unfold round_half_even.
  pose proof (Z.div_mod n d ltac:(lia)) as E.
  pose proof (Z.mod_pos_bound n d Hd) as B.
  assert (Hq : k <= n / d) by nia.
  destruct (Z.compare_spec (2 * (n mod d)) d) as [C|C|C];
    [destruct (Z.even (n / d))| |]; lia.
Qed.

(** The binade of [n / d]. *)
Lemma binade_spec n d :
  0 < n -> 0 < d ->
  d * p2 (binade n d) <= n * p2 (- binade n d) < 2 * (d * p2 (binade n d)).
Proof.
  intros Hn Hd. unfold binade.
  pose proof (Z.log2_spec n Hn) as Ln. pose proof (Z.log2_spec d Hd) as Ld.
  pose proof (Z.log2_nonneg n) as Nn. pose proof (Z.log2_nonneg d) as Nd.
  set (ln := Z.log2 n) in *. set (ld := Z.log2 d) in *.
  rewrite !Z.pow_succ_r in Ln, Ld by lia.
  assert (Pn : 0 < 2 ^ ln) by (apply Z.pow_pos_nonneg; lia).
  assert (Pd : 0 < 2 ^ ld) by (apply Z.pow_pos_nonneg; lia).
  destruct (Z.leb_spec (d * p2 (ln - ld)) (n * p2 (- (ln - ld)))) as [T|T].
  - split; [exact T|].
    destruct (Z_le_gt_dec ld ln) as [H|H].
    + rewrite (p2_nonneg_arg (ln - ld)), (p2_neg_arg (- (ln - ld))) by lia.
      assert (E : 2 ^ ln = 2 ^ ld * 2 ^ (ln - ld))
        by (rewrite <- Z.pow_add_r by lia; f_equal; lia).
      assert (0 < 2 ^ (ln - ld)) by (apply Z.pow_pos_nonneg; lia). nia.
    + rewrite (p2_neg_arg (ln - ld)), (p2_nonneg_arg (- (ln - ld))) by lia.
      assert (E : 2 ^ ld = 2 ^ ln * 2 ^ (- (ln - ld)))
        by (rewrite <- Z.pow_add_r by lia; f_equal; lia).
      assert (0 < 2 ^ (- (ln - ld))) by (apply Z.pow_pos_nonneg; lia). nia.
  - pose proof (p2_shift (ln - ld - 1) 1 ltac:(lia)) as S.
    replace (ln - ld - 1 + 1) with (ln - ld) in S by lia.
    change (2 ^ 1) with 2 in S.
    pose proof (p2_pos (ln - ld - 1)) as P1.
    pose proof (p2_pos (- (ln - ld - 1))) as P2.
    pose proof (p2_pos (ln - ld)) as P3.
    pose proof (p2_pos (- (ln - ld))) as P4.
    split.
    + destruct (Z_le_gt_dec (ld + 1) ln) as [H|H].
      * rewrite (p2_nonneg_arg (ln - ld - 1)),
          (p2_neg_arg (- (ln - ld - 1))) by lia.
        assert (E : 2 ^ ln = 2 * (2 ^ ld * 2 ^ (ln - ld - 1))).
        { rewrite <- Z.pow_add_r, <- Z.pow_succ_r by lia. f_equal. lia. }
        assert (0 < 2 ^ (ln - ld - 1)) by (apply Z.pow_pos_nonneg; lia).
        nia.
      * rewrite (p2_neg_arg (ln - ld - 1)),
          (p2_nonneg_arg (- (ln - ld - 1))) by lia.
        assert (E : 2 * 2 ^ ld = 2 ^ ln * 2 ^ (- (ln - ld - 1))).
        { rewrite <- Z.pow_add_r, <- Z.pow_succ_r by lia. f_equal. lia. }
        assert (0 < 2 ^ (- (ln - ld - 1))) by (apply Z.pow_pos_nonneg; lia).
        nia.
    + nia.
Qed.


(** The scaled fraction lies between [2^52] and [2^53]. *)
Lemma mantissa_range n d :
  0 < n -> 0 < d ->
  let s := binade n d - 52 in
  2 ^ 52 * (d * p2 s) <= n * p2 (- s) < 2 ^ 53 * (d * p2 s).
Proof.
  intros Hn Hd s. pose proof (binade_spec n d Hn Hd) as B.
  pose proof (p2_shift s 52 ltac:(lia)) as S.
  replace (s + 52) with (binade n d) in S by (unfold s; lia).
  pose proof (p2_pos s) as P1. pose proof (p2_pos (- s)) as P2.
  pose proof (p2_pos (binade n d)) as P3.
  pose proof (p2_pos (- binade n d)) as P4.
  change (2 ^ 53) with (2 * 2 ^ 52).
  set (k := 2 ^ 52) in *. assert (Hk : 0 < k) by (unfold k; lia).
  clearbody k.
  assert (E1 : d * p2 (binade n d) * p2 (- s)
               = k * (d * p2 s) * p2 (- binade n d)) by nia.
  split.
  - apply (Z.mul_le_mono_pos_r _ _ (p2 (- binade n d)) P4). nia.
  - apply (Z.mul_lt_mono_pos_r (p2 (- binade n d)) _ _ P4). nia.
Qed.

Lemma mantissa_error n d :
  0 < n -> 0 < d ->
  let s := binade n d - 52 in
  let m := round_half_even (n * p2 (- s)) (d * p2 s) in
  (2 ^ 53 - 1) * (n * p2 (- s)) <= 2 ^ 53 * (m * (d * p2 s))
  <= (2 ^ 53 + 1) * (n * p2 (- s)) /\ 0 <= m.
Proof.
  intros Hn Hd s m. pose proof (mantissa_range n d Hn Hd) as R.
  fold s in R. cbv zeta in R.
  assert (HB : 0 < d * p2 s) by (pose proof (p2_pos s); nia).
  pose proof (round_half_even_bounds (n * p2 (- s)) (d * p2 s) HB) as E.
  fold m in E.
  assert (Hm : 0 <= m).
  { apply (round_half_even_ge _ _ 0 HB). pose proof (p2_pos (- s)). nia. }
  split; [|exact Hm].
  set (A := n * p2 (- s)) in *. set (B := d * p2 s) in *.
  set (X := m * B) in *. change (2 ^ 53) with (2 * 2 ^ 52).
  change (2 ^ 52) with 4503599627370496 in *. lia.
Qed.

Lemma Zpos_to_pos_p2 k : Zpos (Z.to_pos (p2 k)) = p2 k.
Proof. apply Z2Pos.id, p2_pos. Qed.

Lemma round_pos_nonneg n d : 0 < n -> 0 < d -> (0 <= round_pos n d)%Q.
Proof.
  intros Hn Hd. unfold round_pos, Qle. cbn [Qnum Qden].
  destruct (mantissa_error n d Hn Hd) as [_ Hm]. cbv zeta in Hm.
  pose proof (p2_pos (binade n d - 52)). nia.
Qed.

Lemma round_pos_tol n d :
  0 < n -> 0 < d ->
  (inject_Z (2 ^ 53 - 1) * (n # Z.to_pos d)
   <= inject_Z (2 ^ 53) * round_pos n d)%Q /\
  (inject_Z (2 ^ 53) * round_pos n d
   <= inject_Z (2 ^ 53 + 1) * (n # Z.to_pos d))%Q.
Proof.
  intros Hn Hd. destruct (mantissa_error n d Hn Hd) as [[E1 E2] _].
  cbv zeta in *. unfold round_pos.
  set (s := binade n d - 52) in *.
  set (m := round_half_even (n * p2 (- s)) (d * p2 s)) in *.
  unfold Qle, Qmult, inject_Z. cbn [Qnum Qden].
  rewrite !Pos.mul_1_l, Zpos_to_pos_p2, (Z2Pos.id d Hd).
  split; nia.
Qed.

Lemma binade_le_52 n d R :
  0 < n -> 0 < d -> R < 2 ^ 53 -> n <= R * d -> binade n d <= 52.
Proof.
  intros Hn Hd HR H. pose proof (binade_spec n d Hn Hd) as B.
  destruct (Z_le_gt_dec (binade n d) 52) as [L|G]; [exact L|exfalso].
  rewrite (p2_nonneg_arg (binade n d)), (p2_neg_arg (- binade n d)) in B
    by lia.
  assert (E : 2 ^ binade n d = 2 ^ 53 * 2 ^ (binade n d - 53))
    by (rewrite <- Z.pow_add_r by lia; f_equal; lia).
  assert (0 < 2 ^ (binade n d - 53)) by (apply Z.pow_pos_nonneg; lia).
  nia.
Qed.

(** A value at most a whole number below [2^53] is rounded to at most
    that number, and a value at least a whole number to at least it. *)
Lemma round_pos_le_int n d R :
  0 < n -> 0 < d -> R < 2 ^ 53 -> n <= R * d ->
  (round_pos n d <= inject_Z R)%Q.
Proof.
  intros Hn Hd HR H. pose proof (binade_le_52 n d R Hn Hd HR H) as He.
  unfold round_pos. set (s := binade n d - 52) in *.
  assert (Hs : s <= 0) by (unfold s; lia).
  rewrite (p2_neg_arg s Hs). rewrite !Z.mul_1_r.
  unfold Qle, inject_Z. cbn [Qnum Qden]. rewrite Zpos_to_pos_p2, Z.mul_1_r.
  apply round_half_even_le; [exact Hd|]. pose proof (p2_pos (- s)). nia.
Qed.

Lemma round_pos_ge_int n d R R' :
  0 < n -> 0 < d -> R' < 2 ^ 53 -> n <= R' * d -> R * d <= n ->
  (inject_Z R <= round_pos n d)%Q.
Proof.
  intros Hn Hd HR H L. pose proof (binade_le_52 n d R' Hn Hd HR H) as He.
  unfold round_pos. set (s := binade n d - 52) in *.
  assert (Hs : s <= 0) by (unfold s; lia).
  rewrite (p2_neg_arg s Hs). rewrite !Z.mul_1_r.
  unfold Qle, inject_Z. cbn [Qnum Qden]. rewrite Zpos_to_pos_p2, Z.mul_1_r.
  apply round_half_even_ge; [exact Hd|]. pose proof (p2_pos (- s)). nia.
Qed.

(** *** Rounding a rational *)

Lemma round_zero x : (x == 0)%Q -> round x = 0%Q.
Proof.
  destruct x as [[|n|n] d]; unfold Qeq; cbn; intros H; try lia. reflexivity.
Qed.

Lemma round_nonneg x : (0 <= x)%Q -> (0 <= round x)%Q.
Proof.
  destruct x as [[|n|n] d]; unfold Qle at 1; cbn; intros H; try lia.
  - unfold round. cbn. unfold Qle. cbn. lia.
  - unfold round. cbn [Qnum Qden]. apply round_pos_nonneg; lia.
Qed.

Lemma round_le_int x R :
  0 <= R < 2 ^ 53 -> (x <= inject_Z R)%Q -> (round x <= inject_Z R)%Q.
Proof.
  intros HR. destruct x as [[|n|n] d]; unfold Qle at 1, inject_Z;
    cbn [Qnum Qden]; intros H; unfold round; cbn [Qnum Qden].
  - unfold Qle. cbn. lia.
  - apply round_pos_le_int; lia.
  - apply Qle_trans with 0%Q; [|unfold Qle; cbn; lia].
    pose proof (round_pos_nonneg (Zpos n) (Zpos d) ltac:(lia) ltac:(lia))
      as P.
    unfold Qle in *. cbn [Qnum Qden Qopp] in *. lia.
Qed.

Lemma round_ge_int x R R' :
  0 < R -> R' < 2 ^ 53 -> (inject_Z R <= x)%Q -> (x <= inject_Z R')%Q ->
  (inject_Z R <= round x)%Q.
Proof.
  intros HR HR'. destruct x as [[|n|n] d]; unfold Qle at 1 2, inject_Z;
    cbn [Qnum Qden]; intros L U; unfold round; cbn [Qnum Qden]; try lia.
  apply (round_pos_ge_int _ _ R R'); lia.
Qed.

Lemma round_tol x :
  (0 <= x)%Q ->
  (inject_Z (2 ^ 53 - 1) * x <= inject_Z (2 ^ 53) * round x)%Q /\
  (inject_Z (2 ^ 53) * round x <= inject_Z (2 ^ 53 + 1) * x)%Q.
Proof.
  destruct x as [[|n|n] d]; unfold Qle at 1; cbn [Qnum Qden]; intros H;
    try lia.
  - unfold round. cbn. unfold Qle. cbn. lia.
  - unfold round. cbn [Qnum Qden].
    exact (round_pos_tol (Zpos n) (Zpos d) ltac:(lia) ltac:(lia)).
Qed.


(** *** The percentage [(count / total) * 100] *)

Lemma ratio_bounds c t :
  0 <= c <= t -> 0 < t ->
  (0 <= inject_Z c / inject_Z t)%Q /\ (inject_Z c / inject_Z t <= inject_Z 1)%Q.
Proof.
  intros Hc Ht. destruct t as [|tp|tn]; try lia.
  unfold Qle, Qdiv, Qmult, Qinv, inject_Z. cbn. split; nia.
Qed.

Lemma percent_bounds c t :
  0 <= c <= t -> 0 < t ->
  (0 <= mul (div (inject_Z c) (inject_Z t)) 100 /\
   mul (div (inject_Z c) (inject_Z t)) 100 <= 100)%Q.
Proof.
  intros Hc Ht. destruct (ratio_bounds c t Hc Ht) as [L U].
  unfold mul, div.
  pose proof (round_nonneg _ L) as Ly.
  pose proof (round_le_int _ 1 ltac:(lia) U) as Uy.
  set (y := round (inject_Z c / inject_Z t)) in *.
  split.
  - apply round_nonneg. change 0%Q with (0 * 100)%Q.
    apply Qmult_le_compat_r; [exact Ly|discriminate].
  - apply (round_le_int _ 100 ltac:(lia)).
    change (inject_Z 100) with (inject_Z 1 * 100)%Q.
    apply Qmult_le_compat_r; [exact Uy|discriminate].
Qed.

Lemma percent_full t :
  0 < t -> (mul (div (inject_Z t) (inject_Z t)) 100 == 100)%Q.
Proof.
  intros Ht.
  assert (E : (inject_Z t / inject_Z t == inject_Z 1)%Q).
  { destruct t as [|tp|tn]; try lia.
    unfold Qeq, Qdiv, Qmult, Qinv, inject_Z. cbn. lia. }
  assert (L1 : (inject_Z 1 <= inject_Z t / inject_Z t)%Q)
    by (rewrite E; apply Qle_refl).
  assert (U1 : (inject_Z t / inject_Z t <= inject_Z 1)%Q)
    by (rewrite E; apply Qle_refl).
  unfold mul, div.
  pose proof (round_le_int _ 1 ltac:(lia) U1) as Uy.
  pose proof (round_ge_int _ 1 1 ltac:(lia) ltac:(lia) L1 U1) as Ly.
  set (y := round (inject_Z t / inject_Z t)) in *.
  assert (U2 : (y * 100 <= inject_Z 100)%Q).
  { change (inject_Z 100) with (inject_Z 1 * 100)%Q.
    apply Qmult_le_compat_r; [exact Uy|discriminate]. }
  assert (L2 : (inject_Z 100 <= y * 100)%Q).
  { change (inject_Z 100) with (inject_Z 1 * 100)%Q.
    apply Qmult_le_compat_r; [exact Ly|discriminate]. }
  apply Qle_antisym.
  - exact (round_le_int _ 100 ltac:(lia) U2).
  - exact (round_ge_int _ 100 100 ltac:(lia) ltac:(lia) L2 U2).
Qed.

(** Two roundings: the result is within a factor [1 ± 2^-51] of the exact
    percentage. *)
Lemma percent_tol c t :
  0 <= c -> 0 < t ->
  ((1 - (1 # 2 ^ 51)) * (100 * inject_Z c / inject_Z t)
   <= mul (div (inject_Z c) (inject_Z t)) 100)%Q /\
  (mul (div (inject_Z c) (inject_Z t)) 100
   <= (1 + (1 # 2 ^ 51)) * (100 * inject_Z c / inject_Z t))%Q.
Proof.
  intros Hc Ht.
  assert (L : (0 <= inject_Z c / inject_Z t)%Q).
  { destruct t as [|tp|tn]; try lia.
    unfold Qle, Qdiv, Qmult, Qinv, inject_Z. cbn. nia. }
  unfold mul, div.
  destruct (round_tol _ L) as [A1 A2].
  pose proof (round_nonneg _ L) as Ly.
  set (x := (inject_Z c / inject_Z t)%Q) in *.
  set (y := round x) in *.
  assert (Ly100 : (0 <= y * 100)%Q).
  { change 0%Q with (0 * 100)%Q.
    apply Qmult_le_compat_r; [exact Ly|discriminate]. }
  destruct (round_tol _ Ly100) as [B1 B2].
  set (P := round (y * 100)) in *.
  assert (E : (100 * inject_Z c / inject_Z t == 100 * x)%Q)
    by (unfold x; unfold Qdiv; ring).
  rewrite E.
  change (inject_Z (2 ^ 53 - 1)) with (9007199254740991 # 1) in *.
  change (inject_Z (2 ^ 53)) with (9007199254740992 # 1) in *.
  change (inject_Z (2 ^ 53 + 1)) with (9007199254740993 # 1) in *.
  change (2 ^ 51)%positive with 2251799813685248%positive.
  clearbody P y x. split; lra.
Qed.

End DoubleFacts.

(** ** Claims settled on one handler *)

(** C4, as stated, fails: a progress signal with [total = 0] sets the
    crawl stage's progress to 0, here from 50. *)
Lemma C4_zero_total_resets_progress : ~ progress_retained_claim.
Proof.
  intros H.
  destruct (H (store halfway_app) (mkCrawlProgress 1 0 None)
              (mkStage "crawl" "Sitemap Discovery"
                 "Crawling sitemaps in parallel to extract all page URLs"
                 StRunning
                 (Double.mul (Double.div (inject_Z 1) (inject_Z 2)) 100)
                 (Some 1) (Some 2) (Some "Processing sitemap..."%string)
                 (Some 4) None))
    as (st' & Hf & _ & Hkeep).
  - vm_compute. reflexivity.
  - vm_compute in Hf. injection Hf as <-.
    assert (Hle : total (mkCrawlProgress 1 0 None) <= 0) by (cbn; lia).
    specialize (Hkeep Hle). vm_compute in Hkeep. discriminate Hkeep.
Qed.

(** The double the callback computes for 7 of 25 is
    28.000000000000004, not 28. *)
Example seven_of_twenty_five :
  Qred (Double.mul (Double.div (inject_Z 7) (inject_Z 25)) 100)
  = 7881299347898369 # 281474976710656.
Proof. vm_compute. reflexivity. Qed.

(** C4, amended: a progress signal [(count, total)] sets the crawl stage's
    progress to 0 when [total] is not positive (the current value is not
    retained), and otherwise to the double [(count / total) * 100]: for
    whole numbers [0 <= count] and [total] below [2^53] this is the
    quotient rounded to the nearest double, times 100, rounded again; it
    is within a factor [1 ± 2^-51] of [100 * count / total], and exactly
    100 when [count = total].  [itemsProcessed] and [totalItems] are set
    to [count] and [total], and the status is left as it is. *)
Theorem C4_crawl_progress (s : Store) (p : CrawlProgress)
    (st : PipelineStage) :
  find_stage "crawl" s = Some st ->
  exists st',
    find_stage "crawl" (on_crawl_progress p s) = Some st' /\
    (0 <= count p < 2 ^ 53 -> 0 < total p < 2 ^ 53 ->
     progress st'
     = Double.round
         (Double.round (inject_Z (count p) / inject_Z (total p)) * 100) /\
     ((1 - (1 # 2 ^ 51)) * (100 * inject_Z (count p) / inject_Z (total p))
      <= progress st')%Q /\
     (progress st'
      <= (1 + (1 # 2 ^ 51)) * (100 * inject_Z (count p) / inject_Z (total p)))%Q /\
     (count p = total p -> (progress st' == 100)%Q)) /\
    (total p <= 0 -> progress st' = 0%Q) /\
    itemsProcessed st' = Some (count p) /\
    totalItems st' = Some (total p) /\
    status st' = status st.
Proof.
  intros H. unfold on_crawl_progress. cbv zeta.
  rewrite find_stage_updateStage.
  change (find_stage "crawl" (set_crawlProgress (Some p) s))
    with (find_stage "crawl" s).
  rewrite H.
  cbn [option_map String.eqb Ascii.eqb Bool.eqb].
  eexists; split; [reflexivity|].
  cbn [merge_updates progress itemsProcessed totalItems status
       upd_crawl_progress u_progress u_itemsProcessed u_totalItems u_status].
  repeat match goal with |- _ /\ _ => split end; try reflexivity.
  - intros Hc Ht. assert (Hpos : (0 <? total p) = true)
      by (apply Z.ltb_lt; lia).
    rewrite Hpos.
    destruct (DoubleFacts.percent_tol (count p) (total p)) as [T1 T2];
      try lia.
    repeat match goal with |- _ /\ _ => split end;
      [reflexivity|exact T1|exact T2|].
    intros E. rewrite E. apply DoubleFacts.percent_full. lia.
  - intros Hle. destruct (Z.ltb_spec 0 (total p)); [lia|reflexivity].
Qed.

Lemma C4_crawl_progress_witness :
  exists st',
    find_stage "crawl"
      (on_crawl_progress (mkCrawlProgress 7 25 None) (store halfway_app))
    = Some st' /\
    (0 <= 7 < 2 ^ 53 -> 0 < 25 < 2 ^ 53 ->
     progress st'
     = Double.round (Double.round (inject_Z 7 / inject_Z 25) * 100) /\
     ((1 - (1 # 2 ^ 51)) * (100 * inject_Z 7 / inject_Z 25)
      <= progress st')%Q /\
     (progress st'
      <= (1 + (1 # 2 ^ 51)) * (100 * inject_Z 7 / inject_Z 25))%Q /\
     (7 = 25 -> (progress st' == 100)%Q)) /\
    (25 <= 0 -> progress st' = 0%Q) /\
    itemsProcessed st' = Some 7 /\
    totalItems st' = Some 25 /\
    status st' = StRunning.
Proof.
  apply (C4_crawl_progress (store halfway_app) (mkCrawlProgress 7 25 None)
           (mkStage "crawl" "Sitemap Discovery"
              "Crawling sitemaps in parallel to extract all page URLs"
              StRunning
              (Double.mul (Double.div (inject_Z 1) (inject_Z 2)) 100)
              (Some 1) (Some 2) (Some "Processing sitemap..."%string)
              (Some 4) None)).
  vm_compute. reflexivity.
Defined.

(** C3 on the code: when [cacheService.setAnalysis] rejects after a
    successful fan-out, the run ends in the error state with the rejection
    message; the action plan and the summary are never started. *)
Theorem C3_cache_write_rejection_fails_the_run :
  let a := exec env0 app0 cache_write_rejected_trace in
  appState (store a) = AppError /\
  error_ (store a) = Some "QuotaExceededError"%string /\
  map status (pipelineStages (store a))
  = [StComplete; StComplete; StComplete; StComplete; StComplete;
     StPending; StPending] /\
  map pc (runs a) = [Returned PhCacheSet false].
Proof. vm_compute. repeat split. Qed.

(** C10: when a run on the cache-hit path receives its summary, the
    record it puts at the head of the history has no grounding sources; its
    analyses are the cached ones. *)
Theorem C10_cache_hit_record_has_no_sources (env : Env) (a : App) (i : nat)
    (r : Run) (c : CachedAnalysis) (plan : list DailyActionPlan)
    (summary : ExecutiveSummary) (storageOk : bool) :
  nth_error (runs a) i = Some r ->
  pc r = AwaitHitSummary c plan ->
  let a' := step env a (EvRun i (SummaryResolved summary storageOk)) in
  exists record rest,
    analysisHistory (store a') = record :: rest /\
    ha_sources record = [] /\
    ha_sitewideAnalysis record = sitewide c /\
    ha_analysis record = seo c /\
    ha_actionPlan record = plan /\
    ha_executiveSummary record = summary /\
    option_map pc (nth_error (runs a') i) = Some (Returned PhHitSummary true).
Proof.
  intros Hr Hpc. destruct a as [s rs]. cbn [step runs store] in *.
  rewrite Hr. unfold resume. rewrite Hpc.
  destruct (after_hit_summary env r c plan summary storageOk s)
    as [s' r'] eqn:E.
  cbn [store runs]. rewrite (nth_error_set_nth rs i r' r Hr).
  assert (Es : s' = fst (after_hit_summary env r c plan summary storageOk s))
    by (rewrite E; reflexivity).
  assert (Er : r' = snd (after_hit_summary env r c plan summary storageOk s))
    by (rewrite E; reflexivity).
  subst s' r'. clear E.
  destruct storageOk; do 2 eexists; repeat split; reflexivity.
Qed.

Lemma C10_cache_hit_record_has_no_sources_witness :
  exists record rest,
    analysisHistory
      (store (step env0 cache_hit_app
                (EvRun 0 (SummaryResolved "summary"%string true))))
    = record :: rest /\
    ha_sources record = [] /\
    ha_sitewideAnalysis record = "sitewide"%string /\
    ha_analysis record = "pages"%string /\
    ha_actionPlan record = ["day 1"%string] /\
    ha_executiveSummary record = "summary"%string /\
    option_map pc
      (nth_error
         (runs (step env0 cache_hit_app
                  (EvRun 0 (SummaryResolved "summary"%string true)))) 0)
    = Some (Returned PhHitSummary true).
Proof.
  apply (C10_cache_hit_record_has_no_sources env0 cache_hit_app 0
           cache_hit_run (mkCached "sitewide"%string "pages"%string)
           ["day 1"%string]
           "summary"%string true).
  - vm_compute. reflexivity.
  - reflexivity.
Defined.

(** ** Runs, one event at a time *)

Section RunLemmas.

Variable env : Env.

Lemma app_eta a : a = mkApp (store a) (runs a).
Proof. destruct a; reflexivity. Qed.

Lemma set_nth_last {A} (l : list A) x y :
  set_nth (List.length l) y (l ++ [x]) = l ++ [y].
Proof. induction l; simpl; [reflexivity|f_equal; assumption]. Qed.

Lemma nth_error_length_none {A} (l : list A) :
  nth_error l (List.length l) = None.
Proof. induction l; simpl; auto. Qed.

Lemma exec_cons a e evs : exec env a (e :: evs) = exec env (step env a e) evs.
Proof. reflexivity. Qed.

Lemma step_run a i r e :
  nth_error (runs a) i = Some r ->
  step env a (EvRun i e)
  = mkApp (fst (resume env r e (store a)))
          (set_nth i (snd (resume env r e (store a))) (runs a)).
Proof.
  intros Hr. cbn [step]. rewrite Hr.
  destruct (resume env r e (store a)); reflexivity.
Qed.

(** The events of the [i]-th run act on the store and on that run only. *)
Lemma exec_run evs : forall a i r,
  nth_error (runs a) i = Some r ->
  exec env a (map (EvRun i) evs)
  = mkApp (fst (run_exec env r (store a) evs))
          (set_nth i (snd (run_exec env r (store a) evs)) (runs a)).
Proof.
  induction evs as [|e evs IH]; intros a i r Hr.
  - cbn. rewrite (set_nth_same _ _ _ Hr). apply app_eta.
  - cbn [map run_exec]. rewrite exec_cons, (step_run a i r e Hr).
    destruct (resume env r e (store a)) as [s' r'] eqn:E. cbn [fst snd].
    rewrite (IH (mkApp s' (set_nth i r' (runs a))) i r').
    + cbn [store runs]. rewrite set_nth_twice. reflexivity.
    + cbn [runs]. eapply nth_error_set_nth; eassumption.
Qed.

(** Events addressed to a run that does not exist change nothing. *)
Lemma exec_no_run evs : forall a i,
  nth_error (runs a) i = None -> exec env a (map (EvRun i) evs) = a.
Proof.
  induction evs as [|e evs IH]; intros a i Hr; [reflexivity|].
  cbn [map]. rewrite exec_cons. cbn [step]. rewrite Hr. apply IH, Hr.
Qed.

Lemma single_run_started a d r evs :
  starts_run env a d r ->
  single_run env a d evs
  = mkApp (fst (run_exec env r (fst (handleSubmit env d (store a))) evs))
          (runs a ++
           [snd (run_exec env r (fst (handleSubmit env d (store a))) evs)]).
Proof.
  unfold starts_run, single_run. intros H. cbn [step].
  destruct (handleSubmit env d (store a)) as [s1 o]. cbn [snd fst] in *.
  subst o.
  rewrite (exec_run evs (mkApp s1 (runs a ++ [r])) _ r).
  - cbn [store runs]. rewrite set_nth_last. reflexivity.
  - cbn [runs]. apply nth_error_last.
Qed.

Lemma single_run_not_started a d evs :
  snd (handleSubmit env d (store a)) = None ->
  new_run a (single_run env a d evs) = None.
Proof.
  unfold single_run, new_run. intros H. cbn [step].
  destruct (handleSubmit env d (store a)) as [s1 o]. cbn [snd] in H.
  subst o. rewrite exec_no_run; cbn [runs]; apply nth_error_length_none.
Qed.

(** Induction over the events of a run: a relation between run and store
    kept by every event (of a given class) holds after all of them. *)
Lemma run_exec_inv (I : Run -> Store -> Prop) (Q : RunEvent -> Prop) :
  (forall r s e, Q e -> I r s ->
                 I (snd (resume env r e s)) (fst (resume env r e s))) ->
  forall evs r s,
    Forall Q evs -> I r s ->
    I (snd (run_exec env r s evs)) (fst (run_exec env r s evs)).
Proof.
  intros Hstep. induction evs as [|e evs IH]; intros r s HQ HI.
  - exact HI.
  - cbn [run_exec]. inversion HQ as [|? ? Qe Qrest]; subst.
    specialize (Hstep r s e Qe HI).
    destruct (resume env r e s) as [s' r']. apply IH; assumption.
Qed.

Lemma Forall_True {A} (l : list A) : Forall (fun _ => True) l.
Proof. induction l; constructor; auto. Qed.

(** What [handleSubmit] captures. *)
Lemma handleSubmit_run d s r :
  snd (handleSubmit env d s) = Some r ->
  pc r = AwaitCrawl /\ r_data r = d /\
  c_analysisHistory r = analysisHistory s /\
  c_isCancelling r = isCancelling s.
Proof.
  unfold handleSubmit.
  destruct (negb _); [discriminate|].
  destruct (aiConfig s); [|discriminate].
  destruct (parseURL env _); [|discriminate].
  cbv zeta. unfold dateNow at 1. cbn [snd]. intros [= <-]. cbn. auto.
Qed.

Lemma snd_after_crawl r urls s :
  snd (after_crawl env r urls s)
  = if Nat.eqb (List.length urls) 0 then failed r
    else at_pc (AwaitCacheGet urls) r.
Proof. unfold after_crawl. destruct (Nat.eqb _ _); reflexivity. Qed.

Lemma snd_after_summary r sw an src plan sum b s :
  snd (after_summary env r sw an src plan sum b s)
  = at_pc (Returned PhSummary true) r.
Proof. reflexivity. Qed.

Lemma snd_after_hit_summary r c plan sum b s :
  snd (after_hit_summary env r c plan sum b s)
  = at_pc (Returned PhHitSummary true) r.
Proof. reflexivity. Qed.

End RunLemmas.

Lemma run_exec_app env l1 : forall l2 r s,
  run_exec env r s (l1 ++ l2)
  = run_exec env (snd (run_exec env r s l1)) (fst (run_exec env r s l1)) l2.
Proof.
  induction l1 as [|e l1 IH]; intros l2 r s; [reflexivity|].
  cbn [app run_exec]. destruct (resume env r e s) as [s' r']. apply IH.
Qed.

Lemma new_run_last a s x : new_run a (mkApp s (runs a ++ [x])) = Some x.
Proof. unfold new_run. cbn [runs]. apply nth_error_last. Qed.

(** Case analysis on an event and on the await the run is suspended at,
    down to the piece of [handleSubmit] that runs and the await (or
    return) it leaves the run at. *)
Ltac run_cases r e Hpc :=
  unfold resume;
  destruct e as [?p|?m|?m|?m|?urls|[?c|]|?sw|?an ?src| |?plan|?sum ?b|?e];
  destruct (pc r) as [|?urls'|?c'|?c' ?plan'|[?sw'|] [[?an' ?src']|]
                     |?sw' ?an' ?src'|?sw' ?an' ?src'|?sw' ?an' ?src' ?plan'
                     |?last ?b'] eqn:Hpc;
  cbn [phase_of fanout_issued plan_issued] in *;
  try (destruct (fanout_issued last));
  try (destruct (plan_issued last));
  rewrite ?snd_after_crawl, ?snd_after_summary, ?snd_after_hit_summary;
  try (destruct (Nat.eqb _ _) eqn:?Hempty);
  unfold failed; cbn [fst snd at_pc pc r_data c_analysisHistory];
  rewrite ?Hpc; cbn [phase_of].

(** ** The captured [isCancelling] is always [false] *)

Section Cancelling.

Variable env : Env.

(** Case analysis on the event and on the await the run is suspended at,
    down to the piece of [handleSubmit] that runs. *)
Ltac resume_cases r e :=
  unfold resume;
  destruct e as [?p|?m|?m|?m|?urls|[?c|]|?sw|?an ?src| |?plan|?sum ?b|?e];
  destruct (pc r) as [|?urls'|?c'|?c' ?plan'|[?sw'|] [[?an' ?src']|]
                     |?sw' ?an' ?src'|?sw' ?an' ?src'|?sw' ?an' ?src' ?plan'
                     |?last ?b'] eqn:?Hpc;
  cbn [phase_of fanout_issued plan_issued fst snd];
  try (destruct (fanout_issued last); cbn [fst snd]);
  try (destruct (plan_issued last); cbn [fst snd]).

Ltac open_ifs :=
  unfold after_crawl, catch_handler, after_summary, after_hit_summary,
    record_history, on_audit_progress;
  repeat match goal with
         | |- context [if ?c then _ else _] => destruct c
         end.

Lemma isCancelling_resume r e s :
  isCancelling (fst (resume env r e s)) = isCancelling s.
Proof. resume_cases r e; try reflexivity; open_ifs; reflexivity. Qed.

Lemma isCancelling_step a e :
  isCancelling (store a) = false ->
  isCancelling (store (step env a e)) = false.
Proof.
  intros H. destruct e as [d| | | |c b| |i ev]; cbn [step].
  - unfold handleSubmit.
    destruct (negb _); [exact H|].
    destruct (aiConfig _); [|exact H].
    destruct (parseURL env _); exact H.
  - reflexivity.
  - exact H.
  - exact H.
  - destruct b; exact H.
  - exact H.
  - destruct (nth_error (runs a) i) as [r|]; [|exact H].
    pose proof (isCancelling_resume r ev (store a)) as H'.
    destruct (resume env r ev (store a)). cbn [fst store] in *. congruence.
Qed.

Lemma reachable_not_cancelling a :
  reachable env a -> isCancelling (store a) = false.
Proof.
  intros (h & c & evs & ->).
  assert (H0 : isCancelling (store (mount env h c)) = false).
  { unfold mount, mountEffect; cbn [store].
    destruct c as [|cfg|]; destruct h as [|[|h0 hs]|]; reflexivity. }
  revert H0. generalize (mount env h c). induction evs as [|e evs IH];
    intros a H; [exact H|].
  rewrite exec_cons. apply IH, isCancelling_step, H.
Qed.

End Cancelling.

(** ** C5: a crawl that finds nothing *)

Section EmptyCrawl.

Variable env : Env.

Lemma view_handleSubmit d s r :
  snd (handleSubmit env d s) = Some r ->
  view (fst (handleSubmit env d s)) = crawling_view.
Proof.
  unfold handleSubmit.
  destruct (negb _); [discriminate|].
  destruct (aiConfig s); [|discriminate].
  destruct (parseURL env _); [|discriminate].
  intros _. destruct s. unfold view. eval_store.
  rewrite !view_of_updated. reflexivity.
Qed.

Lemma view_on_crawl_progress p s : view (on_crawl_progress p s) = view s.
Proof.
  destruct s as [? ? ? ? ? ? stages ? ? ? ? ? ? ? ? ? ?].
  unfold view. eval_store. rewrite view_of_updated.
  cbn [upd_crawl_progress u_status]. generalize (view_of stages).
  intros l. rewrite <- (map_id l) at 2. apply map_ext. intros [i st].
  unfold upd_view. cbn. destruct (String.eqb i "crawl"); reflexivity.
Qed.

Lemma resume_crawl_progress r p s :
  resume env r (CrawlProgressCb p) s = (on_crawl_progress p s, r).
Proof. unfold resume. destruct (pc r); reflexivity. Qed.

(** While the crawler reports progress the crawl stage is running and no
    other stage has left [pending]. *)
Lemma crawling_progress ps : forall r s,
  view s = crawling_view ->
  view (fst (run_exec env r s (map CrawlProgressCb ps))) = crawling_view /\
  snd (run_exec env r s (map CrawlProgressCb ps)) = r.
Proof.
  induction ps as [|p ps IH]; intros r s H; [split; [exact H|reflexivity]|].
  cbn [map run_exec]. rewrite resume_crawl_progress.
  apply IH. rewrite view_on_crawl_progress. exact H.
Qed.

Lemma after_empty_crawl r s :
  c_isCancelling r = false -> pc r = AwaitCrawl ->
  view s = crawling_view ->
  let s' := fst (after_crawl env r [] s) in
  let r' := snd (after_crawl env r [] s) in
  view s' = crawled_view /\ appState s' = AppError /\
  error_ s' = Some EMPTY_CRAWL_MESSAGE /\ pc r' = Returned PhCrawl false.
Proof.
  intros Hc Hpc Hv. unfold after_crawl. cbn [List.length Nat.eqb fst snd].
  unfold catch_handler, failed. rewrite Hc, Hpc. cbv zeta.
  repeat split.
  destruct s as [? ? ? ? ? ? stages ? ? ? ? ? ? ? ? ? ?].
  unfold view in *. cbn [pipelineStages] in Hv. eval_store.
  rewrite view_of_failed, view_of_updated, Hv. reflexivity.
Qed.

(** After the run has returned from the crawl phase, no event of it touches
    the statuses, the application state or the error message. *)
Lemma returned_from_crawl_stays r e s b :
  pc r = Returned PhCrawl b ->
  let s' := fst (resume env r e s) in
  let r' := snd (resume env r e s) in
  view s' = view s /\ appState s' = appState s /\ error_ s' = error_ s /\
  r' = r.
Proof.
  intros Hpc. unfold resume. rewrite Hpc.
  destruct e as [p|m|m|m|urls|[c|]|sw|an src| |plan|sum b'|e];
    cbn [phase_of fanout_issued plan_issued fst snd];
    repeat split; apply view_on_crawl_progress.
Qed.

End EmptyCrawl.

(** C5: when the crawl of a run resolves with no URL, whatever progress
    the crawler reported before and whatever events of the run come later,
    the application is in the error state with the message of the
    empty-result condition, the crawl stage is complete and the six later
    stages are pending, as they have been since the submission; the run
    has returned through its [catch]. *)
Theorem C5_empty_crawl_ends_in_error (env : Env) (a : App)
    (d : WizardSubmitData) (r : Run) (ps : list CrawlProgress)
    (late : list RunEvent) :
  reachable env a ->
  starts_run env a d r ->
  view (store (single_run env a d (map CrawlProgressCb ps))) = crawling_view
  /\
  let a' := single_run env a d
              (map CrawlProgressCb ps ++ CrawlResolved [] :: late) in
  appState (store a') = AppError /\
  error_ (store a') = Some EMPTY_CRAWL_MESSAGE /\
  view (store a') = crawled_view /\
  option_map pc (new_run a a') = Some (Returned PhCrawl false).
Proof.
  intros Hreach Hstart.
  pose proof (reachable_not_cancelling env a Hreach) as Hnc.
  destruct (handleSubmit_run env d (store a) r Hstart)
    as (Hpc & _ & _ & Hcap).
  rewrite Hnc in Hcap.
  pose proof (view_handleSubmit env d (store a) r Hstart) as Hv.
  rewrite !(single_run_started env a d r) by exact Hstart.
  cbn [store]. rewrite new_run_last. cbn [option_map].
  rewrite run_exec_app.
  destruct (crawling_progress env ps r _ Hv) as [Hv1 Hr1].
  rewrite Hr1. split; [exact Hv1|].
  set (s1 := fst (run_exec env r _ (map CrawlProgressCb ps))) in *.
  cbn [run_exec]. unfold resume at 1 2 3 4. rewrite Hpc.
  destruct (after_empty_crawl env r s1 Hcap Hpc Hv1)
    as (Hv2 & Happ & Herr & Hpc2).
  destruct (after_crawl env r [] s1) as [s2 r2]. cbn [fst snd] in *.
  pose proof (run_exec_inv env
    (fun r s => pc r = Returned PhCrawl false /\ view s = crawled_view /\
                appState s = AppError /\
                error_ s = Some EMPTY_CRAWL_MESSAGE)
    (fun _ => True)) as Hinv.
  destruct (Hinv) with (evs := late) (r := r2) (s := s2)
    as (K1 & K2 & K3 & K4).
  - intros r0 s0 e _ (J1 & J2 & J3 & J4).
    destruct (returned_from_crawl_stays env r0 e s0 false J1)
      as (L1 & L2 & L3 & L4).
    rewrite L1, L2, L3, L4. auto.
  - apply Forall_True.
  - auto.
  - rewrite K1. auto.
Qed.

Lemma C5_empty_crawl_ends_in_error_witness :
  view (store (single_run env0 app0 d0
                 (map CrawlProgressCb [mkCrawlProgress 0 1 None])))
  = crawling_view /\
  let a' := single_run env0 app0 d0
              (map CrawlProgressCb [mkCrawlProgress 0 1 None] ++
               CrawlResolved [] ::
               [CrawlProgressCb (mkCrawlProgress 1 1 None);
                AuditProgressCb "late"%string; Rejected OtherValue]) in
  appState (store a') = AppError /\
  error_ (store a') = Some EMPTY_CRAWL_MESSAGE /\
  view (store a') = crawled_view /\
  option_map pc (new_run app0 a') = Some (Returned PhCrawl false).
Proof.
  apply (C5_empty_crawl_ends_in_error env0 app0 d0 crawling_run
           [mkCrawlProgress 0 1 None]
           [CrawlProgressCb (mkCrawlProgress 1 1 None);
            AuditProgressCb "late"%string; Rejected OtherValue]).
  - exists Missing, (Value "cfg"%string), []. reflexivity.
  - vm_compute. reflexivity.
Defined.

(** ** C6: the fan-out join *)

Section FanoutJoin.

Variable env : Env.
Hypothesis mono : monotone_clock env.
























End FanoutJoin.



(** ** C7: the history recorder *)

Section History.

Variable env : Env.

Lemma history_handleSubmit d s :
  analysisHistory (fst (handleSubmit env d s)) = analysisHistory s.
Proof.
  unfold handleSubmit.
  destruct (negb _); [reflexivity|].
  destruct (aiConfig s); [|reflexivity].
  destruct (parseURL env _); reflexivity.
Qed.


Lemma history_inv_resume d h0 r e s :
  history_inv d h0 r s ->
  history_inv d h0 (snd (resume env r e s)) (fst (resume env r e s)).
Proof.
  intros (Hd & Hh & H). unfold history_inv.
  run_cases r e Hpc.
  all: (split; [exact Hd|]; split; [exact Hh|]).
  all: try exact H.
  all: try (destruct b'; exact H).
  all: try (rewrite <- Hh, <- Hd; destruct b; eexists; split; reflexivity).
  all: try destruct b';
    unfold on_audit_progress, after_crawl, catch_handler;
    repeat match goal with
           | |- context [if ?c then _ else _] => destruct c
           end;
    exact H.
Qed.

Lemma stored_inv_resume r e s :
  match e with SummaryResolved _ ok => ok | _ => true end = true ->
  stored_inv r s ->
  stored_inv (snd (resume env r e s)) (fst (resume env r e s)).
Proof.
  intros Hok H. unfold stored_inv in *.
  run_cases r e Hpc.
  all: try exact I.
  all: try exact H.
  all: try (subst b; reflexivity).
  all: try destruct b';
    unfold on_audit_progress, after_crawl, catch_handler;
    repeat match goal with
           | |- context [if ?c then _ else _] => destruct c
           end;
    first [exact I | exact H].
Qed.

Lemma firstn_app_firstn {A} n (l l' : list A) :
  firstn n (l ++ firstn n l') = firstn n (l ++ l').
Proof.
  rewrite !firstn_app, firstn_firstn. f_equal. f_equal. lia.
Qed.

(** One scripted run that succeeds puts its record in front. *)
Lemma run_script_history a sc :
  succeeded a (run_script env a sc) = true ->
  exists record,
    ha_sitemapUrl record = w_url (fst sc) /\
    analysisHistory (store (run_script env a sc))
    = firstn 10 (record :: analysisHistory (store a)) /\
    (storage_ok sc = true ->
     storedHistory (store (run_script env a sc))
     = Value (analysisHistory (store (run_script env a sc)))).
Proof.
  destruct sc as [d evs]. unfold run_script, succeeded. cbn [fst snd].
  set (a1 := step env a EvNewAnalysis).
  assert (Hruns : runs a1 = runs a) by reflexivity.
  assert (Hhist : analysisHistory (store a1) = analysisHistory (store a))
    by reflexivity.
  assert (Hnew : forall x, new_run a x = new_run a1 x)
    by (intros x; unfold new_run; rewrite Hruns; reflexivity).
  rewrite Hnew. clearbody a1.
  destruct (snd (handleSubmit env d (store a1))) as [r|] eqn:Hs.
  2:{ rewrite (single_run_not_started env a1 d evs Hs). discriminate. }
  rewrite (single_run_started env a1 d r evs Hs), new_run_last. cbn [store].
  destruct (handleSubmit_run env d (store a1) r Hs) as (Hpc & Hd & Hh & _).
  assert (H0 : history_inv d (analysisHistory (store a)) r
                 (fst (handleSubmit env d (store a1)))).
  { unfold history_inv. rewrite Hpc, history_handleSubmit. rewrite <- Hhist.
    auto. }
  pose proof (run_exec_inv env (history_inv d (analysisHistory (store a)))
                (fun _ => True)
                (fun r s e _ => history_inv_resume d _ r e s)
                evs r _ (Forall_True evs) H0) as (_ & _ & H1).
  intros Hsucc.
  destruct (pc (snd (run_exec env r _ evs))) as [| | | | | | | |ph [|]] eqn:E;
    try discriminate Hsucc.
  destruct H1 as (record & Hrec & Hurl).
  exists record. split; [exact Hurl|]. split; [exact Hrec|].
  intros Hok.
  pose proof (run_exec_inv env stored_inv
                (fun e => match e with SummaryResolved _ ok => ok
                          | _ => true end = true)
                (fun r s e => stored_inv_resume r e s)
                evs r (fst (handleSubmit env d (store a1)))) as H2.
  assert (H3 : stored_inv
                 (snd (run_exec env r (fst (handleSubmit env d (store a1)))
                         evs))
                 (fst (run_exec env r (fst (handleSubmit env d (store a1)))
                         evs))).
  { apply H2.
    - unfold storage_ok in Hok. cbn [snd] in Hok.
      rewrite forallb_forall in Hok. apply Forall_forall. exact Hok.
    - unfold stored_inv. rewrite Hpc. exact I. }
  unfold stored_inv in H3. rewrite E in H3. exact H3.
Qed.

(** Whatever else has happened meanwhile, the summary of a run puts its
    record in front of the history the run captured. *)
Lemma summary_records a i r sum ok :
  nth_error (runs a) i = Some r ->
  awaits_summary (pc r) = true ->
  exists record,
    analysisHistory (store (step env a (EvRun i (SummaryResolved sum ok))))
    = firstn 10 (record :: c_analysisHistory r).
Proof.
  intros Hr Hp. rewrite (step_run env a i r _ Hr). cbn [store].
  unfold resume. destruct (pc r); try discriminate Hp;
    eexists; destruct ok; reflexivity.
Qed.

End History.

(** C7 on the code: the recorder does not prepend to the history list but
    to the copy of it that [handleSubmit] captured when the run was
    submitted.  When the history is cleared while a run is in flight (the
    list is empty and the key removed), the summary of that run brings the
    two cleared records back, behind its own, in memory and in storage.
    When a second run finishes before a first one that is still in flight,
    the history holds the second run's record, and the summary of the
    first run replaces it: the list is the first run's record alone, and
    the record of the other successful run is lost. *)
Theorem C7_history_is_rebuilt_from_a_stale_copy :
  (analysisHistory (store cleared_during_run) = [] /\
   storedHistory (store cleared_during_run) = Missing /\
   let a := step env0 cleared_during_run
              (EvRun 0 (SummaryResolved "summary"%string true)) in
   map ha_sitemapUrl (analysisHistory (store a))
   = ["https://example.com"; "https://example.com"; "https://example.org"]
     %string /\
   tl (analysisHistory (store a)) = two_records /\
   storedHistory (store a) = Value (analysisHistory (store a))) /\
  (map ha_sitemapUrl (analysisHistory (store second_finished_first))
   = ["https://example.org"%string] /\
   let a := step env0 second_finished_first
              (EvRun 0 (SummaryResolved "summary"%string true)) in
   map ha_sitemapUrl (analysisHistory (store a))
   = ["https://example.com"%string] /\
   storedHistory (store a) = Value (analysisHistory (store a)) /\
   option_map pc (nth_error (runs a) 0) = Some (Returned PhHitSummary true) /\
   option_map pc (nth_error (runs a) 1) = Some (Returned PhHitSummary true)).
Proof. vm_compute. repeat split; reflexivity. Qed.

(** Runs that follow one another, each submitted after the one before has
    returned: the summary of a run sets the history to the run's record in
    front of the history the run captured at submission, cut to ten, so
    after one or more such runs the history is the first ten of the
    records of these runs, most recent first, followed by the history
    they started from; when every storage write succeeds, the persisted
    list is the same list; and after eleven runs the list has exactly ten
    records. *)
Theorem successive_runs_keep_the_ten_most_recent (env : Env)
    (scs : list Script) (a : App) :
  all_succeeded env a scs = true ->
  scs <> [] ->
  (forall a0 i r summary ok,
      nth_error (runs a0) i = Some r ->
      awaits_summary (pc r) = true ->
      exists record,
        analysisHistory
          (store (step env a0 (EvRun i (SummaryResolved summary ok))))
        = firstn 10 (record :: c_analysisHistory r)) /\
  let a' := session env a scs in
  exists records,
    map ha_sitemapUrl records = map (fun sc => w_url (fst sc)) scs /\
    analysisHistory (store a')
    = firstn 10 (rev records ++ analysisHistory (store a)) /\
    (forallb storage_ok scs = true ->
     storedHistory (store a') = Value (analysisHistory (store a'))) /\
    (List.length scs = 11%nat ->
     List.length (analysisHistory (store a')) = 10%nat /\
     analysisHistory (store a') = firstn 10 (rev records)).
Proof.
  intros Hall Hne. split; [apply summary_records|]. cbv zeta.
  assert (Main : exists records,
      map ha_sitemapUrl records = map (fun sc => w_url (fst sc)) scs /\
      analysisHistory (store (session env a scs))
      = firstn 10 (rev records ++ analysisHistory (store a)) /\
      (forallb storage_ok scs = true ->
       storedHistory (store (session env a scs))
       = Value (analysisHistory (store (session env a scs))))).
  { revert a Hall Hne. induction scs as [|sc rest IH]; intros a Hall Hne;
      [congruence|].
    cbn [all_succeeded] in Hall. apply andb_prop in Hall as [H1 Hrest].
    destruct (run_script_history env a sc H1) as (rec & Hurl & Hh & Hst).
    cbn [session]. destruct rest as [|sc2 rest'].
    - exists [rec]. cbn [map rev app session forallb].
      rewrite Hurl. repeat split; [exact Hh|].
      intros Hok. apply andb_prop in Hok as [Hok _]. auto.
    - destruct (IH (run_script env a sc) Hrest) as (recs & Hm & Hh' & Hst');
        [discriminate|].
      exists (rec :: recs). cbn [map rev]. rewrite Hurl, Hm.
      split; [reflexivity|]. split.
      + rewrite Hh', Hh, firstn_app_firstn, <- app_assoc. reflexivity.
      + intros Hok. cbn [forallb] in Hok.
        apply andb_prop in Hok as [_ Hok]. auto. }
  destruct Main as (records & Hm & Hh & Hst).
  exists records.
  split; [exact Hm|]. split; [exact Hh|]. split; [exact Hst|].
  intros Hlen.
  assert (Hl : List.length (rev records) = 11%nat).
  { rewrite length_rev, <- (length_map ha_sitemapUrl), Hm, length_map.
    exact Hlen. }
  rewrite Hh, firstn_app, Hl. change (10 - 11)%nat with 0%nat.
  rewrite firstn_O, app_nil_r.
  split; [|reflexivity]. rewrite length_firstn. lia.
Qed.

Lemma successive_runs_keep_the_ten_most_recent_example :
  (forall a0 i r summary ok,
      nth_error (runs a0) i = Some r ->
      awaits_summary (pc r) = true ->
      exists record,
        analysisHistory
          (store (step env0 a0 (EvRun i (SummaryResolved summary ok))))
        = firstn 10 (record :: c_analysisHistory r)) /\
  let a' := session env0 app0 eleven_scripts in
  exists records,
    map ha_sitemapUrl records
    = map (fun sc => w_url (fst sc)) eleven_scripts /\
    analysisHistory (store a')
    = firstn 10 (rev records ++ analysisHistory (store app0)) /\
    (forallb storage_ok eleven_scripts = true ->
     storedHistory (store a') = Value (analysisHistory (store a'))) /\
    (List.length eleven_scripts = 11%nat ->
     List.length (analysisHistory (store a')) = 10%nat /\
     analysisHistory (store a') = firstn 10 (rev records)).
Proof.
  apply (successive_runs_keep_the_ten_most_recent env0 eleven_scripts app0).
  - vm_compute. reflexivity.
  - discriminate.
Defined.

(** ** C8: assignments to the partial results *)

Section Writes.

Variable env : Env.


Ltac prefix_tac :=
  first [ left; exists 0%nat; reflexivity | left; exists 1%nat; reflexivity
        | left; exists 2%nat; reflexivity | left; exists 4%nat; reflexivity
        | left; exists 5%nat; reflexivity | left; exists 6%nat; reflexivity
        | right; exists 4%nat; reflexivity | right; exists 5%nat; reflexivity
        | right; exists 6%nat; reflexivity ].

Lemma writes_ok_resume r e s :
  writes_ok (pc r) (partialResultsWrites s) ->
  writes_ok (pc (snd (resume env r e s)))
    (partialResultsWrites (fst (resume env r e s))).
Proof.
  intros H. run_cases r e Hpc.
  all: unfold writes_ok in *.
  all: try exact H.
  all: unfold on_audit_progress, after_crawl, catch_handler;
    rewrite ?Hempty;
    repeat match goal with
           | |- context [if ?c then _ else _] => destruct c
           end;
    try exact H.
  all: try destruct b; destruct s; cbn [partialResultsWrites] in H; subst;
    first [ reflexivity | prefix_tac ].
Qed.


Lemma writes_handleSubmit d s r :
  snd (handleSubmit env d s) = Some r ->
  partialResults (fst (handleSubmit env d s)) = pr_empty /\
  partialResultsWrites (fst (handleSubmit env d s)) = [].
Proof.
  unfold handleSubmit.
  destruct (negb _); [discriminate|].
  destruct (aiConfig s); [|discriminate].
  destruct (parseURL env _); [|discriminate].
  intros _. split; reflexivity.
Qed.

Lemma count_prefix f k l :
  (count_writes f (firstn k l) <= count_writes f l)%nat.
Proof.
  unfold count_writes. revert k. induction l as [|x l IH]; intros [|k];
    cbn; try lia.
  specialize (IH k). destruct (PRField_eqb f x); cbn; lia.
Qed.

Lemma writes_ok_bound p w f :
  writes_ok p w -> (count_writes f w <= write_bound f)%nat.
Proof.
  intros H.
  assert (Hp : (exists k, w = firstn k miss_writes) \/
               (exists k, w = firstn k hit_writes)).
  { destruct p; cbn [writes_ok] in H; try exact H;
      first [ left; eexists; exact H | right; eexists; exact H
            | left; exists 0%nat; exact H ]. }
  destruct Hp as [[k ->]|[k ->]].
  - etransitivity; [apply count_prefix|]. destruct f; cbn; lia.
  - etransitivity; [apply count_prefix|]. destruct f; cbn; lia.
Qed.


Lemma keeps_refl {A} (x : option A) : keeps x x.
Proof. intros v H; exact H. Qed.

Lemma keeps_none {A} (y : option A) : keeps None y.
Proof. intros v H; discriminate H. Qed.

Lemma pr_kept_refl p : pr_kept p p.
Proof. unfold pr_kept; repeat split; apply keeps_refl. Qed.

Ltac kept_tac :=
  unfold pr_kept; cbn;
  repeat split; first [ apply keeps_refl | apply keeps_none ].

Lemma pr_shape_resume r e s :
  pr_shape (pc r) (partialResults s) ->
  pr_shape (pc (snd (resume env r e s)))
    (partialResults (fst (resume env r e s))) /\
  pr_kept (partialResults s) (partialResults (fst (resume env r e s))).
Proof.
  intros H. run_cases r e Hpc.
  all: unfold pr_shape in *.
  all: try (split; [exact H | apply pr_kept_refl]).
  all: try (split; [exact I | apply pr_kept_refl]).
  all: unfold on_audit_progress, after_crawl, catch_handler;
    rewrite ?Hempty;
    repeat match goal with
           | |- context [if ?c then _ else _] => destruct c
           end;
    try (split; [first [exact H | exact I] | apply pr_kept_refl]).
  all: try destruct b; destruct s as [? ? ? ? ? ? ? ? x ? ? ? ? ? ? ? ?];
    cbn [partialResults] in H; eval_store;
    try (subst x);
    repeat match goal with H : _ /\ _ |- _ => destruct H end;
    try (destruct x); cbn in *; subst;
    (split; [repeat split; auto | kept_tac]).
Qed.

End Writes.

(** C8, as stated, fails: on the cache-hit path [urlsDiscovered] is
    assigned after the crawl and again when the accumulator is replaced. *)
Lemma C8_cache_hit_assigns_urlsDiscovered_twice : ~ set_once_claim env0.
Proof.
  intros H.
  specialize (H app0 d0 crawling_run cached_run_events).
  assert (Hs : starts_run env0 app0 d0 crawling_run)
    by (vm_compute; reflexivity).
  specialize (H Hs). vm_compute in H.
  inversion H as [|x l Hnotin _]; subst.
  apply Hnotin. right. right. left. reflexivity.
Qed.

(** C8, amended: the submission that starts a run leaves the accumulator
    empty; through any sequence of events of the run every field is
    assigned at most once, except [urlsDiscovered], which is assigned at
    most twice (the cache-hit path assigns it again when it replaces the
    accumulator); and no event of the run changes or unsets a field that is
    populated. *)
Theorem C8_partial_results_assignments (env : Env) (a : App)
    (d : WizardSubmitData) (r : Run) (evs : list RunEvent) (e : RunEvent)
    (f : PRField) :
  starts_run env a d r ->
  partialResults (store (step env a (EvSubmit d))) = pr_empty /\
  partialResultsWrites (store (step env a (EvSubmit d))) = [] /\
  (count_writes f (partialResultsWrites (store (single_run env a d evs)))
   <= write_bound f)%nat /\
  pr_kept (partialResults (store (single_run env a d evs)))
          (partialResults (store (single_run env a d (evs ++ [e])))).
Proof.
  intros Hstart.
  destruct (writes_handleSubmit env d (store a) r Hstart) as [He Hw].
  destruct (handleSubmit_run env d (store a) r Hstart) as (Hpc & _).
  assert (Hstep : store (step env a (EvSubmit d))
                  = fst (handleSubmit env d (store a))).
  { cbn [step]. destruct (handleSubmit env d (store a)) as [s [r0|]];
      reflexivity. }
  rewrite Hstep. split; [exact He|]. split; [exact Hw|].
  rewrite !(single_run_started env a d r) by exact Hstart. cbn [store].
  split.
  - eapply writes_ok_bound.
    apply (run_exec_inv env
             (fun r s => writes_ok (pc r) (partialResultsWrites s))
             (fun _ => True)).
    + intros r0 s0 e0 _. apply writes_ok_resume.
    + apply Forall_True.
    + rewrite Hpc, Hw. reflexivity.
  - rewrite run_exec_app. cbn [run_exec].
    set (r1 := snd (run_exec env r _ evs)).
    set (s1 := fst (run_exec env r _ evs)).
    assert (Hshape : pr_shape (pc r1) (partialResults s1)).
    { apply (run_exec_inv env
               (fun r s => pr_shape (pc r) (partialResults s))
               (fun _ => True)).
      - intros r0 s0 e0 _ H0. apply (pr_shape_resume env r0 e0 s0 H0).
      - apply Forall_True.
      - rewrite Hpc, He. reflexivity. }
    pose proof (proj2 (pr_shape_resume env r1 e s1 Hshape)) as Hk.
    destruct (resume env r1 e s1) as [s2 r2]. exact Hk.
Qed.

Lemma C8_partial_results_assignments_witness :
  partialResults (store (step env0 app0 (EvSubmit d0))) = pr_empty /\
  partialResultsWrites (store (step env0 app0 (EvSubmit d0))) = [] /\
  (count_writes FUrlsDiscovered
     (partialResultsWrites
        (store (single_run env0 app0 d0 cached_run_events)))
   <= write_bound FUrlsDiscovered)%nat /\
  pr_kept
    (partialResults (store (single_run env0 app0 d0 cached_run_events)))
    (partialResults
       (store (single_run env0 app0 d0
                 (cached_run_events ++ [Rejected OtherValue])))).
Proof.
  apply (C8_partial_results_assignments env0 app0 d0 crawling_run
           cached_run_events (Rejected OtherValue) FUrlsDiscovered).
  vm_compute. reflexivity.
Defined.

(** ** C1: results that arrive after a cancellation *)

(** C1, as stated, fails: the crawl promise of a cancelled run, resolving
    after [handleCancelAnalysis], marks the crawl stage of the reset
    pipeline complete. *)
Lemma C1_late_crawl_result_mutates_reset_state :
  ~ stale_results_dropped env0.
Proof.
  intros H.
  specialize (H crawling_app 0%nat
                (CrawlResolved ["https://example.com/a"%string])).
  assert (Hr : reachable env0 crawling_app)
    by (exists Missing, (Value "cfg"%string), [EvSubmit d0]; reflexivity).
  specialize (H Hr). cbv zeta in H.
  apply (f_equal (fun o => map status (fst (fst o)))) in H.
  vm_compute in H. discriminate H.
Qed.

(** C1 on the code: [handleCancelAnalysis] leaves the pipeline in the reset
    state (the seven stages pending with progress 0, an empty log, an empty
    accumulator) and aborts the controller, but the signal is handed to no
    collaborator and no update carries a run identifier: whatever the
    state, when the crawl promise of a run started before the cancellation
    resolves afterwards, the run goes on in the reset state: the crawl
    stage is marked complete, [urlsDiscovered] is recorded and log entries
    are appended.  The guard against stale results is missing. *)
Theorem C1_cancel_resets_and_late_crawl_result_is_applied (env : Env)
    (a : App) (i : nat) (r : Run) (urls : list string) :
  nth_error (runs a) i = Some r ->
  pc r = AwaitCrawl ->
  let c := step env a EvCancel in
  observable (store c) = (initial_stages, [], pr_empty) /\
  let c' := step env c (EvRun i (CrawlResolved urls)) in
  stage_status "crawl" (store c') = Some StComplete /\
  pr_urlsDiscovered (partialResults (store c')) = Some (List.length urls) /\
  activityLog (store c') <> [].
Proof.
  intros Hr Hpc. destruct a as [s rs]. cbn [runs] in Hr. cbv zeta.
  change (step env (mkApp s rs) EvCancel)
    with (mkApp (handleCancelAnalysis env s) rs).
  split; [reflexivity|].
  rewrite (step_run env (mkApp (handleCancelAnalysis env s) rs) i r _ Hr).
  cbn [store].
  unfold resume. rewrite Hpc.
  unfold stage_status, find_stage, after_crawl.
  destruct (Nat.eqb _ _); unfold catch_handler;
    destruct (c_isCancelling r); destruct s; eval_store;
    repeat (rewrite find_map_upd || rewrite find_map_fail);
    repeat split; try reflexivity; try discriminate.
  all: cbn; discriminate.
Qed.

Lemma C1_cancel_resets_and_late_crawl_result_is_applied_witness :
  let c := step env0 crawling_app EvCancel in
  observable (store c) = (initial_stages, [], pr_empty) /\
  let c' := step env0 c
              (EvRun 0 (CrawlResolved ["https://example.com/a"%string])) in
  stage_status "crawl" (store c') = Some StComplete /\
  pr_urlsDiscovered (partialResults (store c')) = Some 1%nat /\
  activityLog (store c') <> [].
Proof.
  apply (C1_cancel_resets_and_late_crawl_result_is_applied env0 crawling_app
           0 crawling_run ["https://example.com/a"%string]).
  - vm_compute. reflexivity.
  - reflexivity.
Defined.

(** ** The stage list, from the catalogue on *)

Lemma evolves_trans l1 l2 l3 :
  evolves l1 l2 -> evolves l2 l3 -> evolves l1 l3.
Proof.
  intros H12 H23. induction H23.
  - exact H12.
  - apply ev_update; assumption.
  - apply ev_fail; assumption.
  - apply ev_reset.
Qed.

(** A property of stage lists that the catalogue has and the updaters keep
    holds of every list that comes from one that has it. *)
Lemma evolves_inv (I : list PipelineStage -> Prop) :
  I initial_stages ->
  (forall id u x, stage_update id u -> I x ->
     I (map (fun st => if String.eqb (stage_id st) id
                       then merge_updates st u else st) x)) ->
  (forall x, I x -> I (map fail_running x)) ->
  forall l l', evolves l l' -> I l -> I l'.
Proof.
  intros H0 Hu Hf l l' H Hl. induction H; auto.
Qed.

(** Peels the updaters off an evaluated stage list. *)
Ltac evolve :=
  repeat lazymatch goal with
  | |- evolves _ (map fail_running _) => apply ev_fail
  | |- evolves _ (map (fun st => if String.eqb (stage_id st) _
                                 then merge_updates st _ else st) _) =>
      apply ev_update;
      [|first [apply su_running | apply su_complete | apply su_progress
              | apply su_task; cbn; tauto]]
  | |- evolves _ initial_stages => apply ev_reset
  | |- evolves ?l ?l => apply ev_refl
  end.

Section StageList.

Variable env : Env.

Lemma evolves_handleSubmit d s :
  evolves (pipelineStages s) (pipelineStages (fst (handleSubmit env d s))).
Proof.
  unfold handleSubmit.
  destruct (negb _); [apply ev_refl|].
  destruct (aiConfig s); [|apply ev_refl].
  destruct (parseURL env _); [|apply ev_refl].
  destruct s. eval_store. evolve.
Qed.

Lemma evolves_resume r e s :
  evolves (pipelineStages s) (pipelineStages (fst (resume env r e s))).
Proof.
  destruct s.
  run_cases r e Hpc; try apply ev_refl;
    try (unfold on_audit_progress; destruct (JS.includes _ _));
    try (unfold after_crawl; destruct (Nat.eqb _ _));
    try (unfold catch_handler; destruct (c_isCancelling r));
    try (unfold after_summary, after_hit_summary, record_history;
         destruct b);
    eval_store; evolve.
Qed.

Lemma evolves_step a e :
  evolves (pipelineStages (store a))
          (pipelineStages (store (step env a e))).
Proof.
  destruct e as [d| | | |c b| |i ev]; cbn [step].
  - pose proof (evolves_handleSubmit d (store a)) as H.
    destruct (handleSubmit env d (store a)) as [s [r|]]; exact H.
  - destruct (store a) as [? ? ? ? ? ? ? ? ? ? ? ? [ab|] ? ? ? ?];
      cbn [store]; eval_store; evolve.
  - destruct (store a); cbn [store]; eval_store; evolve.
  - destruct (store a); cbn [store]; unfold handleClearHistory;
      eval_store; evolve.
  - destruct b; apply ev_refl.
  - apply ev_refl.
  - destruct (nth_error (runs a) i) as [r|]; [|apply ev_refl].
    pose proof (evolves_resume r ev (store a)) as H.
    destruct (resume env r ev (store a)). exact H.
Qed.

Lemma stages_mount h c :
  pipelineStages (store (mount env h c)) = initial_stages.
Proof.
  unfold mount, mountEffect; cbn [store].
  destruct c as [|cfg|]; destruct h as [|[|h0 hs]|]; reflexivity.
Qed.

Lemma evolves_exec evs : forall a,
  evolves (pipelineStages (store a))
          (pipelineStages (store (exec env a evs))).
Proof.
  induction evs as [|e evs IH]; intros a; [apply ev_refl|].
  rewrite exec_cons. eapply evolves_trans; [apply evolves_step|apply IH].
Qed.

Lemma reachable_evolves a :
  reachable env a -> evolves initial_stages (pipelineStages (store a)).
Proof.
  intros (h & c & evs & ->). rewrite <- (stages_mount h c).
  apply evolves_exec.
Qed.

End StageList.

Lemma stage_key_merge st u : stage_key (merge_updates st u) = stage_key st.
Proof. reflexivity. Qed.

Lemma stage_key_fail st : stage_key (fail_running st) = stage_key st.
Proof. unfold fail_running. destruct (status_eqb _ _); reflexivity. Qed.

(** ** The catalogue is kept *)

Lemma stages_keep_catalogue l l' :
  evolves l l' ->
  map stage_key l = PIPELINE_STAGE_DEFINITIONS ->
  map stage_key l' = PIPELINE_STAGE_DEFINITIONS.
Proof.
  apply (evolves_inv
           (fun x => map stage_key x = PIPELINE_STAGE_DEFINITIONS)).
  - reflexivity.
  - intros id u x _ H. rewrite map_map, <- H. apply map_ext.
    intros st. destruct (String.eqb _ _); reflexivity.
  - intros x H. rewrite map_map, <- H. apply map_ext, stage_key_fail.
Qed.

Lemma reachable_catalogue env a :
  reachable env a ->
  map stage_key (pipelineStages (store a)) = PIPELINE_STAGE_DEFINITIONS.
Proof.
  intros H. apply (stages_keep_catalogue initial_stages).
  - apply (reachable_evolves env), H.
  - reflexivity.
Qed.

Lemma reachable_ids env a :
  reachable env a -> map stage_id (pipelineStages (store a)) = stage_ids.
Proof.
  intros H. unfold stage_ids. rewrite <- (reachable_catalogue env a H).
  rewrite map_map. reflexivity.
Qed.

(** X1: The stage list always consists of the seven catalogue stages, in
    catalogue order, with the catalogue's names and descriptions: no
    operation adds, removes, reorders or renames a stage. *)
Theorem stage_list_is_the_catalogue (env : Env) (a : App) :
  reachable env a ->
  map stage_key (pipelineStages (store a)) = PIPELINE_STAGE_DEFINITIONS /\
  map stage_id (pipelineStages (store a))
  = ["crawl"; "rank"; "competitor"; "technical"; "content"; "actionplan";
     "summary"]%string /\
  List.length (pipelineStages (store a)) = 7%nat.
Proof.
  intros H. split; [apply (reachable_catalogue env), H|].
  pose proof (reachable_ids env a H) as Hi. split; [exact Hi|].
  rewrite <- (length_map stage_id), Hi. reflexivity.
Qed.

Lemma stage_list_is_the_catalogue_witness :
  map stage_key (pipelineStages (store cache_hit_app))
  = PIPELINE_STAGE_DEFINITIONS /\
  map stage_id (pipelineStages (store cache_hit_app))
  = ["crawl"; "rank"; "competitor"; "technical"; "content"; "actionplan";
     "summary"]%string /\
  List.length (pipelineStages (store cache_hit_app)) = 7%nat.
Proof.
  apply (stage_list_is_the_catalogue env0 cache_hit_app).
  exists Missing, (Value "cfg"%string), cache_hit_trace. reflexivity.
Defined.

(** ** [updateStage] touches the stage it names *)

Lemma map_update_absent id u (l : list PipelineStage) :
  ~ In id (map stage_id l) ->
  map (fun st => if String.eqb (stage_id st) id
                 then merge_updates st u else st) l = l.
Proof.
  induction l as [|st l IH]; intros H; [reflexivity|].
  cbn [map]. destruct (String.eqb (stage_id st) id) eqn:E.
  - apply String.eqb_eq in E. exfalso. apply H. left. exact E.
  - f_equal. apply IH. intros Hin. apply H. right. exact Hin.
Qed.

Lemma store_eta s : set_pipelineStages (pipelineStages s) s = s.
Proof. destruct s; reflexivity. Qed.

Lemma map_update_unique id u (l : list PipelineStage) :
  NoDup (map stage_id l) -> In id (map stage_id l) ->
  exists l1 st l2,
    l = l1 ++ st :: l2 /\ stage_id st = id /\
    map (fun st => if String.eqb (stage_id st) id
                   then merge_updates st u else st) l
    = l1 ++ merge_updates st u :: l2.
Proof.
  intros Hnd Hin. apply in_map_iff in Hin. destruct Hin as (st & Hid & Hst).
  apply in_split in Hst. destruct Hst as (l1 & l2 & ->).
  exists l1, st, l2. split; [reflexivity|]. split; [exact Hid|].
  rewrite map_app in Hnd. cbn [map] in Hnd.
  pose proof (NoDup_remove_2 _ _ _ Hnd) as Hout. rewrite Hid in Hout.
  rewrite map_app. cbn [map]. rewrite Hid, String.eqb_refl.
  rewrite !map_update_absent; [reflexivity| |];
    intros Hin; apply Hout, in_or_app; [right|left]; exact Hin.
Qed.

(** X2: In every reachable state, [updateStage] with an id that is not in the
    catalogue changes nothing, and with a catalogue id it replaces exactly
    one stage, the one with that id, by its merge with the updates; all
    other stages and their order are as before. *)
Theorem updateStage_touches_one_stage (env : Env) (a : App)
    (id : string) (u : StageUpdates) :
  reachable env a ->
  (~ In id stage_ids -> updateStage id u (store a) = store a) /\
  (In id stage_ids ->
   exists l1 st l2,
     pipelineStages (store a) = l1 ++ st :: l2 /\ stage_id st = id /\
     pipelineStages (updateStage id u (store a))
     = l1 ++ merge_updates st u :: l2).
Proof.
  intros H. pose proof (reachable_ids env a H) as Hi. split; intros Hid.
  - unfold updateStage. rewrite map_update_absent; [apply store_eta|].
    rewrite Hi. exact Hid.
  - unfold updateStage.
    replace (pipelineStages (set_pipelineStages _ _))
      with (map (fun st => if String.eqb (stage_id st) id
                           then merge_updates st u else st)
                (pipelineStages (store a)))
      by (destruct (store a); reflexivity).
    apply map_update_unique; rewrite Hi; [|exact Hid].
    unfold stage_ids. cbn.
    repeat (constructor; [cbn; intuition discriminate|]). constructor.
Qed.

Lemma updateStage_touches_one_stage_witness :
  (~ In "publish"%string stage_ids ->
   updateStage "publish" (upd_complete 5) (store cache_hit_app)
   = store cache_hit_app) /\
  (In "publish"%string stage_ids ->
   exists l1 st l2,
     pipelineStages (store cache_hit_app) = l1 ++ st :: l2 /\
     stage_id st = "publish"%string /\
     pipelineStages
       (updateStage "publish" (upd_complete 5) (store cache_hit_app))
     = l1 ++ merge_updates st (upd_complete 5) :: l2).
Proof.
  apply (updateStage_touches_one_stage env0 cache_hit_app).
  exists Missing, (Value "cfg"%string), cache_hit_trace. reflexivity.
Defined.

(** ** Fields of a stage *)

Lemma fields_ok_fail st : stage_fields_ok st -> stage_fields_ok (fail_running st).
Proof.
  unfold fail_running. destruct (status_eqb (status st) StRunning) eqn:E;
    [|auto].
  intros [H1 H2]. split; cbn; [discriminate|].
  intros Hid. destruct (H2 Hid) as (Hi & Ht & Hp & _ & _).
  repeat split; try assumption; discriminate.
Qed.

Lemma fields_ok_update id u st :
  stage_update id u -> stage_id st = id ->
  stage_fields_ok st -> stage_fields_ok (merge_updates st u).
Proof.
  intros Hu Hid [H1 H2]. destruct Hu as [id task t|id t|id msg Hin|q p].
  - split; cbn; [discriminate|]. intros Hc.
    destruct (H2 Hc) as (Hi & Ht & Hp & _ & _).
    repeat split; try assumption; discriminate.
  - split; cbn; [discriminate|]. intros Hc.
    destruct (H2 Hc) as (Hi & Ht & _).
    repeat split; try assumption; try discriminate. right. reflexivity.
  - split; cbn; [exact H1|exact H2].
  - split; cbn; [exact H1|]. intros Hc. exfalso. apply Hc. exact Hid.
Qed.

Lemma reachable_fields_ok env a :
  reachable env a -> Forall stage_fields_ok (pipelineStages (store a)).
Proof.
  intros H. apply (evolves_inv (Forall stage_fields_ok)) with
    (l := initial_stages); [| | |apply (reachable_evolves env), H|].
  - repeat constructor; cbn; auto; discriminate.
  - intros id u x Hu Hx. apply Forall_map. revert Hx. apply Forall_impl.
    intros st Hst. destruct (String.eqb (stage_id st) id) eqn:E; [|exact Hst].
    apply String.eqb_eq in E. apply (fields_ok_update id); assumption.
  - intros x Hx. apply Forall_map. revert Hx. apply Forall_impl.
    intros st. apply fields_ok_fail.
  - repeat constructor; cbn; auto; discriminate.
Qed.

(** X3: In every reachable state a pending stage carries neither a start nor
    an end time, and a stage other than the crawl stage has no item
    counters and a progress of exactly 0 or 100: 0 while it is pending,
    100 once it is complete.  Only the crawl stage ever shows fractional
    progress or item counts. *)
Theorem stage_fields_invariant (env : Env) (a : App) (st : PipelineStage) :
  reachable env a ->
  In st (pipelineStages (store a)) ->
  (status st = StPending -> startTime st = None /\ endTime st = None) /\
  (stage_id st <> "crawl"%string ->
   itemsProcessed st = None /\ totalItems st = None /\
   (progress st = 0%Q \/ progress st = 100%Q) /\
   (status st = StPending -> progress st = 0%Q) /\
   (status st = StComplete -> progress st = 100%Q)).
Proof.
  intros H Hin. pose proof (reachable_fields_ok env a H) as HF.
  rewrite Forall_forall in HF. exact (HF st Hin).
Qed.

Lemma stage_fields_invariant_witness :
  let st := hd crawl_rejected_stage
              (tl (pipelineStages (store cache_hit_app))) in
  (status st = StPending -> startTime st = None /\ endTime st = None) /\
  (stage_id st <> "crawl"%string ->
   itemsProcessed st = None /\ totalItems st = None /\
   (progress st = 0%Q \/ progress st = 100%Q) /\
   (status st = StPending -> progress st = 0%Q) /\
   (status st = StComplete -> progress st = 100%Q)).
Proof.
  apply (stage_fields_invariant env0 cache_hit_app).
  - exists Missing, (Value "cfg"%string), cache_hit_trace. reflexivity.
  - vm_compute. right. left. reflexivity.
Defined.

(** ** Progress callbacks *)

Lemma timeline_task id msg (l : list PipelineStage) :
  map stage_timeline
      (map (fun st => if String.eqb (stage_id st) id
                      then merge_updates st (upd_task msg) else st) l)
  = map stage_timeline l.
Proof.
  rewrite map_map. apply map_ext. intros st.
  destruct (String.eqb _ _); reflexivity.
Qed.

Lemma timeline_progress id q p (l : list PipelineStage) :
  map stage_timeline
      (map (fun st => if String.eqb (stage_id st) id
                      then merge_updates st (upd_crawl_progress q p)
                      else st) l)
  = map stage_timeline l.
Proof.
  rewrite map_map. apply map_ext. intros st.
  destruct (String.eqb _ _); reflexivity.
Qed.

(** X4: A progress callback of a collaborator only reports: whatever the run
    and the store, it leaves the run where it is and changes no stage's
    status, start time or end time, nor the partial results, the
    application state, the error, the history or its persisted copy; the
    log grows by at most one entry. *)
Theorem progress_callbacks_only_report (env : Env) (r : Run)
    (e : RunEvent) (s : Store) :
  is_callback e = true ->
  snd (resume env r e s) = r /\
  map stage_timeline (pipelineStages (fst (resume env r e s)))
  = map stage_timeline (pipelineStages s) /\
  partialResults (fst (resume env r e s)) = partialResults s /\
  appState (fst (resume env r e s)) = appState s /\
  error_ (fst (resume env r e s)) = error_ s /\
  analysisHistory (fst (resume env r e s)) = analysisHistory s /\
  storedHistory (fst (resume env r e s)) = storedHistory s /\
  exists l, activityLog (fst (resume env r e s)) = activityLog s ++ l /\
            (List.length l <= 1)%nat.
Proof.
  intros He. destruct s.
  destruct e; try discriminate He; unfold resume;
    destruct (pc r) as [| | | | | | | |last b']; cbn [phase_of fanout_issued plan_issued];
    try (destruct (fanout_issued last));
    try (destruct (plan_issued last));
    try (unfold on_audit_progress; destruct (JS.includes _ _));
    eval_store;
    rewrite ?timeline_task, ?timeline_progress;
    (repeat split;
     first [ exists []; split; [symmetry; apply app_nil_r|cbn; lia]
           | eexists; split; [reflexivity|cbn; lia] ]).
Qed.

Lemma progress_callbacks_only_report_witness :
  let r := crawling_run in
  let e := CrawlProgressCb (mkCrawlProgress 1 2 None) in
  let s := store crawling_app in
  snd (resume env0 r e s) = r /\
  map stage_timeline (pipelineStages (fst (resume env0 r e s)))
  = map stage_timeline (pipelineStages s) /\
  partialResults (fst (resume env0 r e s)) = partialResults s /\
  appState (fst (resume env0 r e s)) = appState s /\
  error_ (fst (resume env0 r e s)) = error_ s /\
  analysisHistory (fst (resume env0 r e s)) = analysisHistory s /\
  storedHistory (fst (resume env0 r e s)) = storedHistory s /\
  exists l, activityLog (fst (resume env0 r e s)) = activityLog s ++ l /\
            (List.length l <= 1)%nat.
Proof.
  apply (progress_callbacks_only_report env0 crawling_run
           (CrawlProgressCb (mkCrawlProgress 1 2 None)) (store crawling_app)).
  reflexivity.
Defined.

(** ** The activity log is append-only while runs proceed *)

Section Log.

Variable env : Env.

Lemma log_resume r e s :
  exists l, activityLog (fst (resume env r e s)) = activityLog s ++ l.
Proof.
  destruct s.
  run_cases r e Hpc;
    try (unfold on_audit_progress; destruct (JS.includes _ _));
    try (unfold after_crawl; destruct (Nat.eqb _ _));
    try (unfold catch_handler; destruct (c_isCancelling r));
    try (unfold after_summary, after_hit_summary, record_history;
         destruct b);
    eval_store; rewrite <- ?app_assoc;
    first [ exists []; symmetry; apply app_nil_r
          | eexists; reflexivity ].
Qed.

Lemma log_step a i e :
  exists l,
    activityLog (store (step env a (EvRun i e))) = activityLog (store a) ++ l.
Proof.
  cbn [step]. destruct (nth_error (runs a) i) as [r|].
  - pose proof (log_resume r e (store a)) as H.
    destruct (resume env r e (store a)). exact H.
  - exists []. symmetry. apply app_nil_r.
Qed.

End Log.

Section Display.

Variable env : Env.

(** An event of a run leaves the configuration alone, and it leaves the
    application state, the selection and the history alone, or fails the
    run, or ends with a record on display. *)
Lemma display_resume r e s :
  aiConfig (fst (resume env r e s)) = aiConfig s /\
  ((appState (fst (resume env r e s)) = appState s /\
    selectedAnalysisId (fst (resume env r e s)) = selectedAnalysisId s /\
    analysisHistory (fst (resume env r e s)) = analysisHistory s) \/
   appState (fst (resume env r e s)) = AppError \/
   analysisToDisplay (fst (resume env r e s)) <> None).
Proof.
  destruct s. unfold analysisToDisplay.
  run_cases r e Hpc;
    try (unfold on_audit_progress; destruct (JS.includes _ _));
    try (unfold after_crawl; destruct (Nat.eqb _ _));
    try (unfold catch_handler; destruct (c_isCancelling r));
    try (unfold after_summary, after_hit_summary, record_history;
         destruct b);
    eval_store; (split; [reflexivity|]);
    first [ left; repeat split; reflexivity
          | right; left; reflexivity
          | right; right; cbn [firstn find ha_id]; rewrite Z.eqb_refl;
            discriminate ].
Qed.

Lemma displayable_renders s : displayable s -> renderContent env s = s.
Proof.
  intros [Hc Hd]. unfold renderContent.
  destruct (appState s); try reflexivity.
  destruct (analysisToDisplay s); [|exfalso; apply Hd; reflexivity].
  destruct (aiConfig s); [reflexivity|contradiction].
Qed.

Lemma displayable_resume r e s :
  displayable s -> displayable (fst (resume env r e s)).
Proof.
  intros [Hc Hd]. destruct (display_resume r e s) as [Ec H].
  split; [rewrite Ec; exact Hc|].
  destruct H as [(Ea & Es & Eh)|[H|H]].
  - unfold analysisToDisplay in *. rewrite Ea, Es, Eh. exact Hd.
  - intros E. rewrite H in E. discriminate E.
  - intros _. exact H.
Qed.

Lemma displayable_step a i e :
  displayable (store a) ->
  step_rendered env a (EvRun i e) = step env a (EvRun i e) /\
  displayable (store (step env a (EvRun i e))).
Proof.
  intros H.
  assert (D : displayable (store (step env a (EvRun i e)))).
  { cbn [step]. destruct (nth_error (runs a) i) as [r|]; [|exact H].
    pose proof (displayable_resume r e (store a) H) as H'.
    destruct (resume env r e (store a)). exact H'. }
  split; [|exact D].
  unfold step_rendered, rendered. rewrite (displayable_renders _ D).
  symmetry. apply app_eta.
Qed.

End Display.

(** X5: With a configuration set and a record on display whenever results
    are shown, events of runs (of whichever runs and in whatever order),
    each followed by its render, never remove or alter an entry of the
    activity log: no render starts a new analysis, and the log afterwards
    is the log before with entries appended.  (Without a configuration the
    render that follows the summary of a run starts a new analysis, which
    empties the log.) *)
Theorem run_events_only_append_to_the_log (env : Env) (evs : list Event)
    (a : App) :
  forallb is_run_event evs = true ->
  aiConfig (store a) <> None ->
  (appState (store a) = Results -> analysisToDisplay (store a) <> None) ->
  exec_rendered env a evs = exec env a evs /\
  exists l,
    activityLog (store (exec_rendered env a evs)) = activityLog (store a) ++ l.
Proof.
  intros Hevs Hc Hd. assert (D : displayable (store a)) by (split; assumption).
  clear Hc Hd. revert a D. induction evs as [|e evs IH]; intros a D.
  - split; [reflexivity|]. exists []. symmetry. apply app_nil_r.
  - cbn [forallb] in Hevs. apply andb_prop in Hevs.
    destruct Hevs as [He Hevs].
    destruct e as [| | | | | |i ev]; try discriminate He.
    destruct (displayable_step env a i ev D) as [E D'].
    change (exec_rendered env a (EvRun i ev :: evs))
      with (exec_rendered env (step_rendered env a (EvRun i ev)) evs).
    rewrite E, exec_cons.
    destruct (IH Hevs (step env a (EvRun i ev)) D') as [E2 [l2 H2]].
    split; [exact E2|].
    destruct (log_step env a i ev) as [l1 H1].
    exists (l1 ++ l2). rewrite H2, H1. symmetry. apply app_assoc.
Qed.

Lemma run_events_only_append_to_the_log_witness :
  exec_rendered env0 crawling_app (map (EvRun 0) full_run_events)
  = exec env0 crawling_app (map (EvRun 0) full_run_events) /\
  exists l,
    activityLog (store (exec_rendered env0 crawling_app
                          (map (EvRun 0) full_run_events)))
    = activityLog (store crawling_app) ++ l.
Proof.
  apply (run_events_only_append_to_the_log env0
           (map (EvRun 0) full_run_events) crawling_app).
  - reflexivity.
  - vm_compute. discriminate.
  - vm_compute. discriminate.
Defined.

(** ** Rejections *)

Section Rejections.

Variable env : Env.

Lemma captured_resume r e s :
  c_isCancelling (snd (resume env r e s)) = c_isCancelling r.
Proof.
  run_cases r e Hpc; try reflexivity.
  all: unfold after_cache_hit, after_cache_miss, after_fanout,
         after_cache_set, after_plan, after_hit_plan;
       cbn [snd at_pc c_isCancelling]; reflexivity.
Qed.

Lemma Forall_set_nth {A} (P : A -> Prop) x : forall l i,
  Forall P l -> P x -> Forall P (set_nth i x l).
Proof.
  induction l as [|h t IH]; intros i Hl Hx; [destruct i; constructor|].
  inversion Hl; subst. destruct i; cbn; constructor; auto.
Qed.

Lemma runs_step a e :
  isCancelling (store a) = false ->
  Forall (fun r => c_isCancelling r = false) (runs a) ->
  Forall (fun r => c_isCancelling r = false) (runs (step env a e)).
Proof.
  intros Hs Hr. destruct e as [d| | | |c b| |i ev]; cbn [step]; try exact Hr.
  - destruct (handleSubmit env d (store a)) as [s [r|]] eqn:E; cbn [runs];
      [|exact Hr].
    apply Forall_app. split; [exact Hr|]. constructor; [|constructor].
    pose proof (handleSubmit_run env d (store a) r) as H.
    rewrite E in H. destruct (H eq_refl) as (_ & _ & _ & Hc). congruence.
  - destruct (nth_error (runs a) i) as [r|] eqn:E; [|exact Hr].
    pose proof (captured_resume r ev (store a)) as H.
    destruct (resume env r ev (store a)) as [s' r']. cbn [runs snd] in *.
    apply Forall_set_nth; [exact Hr|]. rewrite H.
    rewrite Forall_forall in Hr. apply Hr. eapply nth_error_In, E.
Qed.

Lemma reachable_runs_not_cancelling a :
  reachable env a -> Forall (fun r => c_isCancelling r = false) (runs a).
Proof.
  intros (h & c & evs & ->).
  assert (H0 : isCancelling (store (mount env h c)) = false)
    by (apply (reachable_not_cancelling env); exists h, c, []; reflexivity).
  assert (H1 : Forall (fun r => c_isCancelling r = false)
                 (runs (mount env h c))) by constructor.
  revert H0 H1. generalize (mount env h c).
  induction evs as [|e evs IH]; intros a H0 H1; [exact H1|].
  rewrite exec_cons. apply IH.
  - apply isCancelling_step, H0.
  - apply runs_step; assumption.
Qed.

Lemma nth_error_set_nth_same {A} (x : A) : forall l i y,
  nth_error l i = Some y -> nth_error (set_nth i x l) i = Some x.
Proof.
  induction l as [|h t IH]; intros [|i] y H; try discriminate;
    cbn in *; eauto.
Qed.

End Rejections.

Lemma no_running_after_fail (l : list PipelineStage) st :
  In st (map fail_running l) -> status st <> StRunning.
Proof.
  intros H. apply in_map_iff in H. destruct H as (x & <- & _).
  unfold fail_running. destruct (status_eqb (status x) StRunning) eqn:E;
    [discriminate|].
  intros Hc. rewrite Hc in E. discriminate E.
Qed.

(** X6: In every reachable state, also after a cancellation, the rejection of
    the promise awaited by a run that has not returned ends that run in
    failure: the application goes to the error state with the message of
    the rejection (or the generic one, when the reason is not an [Error]),
    every running stage is marked in error and no stage is left running,
    the other stages keep their status, and partial results and history
    are as before.  The [isCancelling] test of the [catch] never holds,
    since the value a run captures is false in every committed state. *)
Theorem rejection_always_fails_the_run (env : Env) (a : App) (i : nat)
    (r : Run) (e : Thrown) :
  reachable env a ->
  nth_error (runs a) i = Some r ->
  is_returned (pc r) = false ->
  let a' := step env a (EvRun i (Rejected e)) in
  appState (store a') = AppError /\
  error_ (store a') = Some (error_message e) /\
  view (store a') = map fail_view (view (store a)) /\
  (forall st, In st (pipelineStages (store a')) -> status st <> StRunning) /\
  option_map pc (nth_error (runs a') i)
  = Some (Returned (phase_of (pc r)) false) /\
  partialResults (store a') = partialResults (store a) /\
  analysisHistory (store a') = analysisHistory (store a).
Proof.
  intros Hr Hi Hpc a'. subst a'.
  pose proof (reachable_runs_not_cancelling env a Hr) as Hc.
  rewrite Forall_forall in Hc. specialize (Hc r (nth_error_In _ _ Hi)).
  rewrite (step_run env a i r _ Hi). cbn [store runs].
  assert (E : resume env r (Rejected e) (store a)
              = (catch_handler env r e (store a), failed r)).
  { unfold resume. destruct (pc r); try reflexivity. discriminate Hpc. }
  rewrite E. cbn [fst snd]. unfold catch_handler. rewrite Hc.
  rewrite (nth_error_set_nth_same _ _ _ _ Hi). cbn [option_map].
  destruct (store a) as [? ? ? ? ? ? stages ? ? ? ? ? ? ? ? ? ?].
  unfold view. eval_store. rewrite view_of_failed.
  repeat split; try (destruct e; reflexivity).
  intros st. apply no_running_after_fail.
Qed.

Lemma rejection_always_fails_the_run_witness :
  let a := exec env0 crawling_app [EvCancel] in
  let a' := step env0 a (EvRun 0 (Rejected (ErrorObj "network down"))) in
  appState (store a') = AppError /\
  error_ (store a') = Some (error_message (ErrorObj "network down")) /\
  view (store a') = map fail_view (view (store a)) /\
  (forall st, In st (pipelineStages (store a')) -> status st <> StRunning) /\
  option_map pc (nth_error (runs a') 0)
  = Some (Returned (phase_of (pc crawling_run)) false) /\
  partialResults (store a') = partialResults (store a) /\
  analysisHistory (store a') = analysisHistory (store a).
Proof.
  apply (rejection_always_fails_the_run env0
           (exec env0 crawling_app [EvCancel]) 0 crawling_run
           (ErrorObj "network down")).
  - exists Missing, (Value "cfg"%string), [EvSubmit d0; EvCancel].
    reflexivity.
  - reflexivity.
  - reflexivity.
Defined.

(** ** Stage statuses along a run *)

Lemma upd_view_none id l : map (upd_view id None) l = l.
Proof.
  rewrite <- (map_id l) at 2. apply map_ext. intros [i st].
  unfold upd_view. cbn. destruct (String.eqb i id); reflexivity.
Qed.

Section Phases.

Variable env : Env.

(** Every event of a run moves the statuses from those of the await the
    run is at to those of the await it reaches. *)
Lemma run_view_resume r e s :
  c_isCancelling r = false ->
  run_view (pc r) (view s) ->
  run_view (pc (snd (resume env r e s))) (view (fst (resume env r e s))).
Proof.
  intros Hc. destruct s as [? ? ? ? ? ? stages ? ? ? ? ? ? ? ? ? ?].
  unfold view. cbn [pipelineStages].
  run_cases r e Hpc; intros H;
    try (unfold on_audit_progress; destruct (JS.includes _ _));
    try (unfold after_crawl; rewrite ?Hempty);
    try (unfold catch_handler; rewrite Hc);
    try (unfold after_summary, after_hit_summary, record_history;
         destruct b);
    eval_store;
    cbn [pc at_pc run_view phase_of] in *;
    repeat (rewrite view_of_updated || rewrite view_of_failed);
    cbn [u_status upd_task upd_crawl_progress upd_running upd_complete];
    rewrite ?upd_view_none;
    first [ exact H
          | rewrite H; reflexivity
          | rewrite H; left; reflexivity
          | rewrite H; right; reflexivity ].
Qed.

Lemma run_view_exec evs r s :
  c_isCancelling r = false ->
  run_view (pc r) (view s) ->
  run_view (pc (snd (run_exec env r s evs)))
           (view (fst (run_exec env r s evs))).
Proof.
  intros Hc H.
  apply (run_exec_inv env
           (fun r s => c_isCancelling r = false /\ run_view (pc r) (view s))
           (fun _ => True)); [|apply Forall_True|split; assumption].
  intros r0 s0 e _ [Hc0 H0]. split.
  - rewrite captured_resume. exact Hc0.
  - apply run_view_resume; assumption.
Qed.

End Phases.

Lemma run_view_single_run (env : Env) (a : App)
    (d : WizardSubmitData) (r : Run) (evs : list RunEvent) :
  reachable env a ->
  starts_run env a d r ->
  exists r',
    new_run a (single_run env a d evs) = Some r' /\
    run_view (pc r') (view (store (single_run env a d evs))).
Proof.
  intros Hr Hs. rewrite (single_run_started env a d r evs Hs).
  rewrite new_run_last. eexists. split; [reflexivity|]. cbn [store].
  destruct (handleSubmit_run env d (store a) r Hs) as (Hpc & _ & _ & Hc).
  rewrite (reachable_not_cancelling env a Hr) in Hc.
  apply run_view_exec; [exact Hc|].
  rewrite Hpc. cbn [run_view phase_of expected_view].
  apply (view_handleSubmit env d (store a) r Hs).
Qed.

(** X7: A run that proceeds alone, whatever its events and their order: while
    it is suspended at an await the stages have exactly the statuses of
    that await (crawl running first; then rank, the three stages of the
    fan-out together, action plan and summary, each after the ones before
    it are complete; on a cache hit rank to content are complete at once);
    when it has returned normally all seven stages are complete; when it
    has failed, the stages that were complete are still complete, the ones
    that were running are in error and the later ones are still pending. *)
Theorem stage_statuses_follow_the_run (env : Env) (a : App)
    (d : WizardSubmitData) (r : Run) (evs : list RunEvent) :
  reachable env a ->
  starts_run env a d r ->
  exists r',
    new_run a (single_run env a d evs) = Some r' /\
    run_view (pc r') (view (store (single_run env a d evs))).
Proof.
  intros Hr Hs. rewrite (single_run_started env a d r evs Hs).
  rewrite new_run_last. exists (snd (run_exec env r
                                      (fst (handleSubmit env d (store a))) evs)).
  split; [reflexivity|]. cbn [store].
  destruct (handleSubmit_run env d (store a) r Hs) as (Hpc & _ & _ & Hc).
  rewrite (reachable_not_cancelling env a Hr) in Hc.
  apply run_view_exec; [exact Hc|].
  rewrite Hpc. cbn [run_view phase_of expected_view].
  apply (view_handleSubmit env d (store a) r Hs).
Qed.

Lemma stage_statuses_follow_the_run_witness :
  exists r',
    new_run app0 (single_run env0 app0 d0 full_run_events) = Some r' /\
    run_view (pc r') (view (store (single_run env0 app0 d0 full_run_events))).
Proof.
  apply (stage_statuses_follow_the_run env0 app0 d0 crawling_run).
  - exists Missing, (Value "cfg"%string), []. reflexivity.
  - reflexivity.
Defined.

(** ** The header of the pipeline view *)

Lemma completedCount_view l :
  PipelineView.completedCount l = count_complete (view_of l).
Proof.
  unfold PipelineView.completedCount, count_complete, view_of.
  induction l as [|st l IH]; [reflexivity|]. cbn [map filter snd].
  destruct (status_eqb (status st) StComplete); cbn [List.length];
    congruence.
Qed.

Lemma runningStage_view l st :
  PipelineView.runningStage l = Some st ->
  exists k, first_running (view_of l) = Some k /\ nth_error l k = Some st.
Proof.
  unfold PipelineView.runningStage, view_of.
  induction l as [|x l IH]; [discriminate|]. cbn [find map first_running snd].
  destruct (status_eqb (status x) StRunning).
  - intros [= <-]. exists 0%nat. split; reflexivity.
  - intros H. destruct (IH H) as (k & Hk & Hn). exists (S k).
    rewrite Hk. split; [reflexivity|exact Hn].
Qed.

Lemma run_view_first_running p v k :
  run_view p v -> first_running v = Some k ->
  k = count_complete v /\ (k < 7)%nat.
Proof.
  intros H Hk.
  destruct p as [| | | | | | | |[] []]; cbn [run_view phase_of] in H;
    try (destruct H as [H|H]); subst v; vm_compute in Hk;
    try discriminate Hk; injection Hk as <-; vm_compute; split;
    try reflexivity; repeat constructor.
Qed.

(** X8: While a run proceeds alone, the header of the pipeline view is
    consistent: the stage whose description it shows (the first running
    one) is the one at position [completedCount + 1], the number it shows
    in "Stage k of 7"; with a stage running, k is at most 7. *)
Theorem header_names_the_running_stage (env : Env) (a : App)
    (d : WizardSubmitData) (r : Run) (evs : list RunEvent)
    (st : PipelineStage) :
  reachable env a ->
  starts_run env a d r ->
  PipelineView.runningStage
    (pipelineStages (store (single_run env a d evs))) = Some st ->
  nth_error (pipelineStages (store (single_run env a d evs)))
    (PipelineView.completedCount
       (pipelineStages (store (single_run env a d evs)))) = Some st /\
  (PipelineView.completedCount
     (pipelineStages (store (single_run env a d evs))) + 1 <= 7)%nat.
Proof.
  intros Hr Hs Hrun.
  destruct (run_view_single_run env a d r evs Hr Hs)
    as (r' & _ & Hv).
  destruct (runningStage_view _ _ Hrun) as (k & Hk & Hn).
  destruct (run_view_first_running _ _ _ Hv Hk) as [E Hlt].
  rewrite completedCount_view. unfold view in E. rewrite <- E.
  split; [exact Hn|lia].
Qed.

Lemma header_names_the_running_stage_witness :
  nth_error (pipelineStages (store (single_run env0 app0 d0 [])))
    (PipelineView.completedCount
       (pipelineStages (store (single_run env0 app0 d0 []))))
  = Some (hd crawl_rejected_stage
            (pipelineStages (store (single_run env0 app0 d0 [])))) /\
  (PipelineView.completedCount
     (pipelineStages (store (single_run env0 app0 d0 []))) + 1 <= 7)%nat.
Proof.
  apply (header_names_the_running_stage env0 app0 d0 crawling_run []
           (hd crawl_rejected_stage
              (pipelineStages (store (single_run env0 app0 d0 []))))).
  - exists Missing, (Value "cfg"%string), []. reflexivity.
  - reflexivity.
  - vm_compute. reflexivity.
Defined.

(** ** [formatDuration] *)

(** X9: For a whole number of milliseconds that is not negative and below
    [2^53] (where the doubles the code computes are exact), [formatDuration]
    shows whole minutes and seconds rounded down: "Ns" below one minute,
    and otherwise "Mm Ss" with S below 60; what it shows is never more
    than the duration and less than a second short of it. *)
Theorem formatDuration_rounds_down (ms : Z) :
  0 <= ms < 2 ^ 53 ->
  exists m sec : Z,
    0 <= m /\ 0 <= sec < 60 /\
    (m * 60 + sec) * 1000 <= ms < (m * 60 + sec + 1) * 1000 /\
    PipelineView.formatDuration ms
    = (if Z.eqb m 0 then PipelineView.show_Z sec ++ "s"
       else PipelineView.show_Z m ++ "m " ++ PipelineView.show_Z sec ++ "s")
      %string.
Proof.
  intros [Hms _]. exists (ms / 1000 / 60), ((ms / 1000) mod 60).
  pose proof (Z.div_mod ms 1000 ltac:(lia)) as D1.
  pose proof (Z.mod_pos_bound ms 1000 ltac:(lia)) as B1.
  pose proof (Z.div_mod (ms / 1000) 60 ltac:(lia)) as D2.
  pose proof (Z.mod_pos_bound (ms / 1000) 60 ltac:(lia)) as B2.
  assert (Hs : 0 <= ms / 1000) by (apply Z.div_pos; lia).
  assert (Hm : 0 <= ms / 1000 / 60) by (apply Z.div_pos; lia).
  split; [exact Hm|]. split; [exact B2|]. split; [lia|].
  unfold PipelineView.formatDuration. cbv zeta.
  destruct (ms / 1000 <? 60) eqn:E.
  - apply Z.ltb_lt in E.
    rewrite (Z.div_small (ms / 1000) 60), (Z.mod_small (ms / 1000) 60)
      by lia.
    reflexivity.
  - apply Z.ltb_ge in E.
    assert (Hpos : 1 <= ms / 1000 / 60)
      by (apply Z.div_le_lower_bound; lia).
    destruct (ms / 1000 / 60 =? 0) eqn:E0; [apply Z.eqb_eq in E0; lia|].
    rewrite Z.rem_mod_nonneg by lia. reflexivity.
Qed.

Lemma formatDuration_rounds_down_witness :
  exists m sec : Z,
    0 <= m /\ 0 <= sec < 60 /\
    (m * 60 + sec) * 1000 <= 125999 < (m * 60 + sec + 1) * 1000 /\
    PipelineView.formatDuration 125999
    = (if Z.eqb m 0 then PipelineView.show_Z sec ++ "s"
       else PipelineView.show_Z m ++ "m " ++ PipelineView.show_Z sec ++ "s")
      %string.
Proof.
  apply (formatDuration_rounds_down 125999). lia.
Defined.

(** ** Durations on the stage cards *)

(** X10: With a clock that never goes back, in every reachable state the
    duration a stage card computes, for a running stage up to any later
    reading of the clock and for a complete stage from its start to its
    end, is never negative. *)
Theorem stage_card_duration_is_not_negative (env : Env) (a : App)
    (st : PipelineStage) (k : nat) (d : Z) :
  monotone_clock env ->
  reachable env a ->
  In st (pipelineStages (store a)) ->
  (clock (store a) <= k)%nat ->
  PipelineView.elapsedTime (now env k) st = Some d ->
  0 <= d.
Proof.
  intros mono Hr Hin Hk He.
  pose proof (reachable_timed env mono a Hr) as H.
  unfold stages_satisfy in H. rewrite Forall_forall in H.
  destruct (H st Hin) as ((_ & Hc) & Hs & _).
  pose proof (mono _ _ Hk) as Hnow.
  unfold PipelineView.elapsedTime in He.
  destruct (status st) eqn:Est; try discriminate He;
    destruct (startTime st) as [b|] eqn:Eb; try discriminate He.
  - destruct (PipelineView.truthy_number b); [|discriminate He].
    injection He as <-. specialize (Hs b eq_refl). lia.
  - destruct (endTime st) as [e|] eqn:Ee; [|discriminate He].
    destruct (_ && _)%bool; [|discriminate He]. injection He as <-.
    destruct (Hc eq_refl) as (e' & He' & Hle). injection He' as <-.
    specialize (Hle b eq_refl). lia.
Qed.

Lemma stage_card_duration_is_not_negative_witness :
  0 <= 1.
Proof.
  apply (stage_card_duration_is_not_negative env0 cache_hit_app
           (hd crawl_rejected_stage (pipelineStages (store cache_hit_app)))
           100%nat 1).
  - intros i j H; cbn; lia.
  - exists Missing, (Value "cfg"%string), cache_hit_trace. reflexivity.
  - vm_compute. left. reflexivity.
  - vm_compute. lia.
  - vm_compute. reflexivity.
Defined.

(** ** The history *)

Section History.

Variable env : Env.

Lemma bounded_resume r e s :
  history_bounded s -> history_bounded (fst (resume env r e s)).
Proof.
  unfold history_bounded. destruct s. cbn [analysisHistory storedHistory].
  intros H.
  run_cases r e Hpc; try exact H;
    try (unfold on_audit_progress; destruct (JS.includes _ _));
    try (unfold after_crawl; destruct (Nat.eqb _ _));
    try (unfold catch_handler; destruct (c_isCancelling r));
    try (unfold after_summary, after_hit_summary, record_history;
         destruct b);
    eval_store; try exact H; cbn [at_most_ten];
    (split; [apply firstn_le_length|first [apply firstn_le_length|apply H]]).
Qed.

Lemma bounded_step a e :
  history_bounded (store a) -> history_bounded (store (step env a e)).
Proof.
  intros H. destruct e as [d| | | |c b| |i ev]; cbn [step].
  - unfold handleSubmit.
    destruct (negb _); [exact H|].
    destruct (aiConfig (store a)); [|exact H].
    destruct (parseURL env _); [|exact H].
    cbn [store]. revert H. unfold history_bounded. destruct (store a).
    eval_store. exact (fun H => H).
  - revert H. unfold history_bounded.
    destruct (store a) as [? ? ? ? ? ? ? ? ? ? ? ? [ab|] ? ? ? ?];
      cbn [store]; eval_store; exact (fun H => H).
  - revert H. unfold history_bounded. destruct (store a); cbn [store].
    eval_store. exact (fun H => H).
  - unfold history_bounded. destruct (store a); cbn [store].
    unfold handleClearHistory. eval_store. cbn. split; [lia|exact I].
  - revert H. unfold history_bounded. destruct (store a), b; cbn [store];
      exact (fun H => H).
  - revert H. unfold history_bounded. destruct (store a); cbn [store].
    exact (fun H => H).
  - destruct (nth_error (runs a) i) as [r|]; [|exact H].
    pose proof (bounded_resume r ev (store a) H) as H'.
    destruct (resume env r ev (store a)). exact H'.
Qed.

Lemma bounded_mount h c :
  at_most_ten h -> history_bounded (store (mount env h c)).
Proof.
  unfold history_bounded, mount, mountEffect; cbn [store].
  destruct c as [|cfg|]; destruct h as [|[|h0 hs]|]; cbn; intros H;
    split; try exact I; try lia; exact H.
Qed.

End History.

(** X11: When the history a session starts from holds at most ten records (or
    none, or cannot be read), then whatever happens the history in memory
    and its persisted copy never hold more than ten. *)
Theorem history_never_exceeds_ten (env : Env)
    (h : Item (list HistoricalAnalysis)) (c : Item AiConfig)
    (evs : list Event) :
  at_most_ten h ->
  (List.length (analysisHistory (store (exec env (mount env h c) evs)))
   <= 10)%nat /\
  at_most_ten (storedHistory (store (exec env (mount env h c) evs))).
Proof.
  intros H. apply (bounded_mount env h c) in H. revert H.
  generalize (mount env h c). induction evs as [|e evs IH]; intros a H;
    [exact H|].
  rewrite exec_cons. apply IH, bounded_step, H.
Qed.

Lemma history_never_exceeds_ten_witness :
  (List.length
     (analysisHistory
        (store (exec env0 (mount env0 (Value two_records) (Value "cfg"%string))
                  (EvSubmit d0 :: map (EvRun 0) full_run_events))))
   <= 10)%nat /\
  at_most_ten
    (storedHistory
       (store (exec env0 (mount env0 (Value two_records) (Value "cfg"%string))
                 (EvSubmit d0 :: map (EvRun 0) full_run_events)))).
Proof.
  apply (history_never_exceeds_ten env0 (Value two_records)
           (Value "cfg"%string)
           (EvSubmit d0 :: map (EvRun 0) full_run_events)).
  cbn. lia.
Defined.

(** X12: When the summary of a run resolves, on either path and in any
    state, the run puts its record first in the history, with the summary,
    the site URL, the competitor URLs, the analysis type and the location
    of this run.  With a configuration set, the application then shows
    results and the record on display is that record.  Without one (the
    AI settings were reset during the run) the render that follows starts
    a new analysis instead: the configuration screen is shown, nothing is
    selected or on display, and stages, log and partial results are
    reset. *)
Theorem finished_run_is_displayed (env : Env) (r : Run)
    (sum : ExecutiveSummary) (ok : bool) (s : Store) :
  awaits_summary (pc r) = true ->
  exists record,
    hd_error
      (analysisHistory
         (renderContent env (fst (resume env r (SummaryResolved sum ok) s))))
    = Some record /\
    ha_executiveSummary record = sum /\
    ha_sitemapUrl record = w_url (r_data r) /\
    ha_competitorSitemaps record = r_competitorUrls r /\
    ha_analysisType record = w_analysisType (r_data r) /\
    ha_location record = w_targetLocation (r_data r) /\
    (aiConfig s <> None ->
     appState
       (renderContent env (fst (resume env r (SummaryResolved sum ok) s)))
     = Results /\
     analysisToDisplay
       (renderContent env (fst (resume env r (SummaryResolved sum ok) s)))
     = Some record) /\
    (aiConfig s = None ->
     appState
       (renderContent env (fst (resume env r (SummaryResolved sum ok) s)))
     = ConfigureAi /\
     selectedAnalysisId
       (renderContent env (fst (resume env r (SummaryResolved sum ok) s)))
     = None /\
     analysisToDisplay
       (renderContent env (fst (resume env r (SummaryResolved sum ok) s)))
     = None /\
     observable
       (renderContent env (fst (resume env r (SummaryResolved sum ok) s)))
     = (initial_stages, [], pr_empty)).
Proof.
  intros H. unfold resume.
  destruct (pc r); try discriminate H;
    destruct ok, s as [? ? ? ? ? ? ? ? ? ? [cfg|] ? ? ? ? ? ?];
    unfold renderContent, analysisToDisplay, observable; eval_store;
    cbn [firstn hd_error find ha_id]; rewrite Z.eqb_refl;
    cbn [has andb]; eval_store;
    cbn [firstn hd_error find ha_id]; rewrite ?Z.eqb_refl;
    eexists; (split; [reflexivity|]);
    repeat match goal with |- _ /\ _ => split end;
    try reflexivity;
    try (intros Hc; repeat split; congruence).
Qed.

Lemma finished_run_is_displayed_witness :
  exists record,
    hd_error
      (analysisHistory
         (renderContent env0
            (fst (resume env0 cache_hit_run
                    (SummaryResolved "summary"%string true)
                    (store cache_hit_app)))))
    = Some record /\
    ha_executiveSummary record = "summary"%string /\
    ha_sitemapUrl record = w_url (r_data cache_hit_run) /\
    ha_competitorSitemaps record = r_competitorUrls cache_hit_run /\
    ha_analysisType record = w_analysisType (r_data cache_hit_run) /\
    ha_location record = w_targetLocation (r_data cache_hit_run) /\
    (aiConfig (store cache_hit_app) <> None ->
     appState
       (renderContent env0
          (fst (resume env0 cache_hit_run
                  (SummaryResolved "summary"%string true)
                  (store cache_hit_app))))
     = Results /\
     analysisToDisplay
       (renderContent env0
          (fst (resume env0 cache_hit_run
                  (SummaryResolved "summary"%string true)
                  (store cache_hit_app))))
     = Some record) /\
    (aiConfig (store cache_hit_app) = None ->
     appState
       (renderContent env0
          (fst (resume env0 cache_hit_run
                  (SummaryResolved "summary"%string true)
                  (store cache_hit_app))))
     = ConfigureAi /\
     selectedAnalysisId
       (renderContent env0
          (fst (resume env0 cache_hit_run
                  (SummaryResolved "summary"%string true)
                  (store cache_hit_app))))
     = None /\
     analysisToDisplay
       (renderContent env0
          (fst (resume env0 cache_hit_run
                  (SummaryResolved "summary"%string true)
                  (store cache_hit_app))))
     = None /\
     observable
       (renderContent env0
          (fst (resume env0 cache_hit_run
                  (SummaryResolved "summary"%string true)
                  (store cache_hit_app))))
     = (initial_stages, [], pr_empty)).
Proof.
  apply (finished_run_is_displayed env0 cache_hit_run "summary"%string true
           (store cache_hit_app)).
  reflexivity.
Defined.

(** ** Updating a record of the history *)

Lemma find_map_same_id (f : HistoricalAnalysis -> HistoricalAnalysis) i l :
  (forall h, ha_id (f h) = ha_id h) ->
  find (fun h => Z.eqb (ha_id h) i) (map f l)
  = option_map f (find (fun h => Z.eqb (ha_id h) i) l).
Proof.
  intros Hf. induction l as [|h l IH]; [reflexivity|]. cbn [map find].
  rewrite Hf. destruct (Z.eqb (ha_id h) i); [reflexivity|exact IH].
Qed.

Lemma map_history_absent id (f : HistoricalAnalysis -> HistoricalAnalysis) l :
  ~ In id (map ha_id l) ->
  map (fun h => if Z.eqb (ha_id h) id then f h else h) l = l.
Proof.
  induction l as [|h l IH]; intros H; [reflexivity|]. cbn [map].
  destruct (Z.eqb (ha_id h) id) eqn:E.
  - apply Z.eqb_eq in E. exfalso. apply H. left. exact E.
  - f_equal. apply IH. intros Hin. apply H. right. exact Hin.
Qed.

(** X13: [updateAnalysisInHistory] with updates that leave the id alone (the
    action plan, as its only caller passes): the history keeps its ids in
    their order, hence its length; records with another id are untouched,
    and an id that is not in the history changes no record; the record on
    display is the merged one when it is the record updated; the persisted
    copy is the new list when the write succeeds and stays what it was
    when it fails; selection, stages and application state are as before. *)
Theorem updateAnalysisInHistory_keeps_the_list (id : Z) (u : HistoryUpdates)
    (ok : bool) (s : Store) :
  hu_id u = None ->
  map ha_id (analysisHistory (updateAnalysisInHistory id u ok s))
  = map ha_id (analysisHistory s) /\
  (forall h, In h (analysisHistory s) -> ha_id h <> id ->
             In h (analysisHistory (updateAnalysisInHistory id u ok s))) /\
  (~ In id (map ha_id (analysisHistory s)) ->
   analysisHistory (updateAnalysisInHistory id u ok s) = analysisHistory s) /\
  analysisToDisplay (updateAnalysisInHistory id u ok s)
  = option_map (fun h => if Z.eqb (ha_id h) id then merge_history h u else h)
      (analysisToDisplay s) /\
  storedHistory (updateAnalysisInHistory id u ok s)
  = (if ok then Value (analysisHistory (updateAnalysisInHistory id u ok s))
     else storedHistory s) /\
  selectedAnalysisId (updateAnalysisInHistory id u ok s)
  = selectedAnalysisId s /\
  pipelineStages (updateAnalysisInHistory id u ok s) = pipelineStages s /\
  appState (updateAnalysisInHistory id u ok s) = appState s.
Proof.
  intros Hu.
  assert (Hid : forall h,
             ha_id (if Z.eqb (ha_id h) id then merge_history h u else h)
             = ha_id h).
  { intros h. destruct (Z.eqb (ha_id h) id); [|reflexivity].
    unfold merge_history. cbn [ha_id]. rewrite Hu. reflexivity. }
  destruct s as [? hist sel ? ? ? ? ? ? ? ? ? ? ? ? ? ?].
  unfold updateAnalysisInHistory, analysisToDisplay.
  destruct ok;
    cbn [analysisHistory set_analysisHistory set_storedHistory storedHistory
         selectedAnalysisId pipelineStages appState];
    (split; [rewrite map_map; apply map_ext; exact Hid|]);
    (split; [intros h Hin Hne; apply in_map_iff; exists h;
             split; [|exact Hin];
             destruct (Z.eqb (ha_id h) id) eqn:E; [|reflexivity];
             apply Z.eqb_eq in E; contradiction|]);
    (split; [apply map_history_absent|]);
    (split; [destruct sel as [i|]; [|reflexivity];
             apply find_map_same_id; exact Hid|]);
    repeat split; reflexivity.
Qed.

Lemma updateAnalysisInHistory_keeps_the_list_witness :
  let u := mkHU None None None None None None None None None
             (Some ["day 1, done"%string]) None in
  let s := set_analysisHistory two_records
             (set_selectedAnalysisId (Some 2) (store app0)) in
  map ha_id (analysisHistory (updateAnalysisInHistory 2 u true s))
  = map ha_id (analysisHistory s) /\
  (forall h, In h (analysisHistory s) -> ha_id h <> 2 ->
             In h (analysisHistory (updateAnalysisInHistory 2 u true s))) /\
  (~ In 2 (map ha_id (analysisHistory s)) ->
   analysisHistory (updateAnalysisInHistory 2 u true s) = analysisHistory s) /\
  analysisToDisplay (updateAnalysisInHistory 2 u true s)
  = option_map (fun h => if Z.eqb (ha_id h) 2 then merge_history h u else h)
      (analysisToDisplay s) /\
  storedHistory (updateAnalysisInHistory 2 u true s)
  = Value (analysisHistory (updateAnalysisInHistory 2 u true s)) /\
  selectedAnalysisId (updateAnalysisInHistory 2 u true s)
  = selectedAnalysisId s /\
  pipelineStages (updateAnalysisInHistory 2 u true s) = pipelineStages s /\
  appState (updateAnalysisInHistory 2 u true s) = appState s.
Proof.
  apply (updateAnalysisInHistory_keeps_the_list 2
           (mkHU None None None None None None None None None
              (Some ["day 1, done"%string]) None)
           true
           (set_analysisHistory two_records
              (set_selectedAnalysisId (Some 2) (store app0)))).
  reflexivity.
Defined.

(** ** Ticking a task off *)

Lemma toggle_item_twice id a :
  (fun action =>
     if String.eqb (action_id action) id
     then mkAction (action_id action) (negb (completed action))
            (action_rest action)
     else action)
    (if String.eqb (action_id a) id
     then mkAction (action_id a) (negb (completed a)) (action_rest a)
     else a) = a.
Proof.
  cbv beta. destruct (String.eqb (action_id a) id) eqn:E.
  - cbn [action_id completed action_rest]. rewrite E, negb_involutive.
    destruct a; reflexivity.
  - rewrite E. reflexivity.
Qed.

(** X14: The plan [handleToggleTaskComplete] computes: ticking the same task
    twice gives the plan back; the days, the items of each day and their
    ids are kept in number and order; an item is flipped exactly when it
    has the given id; and an id that no item has leaves the plan as it
    is. *)
Theorem toggling_a_task_twice_restores_the_plan (id : string)
    (plan : list PlanDay) :
  newActionPlan id (newActionPlan id plan) = plan /\
  map (fun day => map action_id (actions day)) (newActionPlan id plan)
  = map (fun day => map action_id (actions day)) plan /\
  map (fun day => map completed (actions day)) (newActionPlan id plan)
  = map (fun day =>
           map (fun a => xorb (String.eqb (action_id a) id) (completed a))
               (actions day)) plan /\
  map day_rest (newActionPlan id plan) = map day_rest plan /\
  ((forall day a, In day plan -> In a (actions day) -> action_id a <> id) ->
   newActionPlan id plan = plan).
Proof.
  unfold newActionPlan. repeat split.
  - rewrite map_map. rewrite <- (map_id plan) at 2. apply map_ext.
    intros [acts rest]. cbn [actions day_rest]. f_equal.
    rewrite map_map. rewrite <- (map_id acts) at 2. apply map_ext.
    intros a. apply toggle_item_twice.
  - rewrite map_map. apply map_ext. intros day. cbn [actions].
    rewrite map_map. apply map_ext. intros a.
    destruct (String.eqb (action_id a) id); reflexivity.
  - rewrite map_map. apply map_ext. intros day. cbn [actions].
    rewrite map_map. apply map_ext. intros a.
    destruct (String.eqb (action_id a) id); cbn [completed xorb];
      [destruct (completed a)|]; reflexivity.
  - rewrite map_map. apply map_ext. intros day. reflexivity.
  - intros H. rewrite <- (map_id plan) at 2. apply map_ext_in.
    intros [acts rest] Hday. cbn [actions day_rest]. f_equal.
    rewrite <- (map_id acts) at 2. apply map_ext_in. intros a Ha.
    destruct (String.eqb (action_id a) id) eqn:E; [|reflexivity].
    apply String.eqb_eq in E. exfalso.
    exact (H (mkDay acts rest) a Hday Ha E).
Qed.

Lemma toggling_a_task_twice_restores_the_plan_witness :
  newActionPlan "a2" (newActionPlan "a2" two_days) = two_days /\
  map (fun day => map action_id (actions day)) (newActionPlan "a2" two_days)
  = map (fun day => map action_id (actions day)) two_days /\
  map (fun day => map completed (actions day)) (newActionPlan "a2" two_days)
  = map (fun day =>
           map (fun a => xorb (String.eqb (action_id a) "a2") (completed a))
               (actions day)) two_days /\
  map day_rest (newActionPlan "a2" two_days) = map day_rest two_days /\
  ((forall day a, In day two_days -> In a (actions day) ->
                  action_id a <> "a2"%string) ->
   newActionPlan "a2" two_days = two_days).
Proof.
  apply (toggling_a_task_twice_restores_the_plan "a2" two_days).
Defined.

(** ** The mount effect *)

(** X15: What the component establishes when it mounts: results are shown
    exactly when a configuration and a history that is not empty were
    stored, and then the configuration is set and the record on display is
    the first of the history; the wizard is shown exactly when a
    configuration was stored with no history or an empty one; a key that
    cannot be parsed sends the user to the configuration screen and both
    keys are removed; storage never holds an unreadable value afterwards. *)
Theorem mount_outcome (env : Env) (h : Item (list HistoricalAnalysis))
    (c : Item AiConfig) :
  (appState (store (mount env h c)) = Results <->
   exists cfg h0 rest, c = Value cfg /\ h = Value (h0 :: rest)) /\
  (appState (store (mount env h c)) = Results ->
   aiConfig (store (mount env h c)) <> None /\
   exists h0,
     analysisToDisplay (store (mount env h c)) = Some h0 /\
     hd_error (analysisHistory (store (mount env h c))) = Some h0) /\
  (appState (store (mount env h c)) = Idle <->
   exists cfg, c = Value cfg /\ (h = Missing \/ h = Value [])) /\
  (c = Garbage \/ h = Garbage ->
   appState (store (mount env h c)) = ConfigureAi /\
   storedHistory (store (mount env h c)) = Missing /\
   storedConfig (store (mount env h c)) = Missing) /\
  storedHistory (store (mount env h c)) <> Garbage /\
  storedConfig (store (mount env h c)) <> Garbage.
Proof.
  unfold mount, mountEffect, analysisToDisplay; cbn [store].
  destruct c as [|cfg|]; destruct h as [|[|h0 hs]|]; cbn;
    rewrite ?Z.eqb_refl;
    repeat match goal with
           | |- _ /\ _ => split
           | |- _ <-> _ => split
           end;
    try discriminate;
    try (intros H; discriminate H);
    try (intros (? & ? & ? & H1 & H2); discriminate);
    try (intros (? & H1 & [H2|H2]); discriminate);
    try (intros [H|H]; discriminate H);
    try (intros _; repeat split; try discriminate; eauto);
    eauto 6.
Qed.

Lemma mount_outcome_witness :
  appState (store (mount env0 (Value two_records) (Value "cfg"%string)))
  = Results /\
  aiConfig (store (mount env0 (Value two_records) (Value "cfg"%string)))
  <> None /\
  exists h0,
    analysisToDisplay
      (store (mount env0 (Value two_records) (Value "cfg"%string)))
    = Some h0 /\
    hd_error (analysisHistory
                (store (mount env0 (Value two_records)
                          (Value "cfg"%string)))) = Some h0.
Proof.
  destruct (mount_outcome env0 (Value two_records) (Value "cfg"%string))
    as (H1 & H2 & _).
  assert (H : appState (store (mount env0 (Value two_records)
                                 (Value "cfg"%string))) = Results)
    by reflexivity.
  split; [exact H|]. exact (H2 H).
Defined.

(** ** Submissions *)

Lemma truthy_empty s : JS.truthy s = false <-> s = EmptyString.
Proof. destruct s; cbn; split; congruence. Qed.

(** X16: [handleSubmit] starts no run exactly when the sitemap URL is empty, no
    AI configuration is set, or the URL does not parse; and then it only
    reports: the error message is set and the application goes to the
    error state (to the configuration screen when the configuration is
    what is missing), while stages, log, partial results, history, the
    abort controller and the clock are as they were. *)
Theorem rejected_submission_only_reports (env : Env)
    (d : WizardSubmitData) (s : Store) :
  (snd (handleSubmit env d s) = None <->
   w_sitemapUrl d = EmptyString \/ aiConfig s = None \/
   parseURL env (w_sitemapUrl d) = None) /\
  (snd (handleSubmit env d s) = None ->
   observable (fst (handleSubmit env d s)) = observable s /\
   analysisHistory (fst (handleSubmit env d s)) = analysisHistory s /\
   storedHistory (fst (handleSubmit env d s)) = storedHistory s /\
   abortController (fst (handleSubmit env d s)) = abortController s /\
   clock (fst (handleSubmit env d s)) = clock s /\
   error_ (fst (handleSubmit env d s)) <> None /\
   (appState (fst (handleSubmit env d s)) = ConfigureAi <->
    w_sitemapUrl d <> EmptyString /\ aiConfig s = None) /\
   (appState (fst (handleSubmit env d s)) = AppError <->
    ~ (w_sitemapUrl d <> EmptyString /\ aiConfig s = None))).
Proof.
  unfold handleSubmit.
  destruct (JS.truthy (w_sitemapUrl d)) eqn:Et; cbn [negb].
  - assert (Hne : w_sitemapUrl d <> EmptyString).
    { intros E. apply truthy_empty in E. congruence. }
    destruct (aiConfig s) as [cfg|] eqn:Ec.
    + destruct (parseURL env (w_sitemapUrl d)) as [u|] eqn:Ep.
      * split; [|intros H; exfalso; revert H; cbv zeta;
                  unfold dateNow at 1; cbn [snd]; discriminate].
        split.
        -- cbv zeta. unfold dateNow at 1. cbn [snd]. discriminate.
        -- intros [H|[H|H]]; [contradiction|discriminate|discriminate].
      * cbn [fst snd]. split; [split; auto|]. intros _.
        destruct s. unfold observable. cbn in *.
        repeat match goal with |- _ /\ _ => split | |- _ <-> _ => split end;
          try reflexivity; try discriminate.
        -- intros [_ H]. subst. discriminate.
        -- intros _ [_ H]. subst. discriminate.
    + cbn [fst snd]. split; [split; auto|]. intros _.
      destruct s. unfold observable. cbn in *.
      repeat match goal with |- _ /\ _ => split | |- _ <-> _ => split end;
        try reflexivity; try discriminate; auto.
      intros H. exfalso. apply H. auto.
  - assert (He : w_sitemapUrl d = EmptyString) by (apply truthy_empty, Et).
    cbn [fst snd]. split; [split; auto|]. intros _.
    destruct s. unfold observable. cbn in *.
    repeat match goal with |- _ /\ _ => split | |- _ <-> _ => split end;
      try reflexivity; try discriminate.
    + intros [H _]. contradiction.
    + intros _ [H _]. contradiction.
Qed.

Lemma rejected_submission_only_reports_witness :
  let d := mkWizard EmptyString "https://example.com" EmptyString
             "global" EmptyString in
  let s := store cache_hit_app in
  observable (fst (handleSubmit env0 d s)) = observable s /\
  analysisHistory (fst (handleSubmit env0 d s)) = analysisHistory s /\
  storedHistory (fst (handleSubmit env0 d s)) = storedHistory s /\
  abortController (fst (handleSubmit env0 d s)) = abortController s /\
  clock (fst (handleSubmit env0 d s)) = clock s /\
  error_ (fst (handleSubmit env0 d s)) <> None /\
  (appState (fst (handleSubmit env0 d s)) = ConfigureAi <->
   w_sitemapUrl d <> EmptyString /\ aiConfig s = None) /\
  (appState (fst (handleSubmit env0 d s)) = AppError <->
   ~ (w_sitemapUrl d <> EmptyString /\ aiConfig s = None)).
Proof.
  apply (proj2 (rejected_submission_only_reports env0
                  (mkWizard EmptyString "https://example.com" EmptyString
                     "global" EmptyString)
                  (store cache_hit_app))).
  reflexivity.
Defined.

Lemma filter_truthy_nonempty l :
  Forall (fun u => u <> EmptyString) (filter JS.truthy l).
Proof.
  rewrite Forall_forall. intros u H. apply filter_In in H.
  destruct H as [_ H]. intros ->. discriminate H.
Qed.

(** X17: An accepted submission starts from a clean pipeline, whatever the
    state it is made in: the crawl stage is running with no progress and
    every other stage is as the catalogue defines it, the log holds the one
    entry of the new run, partial results are empty, no record is
    selected, no error is shown, the abort controller is a fresh one, and
    the history is untouched.  The run captures the configuration and the
    history of that state, and its competitor URLs contain no empty
    entry. *)
Theorem accepted_submission_starts_clean (env : Env)
    (d : WizardSubmitData) (s : Store) (r : Run) :
  snd (handleSubmit env d s) = Some r ->
  (exists t,
     pipelineStages (fst (handleSubmit env d s))
     = mkStage "crawl" "Sitemap Discovery"
         "Crawling sitemaps in parallel to extract all page URLs"
         StRunning 0 None None (Some "Initializing parallel crawler..."%string)
         (Some t) None
       :: tl initial_stages) /\
  (exists t,
     activityLog (fst (handleSubmit env d s))
     = [mkLog t "Starting sitemap discovery..." LInfo (Some "crawl"%string)]) /\
  partialResults (fst (handleSubmit env d s)) = pr_empty /\
  appState (fst (handleSubmit env d s)) = Loading /\
  loadingPhase (fst (handleSubmit env d s)) = Crawling /\
  crawlProgress (fst (handleSubmit env d s)) = None /\
  error_ (fst (handleSubmit env d s)) = None /\
  selectedAnalysisId (fst (handleSubmit env d s)) = None /\
  abortController (fst (handleSubmit env d s)) = Some false /\
  analysisHistory (fst (handleSubmit env d s)) = analysisHistory s /\
  pc r = AwaitCrawl /\ r_data r = d /\
  aiConfig s = Some (c_aiConfig r) /\
  c_analysisHistory r = analysisHistory s /\
  Forall (fun u => u <> EmptyString) (r_competitorUrls r).
Proof.
  unfold handleSubmit.
  destruct (negb _); [discriminate|].
  destruct (aiConfig s) as [cfg|] eqn:Ec; [|discriminate].
  destruct (parseURL env _); [|discriminate].
  cbv zeta. unfold dateNow at 1. cbn [snd]. intros [= <-].
  cbn [pc r_data c_aiConfig c_analysisHistory r_competitorUrls].
  destruct s. cbn [analysisHistory]. eval_store.
  repeat match goal with |- _ /\ _ => split end;
    try reflexivity; try (eexists; reflexivity); try exact Ec.
  apply filter_truthy_nonempty.
Qed.

Lemma accepted_submission_starts_clean_witness :
  (exists t,
     pipelineStages (fst (handleSubmit env0 d0 (store cache_hit_app)))
     = mkStage "crawl" "Sitemap Discovery"
         "Crawling sitemaps in parallel to extract all page URLs"
         StRunning 0 None None (Some "Initializing parallel crawler..."%string)
         (Some t) None
       :: tl initial_stages) /\
  (exists t,
     activityLog (fst (handleSubmit env0 d0 (store cache_hit_app)))
     = [mkLog t "Starting sitemap discovery..." LInfo (Some "crawl"%string)]) /\
  partialResults (fst (handleSubmit env0 d0 (store cache_hit_app)))
  = pr_empty /\
  appState (fst (handleSubmit env0 d0 (store cache_hit_app))) = Loading /\
  loadingPhase (fst (handleSubmit env0 d0 (store cache_hit_app)))
  = Crawling /\
  crawlProgress (fst (handleSubmit env0 d0 (store cache_hit_app))) = None /\
  error_ (fst (handleSubmit env0 d0 (store cache_hit_app))) = None /\
  selectedAnalysisId (fst (handleSubmit env0 d0 (store cache_hit_app)))
  = None /\
  abortController (fst (handleSubmit env0 d0 (store cache_hit_app)))
  = Some false /\
  analysisHistory (fst (handleSubmit env0 d0 (store cache_hit_app)))
  = analysisHistory (store cache_hit_app) /\
  pc crawling_run = AwaitCrawl /\ r_data crawling_run = d0 /\
  aiConfig (store cache_hit_app) = Some (c_aiConfig crawling_run) /\
  c_analysisHistory crawling_run = analysisHistory (store cache_hit_app) /\
  Forall (fun u => u <> EmptyString) (r_competitorUrls crawling_run).
Proof.
  apply (accepted_submission_starts_clean env0 d0 (store cache_hit_app)
           crawling_run).
  vm_compute. reflexivity.
Defined.

(** ** The analysis batch *)

Lemma bounded_spread p o :
  analyzed_bounded p -> analyzed_bounded o ->
  analyzed_bounded (pr_spread p o).
Proof.
  unfold analyzed_bounded, pr_spread. cbn [pr_urlsAnalyzed].
  intros Hp Ho n. destruct (pr_urlsAnalyzed o) as [m|] eqn:E; cbn [or_else].
  - exact (Ho n).
  - exact (Hp n).
Qed.

Lemma bounded_literal a b c d e n :
  (n <= MAX_URLS_FOR_ANALYSIS)%nat ->
  analyzed_bounded (mkPR a b c d e (Some n)).
Proof. intros H m [= <-]. exact H. Qed.

Lemma bounded_unset a b c d e : analyzed_bounded (mkPR a b c d e None).
Proof. intros m H. discriminate H. Qed.

Ltac bounded H :=
  repeat lazymatch goal with
  | |- analyzed_bounded (pr_spread _ _) => apply bounded_spread
  | |- analyzed_bounded (mkPR _ _ _ _ _ None) => apply bounded_unset
  | |- analyzed_bounded (mkPR _ _ _ _ _ (Some _)) =>
      apply bounded_literal, firstn_le_length
  | |- analyzed_bounded pr_empty => apply bounded_unset
  | |- analyzed_bounded _ => exact H
  end.

Section Batch.

Variable env : Env.

Lemma analyzed_resume r e s :
  analyzed_bounded (partialResults s) ->
  analyzed_bounded (partialResults (fst (resume env r e s))).
Proof.
  destruct s. cbn [partialResults]. intros H.
  run_cases r e Hpc; try exact H;
    try (unfold on_audit_progress; destruct (JS.includes _ _));
    try (unfold after_crawl; destruct (Nat.eqb _ _));
    try (unfold catch_handler; destruct (c_isCancelling r));
    try (unfold after_summary, after_hit_summary, record_history;
         destruct b);
    eval_store; bounded H.
Qed.

Lemma analyzed_step a e :
  analyzed_bounded (partialResults (store a)) ->
  analyzed_bounded (partialResults (store (step env a e))).
Proof.
  intros H. destruct e as [d| | | |c b| |i ev]; cbn [step].
  - unfold handleSubmit.
    destruct (negb _); [exact H|].
    destruct (aiConfig (store a)); [|exact H].
    destruct (parseURL env _); [|exact H].
    cbn [store]. revert H. destruct (store a). intros H.
    eval_store. cbn [store partialResults]. bounded H.
  - revert H.
    destruct (store a) as [? ? ? ? ? ? ? ? ? ? ? ? [ab|] ? ? ? ?];
      cbn [store]; intros H; eval_store; bounded H.
  - revert H. destruct (store a); cbn [store]. intros H.
    eval_store. bounded H.
  - revert H. destruct (store a); cbn [store]. intros H.
    unfold handleClearHistory. eval_store. bounded H.
  - revert H. destruct (store a), b; cbn [store]; exact (fun H => H).
  - revert H. destruct (store a); cbn [store]. exact (fun H => H).
  - destruct (nth_error (runs a) i) as [r|]; [|exact H].
    pose proof (analyzed_resume r ev (store a) H) as H'.
    destruct (resume env r ev (store a)). exact H'.
Qed.

End Batch.

(** X18: In every reachable state the number of URLs reported as analysed, when
    it is set, is at most [MAX_URLS_FOR_ANALYSIS] (100), however many URLs
    the crawl found and however [rankUrls] orders them. *)
Theorem analysis_batch_is_bounded (env : Env) (a : App) (n : nat) :
  reachable env a ->
  pr_urlsAnalyzed (partialResults (store a)) = Some n ->
  (n <= 100)%nat.
Proof.
  intros (h & c & evs & ->).
  assert (H0 : analyzed_bounded (partialResults (store (mount env h c)))).
  { unfold mount, mountEffect; cbn [store].
    destruct c as [|cfg|]; destruct h as [|[|h0 hs]|]; cbn;
      apply bounded_unset. }
  revert H0. generalize (mount env h c).
  induction evs as [|e evs IH]; intros a H0.
  - exact (H0 n).
  - rewrite exec_cons. apply IH, analyzed_step, H0.
Qed.

Lemma analysis_batch_is_bounded_witness : (2 <= 100)%nat.
Proof.
  apply (analysis_batch_is_bounded env0
           (exec env0 app0 cache_write_rejected_trace) 2).
  - exists Missing, (Value "cfg"%string), cache_write_rejected_trace.
    reflexivity.
  - vm_compute. reflexivity.
Defined.

(** ** Stages served from the cache *)

Lemma no_start_update id u l :
  u_startTime u = None \/ served_from_cache id = false ->
  Forall no_start l ->
  Forall no_start (map (fun st => if String.eqb (stage_id st) id
                                  then merge_updates st u else st) l).
Proof.
  intros Hu Hl. apply Forall_map. revert Hl. apply Forall_impl.
  intros st Hst. destruct (String.eqb (stage_id st) id) eqn:E; [|exact Hst].
  apply String.eqb_eq in E. unfold no_start in *.
  cbn [merge_updates stage_id startTime]. intros Hs.
  destruct Hu as [Hu|Hu].
  - rewrite Hu. exact (Hst Hs).
  - rewrite E in Hs. congruence.
Qed.

Lemma no_start_fail l :
  Forall no_start l -> Forall no_start (map fail_running l).
Proof.
  intros Hl. apply Forall_map. revert Hl. apply Forall_impl.
  intros st Hst. unfold no_start, fail_running in *.
  destruct (status_eqb _ _); exact Hst.
Qed.

Lemma no_start_initial : Forall no_start initial_stages.
Proof. repeat constructor. Qed.

Ltac starts H :=
  repeat lazymatch goal with
  | |- Forall no_start (map fail_running _) => apply no_start_fail
  | |- Forall no_start
         (map (fun st => if String.eqb (stage_id st) _
                         then merge_updates st _ else st) _) =>
      apply no_start_update; [first [left; reflexivity|right; reflexivity]|]
  | |- Forall no_start initial_stages => apply no_start_initial
  | |- Forall no_start _ => exact H
  end.

Section CacheHit.

Variable env : Env.

Lemma hit_inv_resume r e s :
  hit_inv (phase_of (pc r)) s ->
  hit_inv (phase_of (pc (snd (resume env r e s)))) (fst (resume env r e s)).
Proof.
  unfold hit_inv. destruct s as [? ? ? ? ? ? stages ? ? ? ? ? ? ? ? ? ?].
  cbn [pipelineStages].
  run_cases r e Hpc; intros H;
    try (unfold on_audit_progress; destruct (JS.includes _ _));
    try (unfold after_crawl; rewrite ?Hempty);
    try (unfold catch_handler; destruct (c_isCancelling r));
    try (unfold after_summary, after_hit_summary, record_history;
         destruct b);
    eval_store; cbn [pc at_pc phase_of on_hit_path] in *;
    intros Hp; try discriminate Hp;
    first [specialize (H Hp) | specialize (H eq_refl)];
    starts H.
Qed.

Lemma hit_inv_handleSubmit d s r :
  snd (handleSubmit env d s) = Some r ->
  hit_inv PhCrawl (fst (handleSubmit env d s)).
Proof.
  unfold handleSubmit.
  destruct (negb _); [discriminate|].
  destruct (aiConfig s); [|discriminate].
  destruct (parseURL env _); [|discriminate].
  intros _ _. destruct s. eval_store. starts I.
Qed.

Lemma hit_inv_exec evs r s :
  hit_inv (phase_of (pc r)) s ->
  hit_inv (phase_of (pc (snd (run_exec env r s evs))))
          (fst (run_exec env r s evs)).
Proof.
  intros H.
  apply (run_exec_inv env (fun r s => hit_inv (phase_of (pc r)) s)
           (fun _ => True)); [|apply Forall_True|exact H].
  intros r0 s0 e _ H0. apply hit_inv_resume, H0.
Qed.

End CacheHit.

Lemma hit_view_complete p v i stt :
  run_view p v ->
  phase_of p = PhHitPlan \/ phase_of p = PhHitSummary ->
  In (i, stt) v -> served_from_cache i = true -> stt = StComplete.
Proof.
  intros H Hph Hin Hi.
  destruct p as [| | | | | | | |last ok]; cbn [phase_of] in Hph;
    destruct Hph as [Hph|Hph]; try discriminate Hph;
    try (subst last; destruct ok);
    cbn [run_view phase_of expected_view] in H; subst v;
    cbn in Hin;
    repeat (destruct Hin as [Hin|Hin];
            [injection Hin as <- <-; first [reflexivity|discriminate Hi]|]);
    contradiction.
Qed.

(** X19: On the cache-hit path of a run that proceeds alone, the four stages
    served from the cache (rank, competitor, technical, content) are
    complete and never get a start time, so the stage card computes no
    duration for them. *)
Theorem cache_hit_stages_have_no_start_time (env : Env) (a : App)
    (d : WizardSubmitData) (r r' : Run) (evs : list RunEvent)
    (st : PipelineStage) :
  reachable env a ->
  starts_run env a d r ->
  new_run a (single_run env a d evs) = Some r' ->
  phase_of (pc r') = PhHitPlan \/ phase_of (pc r') = PhHitSummary ->
  In st (pipelineStages (store (single_run env a d evs))) ->
  In (stage_id st) ["rank"; "competitor"; "technical"; "content"]%string ->
  status st = StComplete /\ startTime st = None /\
  forall t, PipelineView.elapsedTime t st = None.
Proof.
  intros Hr Hs Hnew Hph Hin Hid.
  assert (Hserved : served_from_cache (stage_id st) = true).
  { unfold served_from_cache. apply existsb_exists.
    exists (stage_id st). split; [exact Hid|apply String.eqb_refl]. }
  destruct (run_view_single_run env a d r evs Hr Hs)
    as (r1 & Hr1 & Hv).
  rewrite Hnew in Hr1. injection Hr1 as <-.
  assert (Hc : status st = StComplete).
  { apply (hit_view_complete (pc r') _ (stage_id st) _ Hv Hph);
      [|exact Hserved].
    unfold view, view_of. apply in_map_iff. exists st. split; auto. }
  assert (Hn : startTime st = None).
  { revert Hnew Hin. rewrite (single_run_started env a d r evs Hs).
    rewrite new_run_last. cbn [store]. intros [= E] Hin.
    destruct (handleSubmit_run env d (store a) r Hs) as (Hpc & _).
    pose proof (hit_inv_exec env evs r (fst (handleSubmit env d (store a))))
      as H.
    rewrite Hpc in H. specialize (H (hit_inv_handleSubmit env d _ r Hs)).
    rewrite E in H. unfold hit_inv in H.
    assert (Hp : on_hit_path (phase_of (pc r')) = true)
      by (destruct Hph as [-> | ->]; reflexivity).
    specialize (H Hp). rewrite Forall_forall in H.
    exact (H st Hin Hserved). }
  split; [exact Hc|]. split; [exact Hn|]. intros t.
  unfold PipelineView.elapsedTime. rewrite Hc, Hn. reflexivity.
Qed.

Lemma cache_hit_stages_have_no_start_time_witness :
  let st := hd crawl_rejected_stage
              (tl (pipelineStages
                     (store (single_run env0 app0 d0 cached_run_events)))) in
  status st = StComplete /\ startTime st = None /\
  forall t, PipelineView.elapsedTime t st = None.
Proof.
  apply (cache_hit_stages_have_no_start_time env0 app0 d0 crawling_run
           (at_pc (Returned PhHitSummary true) crawling_run)
           cached_run_events).
  - exists Missing, (Value "cfg"%string), []. reflexivity.
  - reflexivity.
  - vm_compute. reflexivity.
  - right. reflexivity.
  - vm_compute. right. left. reflexivity.
  - vm_compute. left. reflexivity.
Defined.

(** ** The crawl percentage *)

(** X20: When a crawl progress signal has 0 <= count <= total, the progress it
    gives the crawl stage is a percentage between 0 and 100. *)
Theorem crawl_progress_is_a_percentage (p : CrawlProgress) (s : Store)
    (st : PipelineStage) :
  0 <= count p <= total p ->
  find_stage "crawl" (on_crawl_progress p s) = Some st ->
  (0 <= progress st /\ progress st <= 100)%Q.
Proof.
  intros Hc. unfold on_crawl_progress. rewrite find_stage_updateStage.
  replace (find_stage "crawl" (set_crawlProgress (Some p) s))
    with (find_stage "crawl" s) by (destruct s; reflexivity).
  destruct (find_stage "crawl" s) as [st0|]; [|discriminate].
  cbn [option_map String.eqb Ascii.eqb Bool.eqb]. intros [= <-].
  cbn [merge_updates progress upd_crawl_progress u_progress].
  destruct (Z.ltb 0 (total p)) eqn:E.
  - apply Z.ltb_lt in E. apply DoubleFacts.percent_bounds; assumption.
  - split; unfold Qle; cbn; lia.
Qed.

Lemma crawl_progress_is_a_percentage_witness :
  let st := hd crawl_rejected_stage (pipelineStages (store halfway_app)) in
  (0 <= progress st /\ progress st <= 100)%Q.
Proof.
  apply (crawl_progress_is_a_percentage (mkCrawlProgress 1 2 None)
           (store crawling_app)).
  - cbn. lia.
  - vm_compute. reflexivity.
Defined.

(** ** Time stamps of the activity log *)

Lemma nondecreasing_snoc l y :
  nondecreasing l -> Forall (fun x => x <= y) l -> nondecreasing (l ++ [y]).
Proof.
  induction l as [|a t IH]; intros Hn Hb; [cbn; auto|].
  inversion Hb as [|? ? Ha Ht]; subst. destruct Hn as [H1 H2].
  cbn [app nondecreasing]. split; [|apply IH; assumption].
  destruct t as [|b t']; [exact Ha|exact H1].
Qed.

Section LogOrder.

Variable env : Env.
Hypothesis mono : monotone_clock env.

Lemma log_ordered_nil n : log_ordered env n [].
Proof. split; [exact I|constructor]. Qed.

Lemma log_ordered_snoc n k m l msg ty stg :
  log_ordered env n l -> (n <= k)%nat -> (k <= m)%nat ->
  log_ordered env m (l ++ [mkLog (now env k) msg ty stg]).
Proof.
  intros [Hs Hb] Hnk Hkm. split.
  - rewrite map_app. cbn [map timestamp]. apply nondecreasing_snoc; [exact Hs|].
    apply Forall_map. revert Hb. apply Forall_impl. intros e He.
    pose proof (mono _ _ Hnk). lia.
  - apply Forall_app. split.
    + revert Hb. apply Forall_impl. intros e He.
      pose proof (mono n m ltac:(lia)). lia.
    + constructor; [|constructor]. cbn [timestamp]. apply mono, Hkm.
Qed.

Lemma log_ordered_later n m l :
  log_ordered env n l -> (n <= m)%nat -> log_ordered env m l.
Proof.
  intros [Hs Hb] Hnm. split; [exact Hs|]. revert Hb. apply Forall_impl.
  intros e He. pose proof (mono _ _ Hnm). lia.
Qed.

(** Rebuilds the order of an evaluated log, entry by entry. *)
Ltac ordered H :=
  lazymatch goal with
  | |- log_ordered _ ?m (_ ++ [mkLog (now _ ?k) _ _ _]) =>
      apply (log_ordered_snoc k k m); [ordered H|lia|lia]
  | |- log_ordered _ _ [] => apply log_ordered_nil
  | |- log_ordered _ _ _ =>
      first [exact H|eapply log_ordered_later; [exact H|lia]]
  end.

Lemma ordered_resume r e s :
  log_ordered env (clock s) (activityLog s) ->
  log_ordered env (clock (fst (resume env r e s)))
    (activityLog (fst (resume env r e s))).
Proof.
  destruct s. cbn [clock activityLog]. intros H.
  run_cases r e Hpc; try exact H;
    try (unfold on_audit_progress; destruct (JS.includes _ _));
    try (unfold after_crawl; destruct (Nat.eqb _ _));
    try (unfold catch_handler; destruct (c_isCancelling r));
    try (unfold after_summary, after_hit_summary, record_history;
         destruct b);
    eval_store; ordered H.
Qed.

Lemma ordered_step a e :
  log_ordered env (clock (store a)) (activityLog (store a)) ->
  log_ordered env (clock (store (step env a e)))
    (activityLog (store (step env a e))).
Proof.
  intros H. destruct e as [d| | | |c b| |i ev]; cbn [step].
  - unfold handleSubmit.
    destruct (negb _); [exact H|].
    destruct (aiConfig (store a)); [|exact H].
    destruct (parseURL env _); [|exact H].
    cbn [store]. revert H. destruct (store a). intros H.
    eval_store. cbn [store clock activityLog]. ordered H.
  - revert H.
    destruct (store a) as [? ? ? ? ? ? ? ? ? ? ? ? [ab|] ? ? ? ?];
      cbn [store]; intros H; eval_store; ordered H.
  - revert H. destruct (store a); cbn [store]. intros H.
    eval_store. ordered H.
  - revert H. destruct (store a); cbn [store]. intros H.
    unfold handleClearHistory. eval_store. ordered H.
  - revert H. destruct (store a), b; cbn [store]; exact (fun H => H).
  - revert H. destruct (store a); cbn [store]. exact (fun H => H).
  - destruct (nth_error (runs a) i) as [r|]; [|exact H].
    pose proof (ordered_resume r ev (store a) H) as H'.
    destruct (resume env r ev (store a)). exact H'.
Qed.

Lemma reachable_log_ordered a :
  reachable env a ->
  log_ordered env (clock (store a)) (activityLog (store a)).
Proof.
  intros (h & c & evs & ->).
  assert (H0 : log_ordered env (clock (store (mount env h c)))
                 (activityLog (store (mount env h c)))).
  { unfold mount, mountEffect; cbn [store].
    destruct c as [|cfg|]; destruct h as [|[|h0 hs]|]; cbn;
      apply log_ordered_nil. }
  revert H0. generalize (mount env h c).
  induction evs as [|e evs IH]; intros a H0; [exact H0|].
  rewrite exec_cons. apply IH, ordered_step, H0.
Qed.

End LogOrder.

(** X21: With a clock that never goes back, in every reachable state the time
    stamps of the activity log never decrease from one entry to the
    next. *)
Theorem log_time_stamps_never_decrease (env : Env) (a : App) :
  monotone_clock env ->
  reachable env a ->
  nondecreasing (map timestamp (activityLog (store a))).
Proof.
  intros mono Hr. exact (proj1 (reachable_log_ordered env mono a Hr)).
Qed.

Lemma log_time_stamps_never_decrease_witness :
  nondecreasing (map timestamp (activityLog (store cache_hit_app))).
Proof.
  apply (log_time_stamps_never_decrease env0 cache_hit_app).
  - intros i j H; cbn; lia.
  - exists Missing, (Value "cfg"%string), cache_hit_trace. reflexivity.
Defined.

(** ** Selecting a record of the history *)

Lemma find_id_present i (l : list HistoricalAnalysis) :
  In i (map ha_id l) ->
  exists h, find (fun h => Z.eqb (ha_id h) i) l = Some h /\
            ha_id h = i /\ In h l.
Proof.
  induction l as [|x l IH]; [contradiction|]. cbn [map find In].
  destruct (Z.eqb (ha_id x) i) eqn:E.
  - intros _. exists x. apply Z.eqb_eq in E. auto.
  - intros [H|H]; [apply Z.eqb_neq in E; contradiction|].
    destruct (IH H) as (h & Hf & Hi & Hin). exists h. auto.
Qed.

Lemma find_id_absent i (l : list HistoricalAnalysis) :
  ~ In i (map ha_id l) -> find (fun h => Z.eqb (ha_id h) i) l = None.
Proof.
  induction l as [|x l IH]; [reflexivity|]. cbn [map find In]. intros H.
  destruct (Z.eqb (ha_id x) i) eqn:E.
  - apply Z.eqb_eq in E. exfalso. apply H. left. exact E.
  - apply IH. intros Hin. apply H. right. exact Hin.
Qed.

(** X22: Selecting an entry of the history panel, and the render that
    follows.  With a configuration set and a record with the selected id
    in the history, the application shows results, the error is cleared,
    the record on display is a record of the history with that id, and
    stages, log and partial results are untouched.  With a configuration
    set and no such record, the render finds nothing to display and starts
    a new analysis: the wizard is shown, nothing is selected, and stages,
    log and partial results are reset.  Without a configuration the user
    is sent to the configuration screen, and selection, stages, log and
    partial results are as they were.  The history is untouched in all
    three cases. *)
Theorem onSelect_displays_the_selected_record (env : Env) (id : Z)
    (s : Store) :
  (aiConfig s <> None -> In id (map ha_id (analysisHistory s)) ->
   appState (renderContent env (onSelect id s)) = Results /\
   error_ (renderContent env (onSelect id s)) = None /\
   (exists h,
      analysisToDisplay (renderContent env (onSelect id s)) = Some h /\
      ha_id h = id /\ In h (analysisHistory s)) /\
   observable (renderContent env (onSelect id s)) = observable s) /\
  (aiConfig s <> None -> ~ In id (map ha_id (analysisHistory s)) ->
   appState (renderContent env (onSelect id s)) = Idle /\
   error_ (renderContent env (onSelect id s)) = None /\
   selectedAnalysisId (renderContent env (onSelect id s)) = None /\
   observable (renderContent env (onSelect id s))
   = (initial_stages, [], pr_empty)) /\
  (aiConfig s = None ->
   appState (renderContent env (onSelect id s)) = ConfigureAi /\
   selectedAnalysisId (renderContent env (onSelect id s))
   = selectedAnalysisId s /\
   observable (renderContent env (onSelect id s)) = observable s) /\
  analysisHistory (renderContent env (onSelect id s)) = analysisHistory s.
Proof.
  unfold onSelect, renderContent, analysisToDisplay, observable.
  destruct s as [? hist ? ? ? ? ? ? ? ? [cfg|] ? ? ? ? ? ?];
    cbn [aiConfig has analysisHistory].
  - eval_store.
    destruct (find (fun h => Z.eqb (ha_id h) id) hist) as [h|] eqn:F;
      cbn [has andb]; eval_store; rewrite ?F;
      repeat match goal with |- _ /\ _ => split end;
      try reflexivity; try (intros H; congruence).
    + intros _ Hin. repeat split.
      destruct (find_id_present id hist Hin) as (h' & F' & Hi & Hh).
      rewrite F in F'. injection F' as <-. exists h. auto.
    + intros _ Hout. exfalso.
      rewrite (find_id_absent id hist Hout) in F. discriminate F.
    + intros _ Hin. exfalso.
      destruct (find_id_present id hist Hin) as (h' & F' & _).
      rewrite F in F'. discriminate F'.
    + intros _ _. repeat split.
  - eval_store.
    repeat match goal with |- _ /\ _ => split end;
      try reflexivity; try (intros H; congruence).
    intros _. repeat split.
Qed.

Lemma onSelect_displays_the_selected_record_witness :
  appState
    (renderContent env0
       (onSelect 1 (set_analysisHistory two_records (store app0))))
  = Results /\
  error_
    (renderContent env0
       (onSelect 1 (set_analysisHistory two_records (store app0))))
  = None /\
  (exists h,
     analysisToDisplay
       (renderContent env0
          (onSelect 1 (set_analysisHistory two_records (store app0))))
     = Some h /\
     ha_id h = 1 /\
     In h (analysisHistory (set_analysisHistory two_records (store app0)))) /\
  observable
    (renderContent env0
       (onSelect 1 (set_analysisHistory two_records (store app0))))
  = observable (set_analysisHistory two_records (store app0)).
Proof.
  apply (proj1 (onSelect_displays_the_selected_record env0 1
                  (set_analysisHistory two_records (store app0)))).
  - vm_compute. discriminate.
  - vm_compute. auto.
Defined.

(** ** Partial results and the record *)

Section Results.

Variable env : Env.

Lemma results_agree_resume r e s :
  results_agree (pc r) s ->
  results_agree (pc (snd (resume env r e s))) (fst (resume env r e s)).
Proof.
  unfold results_agree. destruct s. cbn [partialResults analysisHistory].
  run_cases r e Hpc; intros H; try exact H;
    try (unfold on_audit_progress; destruct (JS.includes _ _));
    try (unfold after_crawl; rewrite ?Hempty);
    try (unfold catch_handler; destruct (c_isCancelling r));
    try (unfold after_summary, after_hit_summary, record_history;
         destruct b);
    eval_store;
    cbn [pc at_pc pr_spread or_else pr_sitewideAnalysis pr_seoAnalysis
         pr_executiveSummary pr_actionPlan pr_urlsDiscovered pr_urlsAnalyzed
         firstn hd_error ha_sitewideAnalysis ha_analysis ha_actionPlan
         ha_executiveSummary] in *;
    try exact H; try exact I;
    try (destruct b'; exact H);
    try (eexists; split; [reflexivity|]);
    repeat match goal with H : _ /\ _ |- _ => destruct H end;
    repeat match goal with |- _ /\ _ => split end;
    try assumption; try reflexivity; try discriminate; try congruence.
Qed.

End Results.

(** X23: For a run that proceeds alone, the partial results shown while it
    runs agree with what it has received: after the crawl they hold the
    number of URLs found, from the fan-out (or the cache hit) on the
    site-wide and the page analysis, then the action plan; and when the run
    returns normally the four results they hold are exactly those of the
    record it has put first in the history. *)
Theorem partial_results_agree_with_the_record (env : Env) (a : App)
    (d : WizardSubmitData) (r : Run) (evs : list RunEvent) :
  starts_run env a d r ->
  exists r',
    new_run a (single_run env a d evs) = Some r' /\
    results_agree (pc r') (store (single_run env a d evs)).
Proof.
  intros Hs. rewrite (single_run_started env a d r evs Hs).
  rewrite new_run_last. eexists. split; [reflexivity|]. cbn [store].
  apply (run_exec_inv env (fun r s => results_agree (pc r) s)
           (fun _ => True)); [|apply Forall_True|].
  - intros r0 s0 e _ H0. apply results_agree_resume, H0.
  - destruct (handleSubmit_run env d (store a) r Hs) as (Hpc & _).
    rewrite Hpc. exact I.
Qed.

Lemma partial_results_agree_with_the_record_witness :
  exists r',
    new_run app0 (single_run env0 app0 d0 full_run_events) = Some r' /\
    results_agree (pc r') (store (single_run env0 app0 d0 full_run_events)).
Proof.
  apply (partial_results_agree_with_the_record env0 app0 d0 crawling_run).
  reflexivity.
Defined.

(** ** The elapsed time of the header *)

Section Elapsed.

Variable env : Env.
Hypothesis mono : monotone_clock env.

(** Settles a bound on a start time read from the clock. *)
Ltac started H :=
  first [ exact H
        | apply mono; lia
        | etransitivity; [exact H|apply mono; lia] ].

Lemma started_resume r e s :
  analysisStartTime s <= now env (clock s) ->
  analysisStartTime (fst (resume env r e s))
  <= now env (clock (fst (resume env r e s))).
Proof.
  destruct s. cbn [clock analysisStartTime]. intros H.
  run_cases r e Hpc; try exact H;
    try (unfold on_audit_progress; destruct (JS.includes _ _));
    try (unfold after_crawl; destruct (Nat.eqb _ _));
    try (unfold catch_handler; destruct (c_isCancelling r));
    try (unfold after_summary, after_hit_summary, record_history;
         destruct b);
    eval_store; started H.
Qed.

Lemma started_step a e :
  analysisStartTime (store a) <= now env (clock (store a)) ->
  analysisStartTime (store (step env a e))
  <= now env (clock (store (step env a e))).
Proof.
  intros H. destruct e as [d| | | |c b| |i ev]; cbn [step].
  - unfold handleSubmit.
    destruct (negb _); [exact H|].
    destruct (aiConfig (store a)); [|exact H].
    destruct (parseURL env _); [|exact H].
    cbn [store]. revert H. destruct (store a). intros H.
    eval_store. cbn [store clock analysisStartTime]. started H.
  - revert H.
    destruct (store a) as [? ? ? ? ? ? ? ? ? ? ? ? [ab|] ? ? ? ?];
      cbn [store]; intros H; eval_store; started H.
  - revert H. destruct (store a); cbn [store]. intros H.
    eval_store. started H.
  - revert H. destruct (store a); cbn [store]. intros H.
    unfold handleClearHistory. eval_store. started H.
  - revert H. destruct (store a), b; cbn [store]; exact (fun H => H).
  - revert H. destruct (store a); cbn [store]. exact (fun H => H).
  - destruct (nth_error (runs a) i) as [r|]; [|exact H].
    pose proof (started_resume r ev (store a) H) as H'.
    destruct (resume env r ev (store a)). exact H'.
Qed.

Lemma reachable_started a :
  reachable env a ->
  analysisStartTime (store a) <= now env (clock (store a)).
Proof.
  intros (h & c & evs & ->).
  assert (H0 : analysisStartTime (store (mount env h c))
               <= now env (clock (store (mount env h c)))).
  { unfold mount, mountEffect; cbn [store].
    destruct c as [|cfg|]; destruct h as [|[|h0 hs]|]; cbn;
      apply mono; lia. }
  revert H0. generalize (mount env h c).
  induction evs as [|e evs IH]; intros a H0; [exact H0|].
  rewrite exec_cons. apply IH, started_step, H0.
Qed.

End Elapsed.

(** X24: With a clock that never goes back, in every reachable state the
    start time of the analysis is not later than any later reading of the
    clock: the total elapsed time the header of the pipeline view computes
    is never negative. *)
Theorem header_elapsed_is_not_negative (env : Env) (a : App) (k : nat) :
  monotone_clock env ->
  reachable env a ->
  (clock (store a) <= k)%nat ->
  0 <= PipelineView.totalElapsed (now env k) (analysisStartTime (store a)).
Proof.
  intros mono Hr Hk. pose proof (reachable_started env mono a Hr) as H.
  pose proof (mono _ _ Hk). unfold PipelineView.totalElapsed. lia.
Qed.

Lemma header_elapsed_is_not_negative_witness :
  0 <= PipelineView.totalElapsed (now env0 100)
         (analysisStartTime (store cache_hit_app)).
Proof.
  apply (header_elapsed_is_not_negative env0 cache_hit_app 100).
  - intros i j H; cbn; lia.
  - exists Missing, (Value "cfg"%string), cache_hit_trace. reflexivity.
  - vm_compute. repeat constructor.
Defined.
